(** * pgauditlogtofile: audit-line redirection with coordinated file rotation

    A shallow embedding of [logtofile.c].  The development follows the
    layout of the C file: machine integers and C strings first, then the
    shared-memory structure and the per-backend static variables, then each
    C function under its own name, and finally the properties of the
    rotation check, the deadline computation, the CSV formatter and the
    write path.

    Conventions.
    - A C string ([char *]) is the Rocq [string] of the bytes that precede
      its terminator; a possibly-NULL [char *] is an [option string].
    - [int], [long] and [pg_time_t] values are integers in [Z]; every
      arithmetic operation of the C code is followed by the wrap-around of
      its type (PostgreSQL and its extensions are built with [-fwrapv]).
    - Calls into the operating system and into the PostgreSQL host are
      answered by oracles held in the world state; what the code does to the
      outside (locks, files, diagnostics, the previous hook) is appended to
      a trace of events. *)

From Stdlib Require Import ZArith String Ascii List Bool Lia Sorted.
From Stdlib Require Import DecimalString HexadecimalString.
Import ListNotations.

Local Open Scope string_scope.
Local Open Scope Z_scope.

(** ** Machine integers *)

Module CInt.

Definition wrap_signed (bits z : Z) : Z :=
  (z + 2 ^ (bits - 1)) mod 2 ^ bits - 2 ^ (bits - 1).

Definition wrap_int (z : Z) : Z := wrap_signed 32 z.
Definition wrap_long (z : Z) : Z := wrap_signed 64 z.
(* pg_time_t is int64 *)
Definition wrap_time (z : Z) : Z := wrap_signed 64 z.
Definition wrap_uint (z : Z) : Z := z mod 2 ^ 32.
Definition wrap_ulong (z : Z) : Z := z mod 2 ^ 64.

Definition INT_MAX : Z := 2147483647.
Definition LONG_MAX : Z := 9223372036854775807.

Definition in_signed (bits z : Z) : Prop :=
  - 2 ^ (bits - 1) <= z < 2 ^ (bits - 1).

End CInt.
Import CInt.

(* datatype/timestamp.h *)
Definition SECS_PER_MINUTE : Z := 60.
Definition MINS_PER_HOUR : Z := 60.
Definition HOURS_PER_DAY : Z := 24.
(* pg_config_manual.h *)
Definition MAXPGPATH : nat := 1024.
Definition FORMATTED_TS_LEN : nat := 128.
Definition PGAUDIT_PREFIX_LINE : string := "AUDIT: ".

(** ** C strings *)

Definition dquote : ascii := ascii_of_nat 34.
Definition comma : ascii := ascii_of_nat 44.
Definition newline : ascii := ascii_of_nat 10.

Definition uchar (c : ascii) : Z := Z.of_nat (nat_of_ascii c).

(* the byte read through [*s]: the terminator once the content is used up *)
Definition deref (s : string) : Z :=
  match s with
  | EmptyString => 0
  | String c _ => uchar c
  end.

Definition strlen (s : string) : nat := String.length s.

(** What [<ctype.h>] answers for bytes with the high bit set depends on the
    locale of the server. *)
Record Locale := mkLocale {
  lc_isupper : Z -> bool;
  lc_tolower : Z -> Z
}.

Definition C_locale : Locale :=
  {| lc_isupper := fun _ => false; lc_tolower := fun c => c |}.

Definition IS_HIGHBIT_SET (ch : Z) : bool := Z.testbit ch 7.

(* the case folding of one byte in pg_strcasecmp / pg_strncasecmp
   (PostgreSQL, src/port/pgstrcasecmp.c) *)
Definition fold_uchar (lc : Locale) (ch : Z) : Z :=
  if (uchar "A"%char <=? ch) && (ch <=? uchar "Z"%char)
  then ch + (uchar "a"%char - uchar "A"%char)
  else if IS_HIGHBIT_SET ch && lc_isupper lc ch then lc_tolower lc ch mod 256
  else ch.

Fixpoint pg_strcasecmp (lc : Locale) (s1 s2 : string) {struct s1} : Z :=
  let ch1 := deref s1 in
  let ch2 := deref s2 in
  let f1 := if ch1 =? ch2 then ch1 else fold_uchar lc ch1 in
  let f2 := if ch1 =? ch2 then ch2 else fold_uchar lc ch2 in
  if negb (f1 =? f2) then f1 - f2
  else if f1 =? 0 then 0
  else match s1, s2 with
       | String _ r1, String _ r2 => pg_strcasecmp lc r1 r2
       | _, _ => 0
       end.

Fixpoint pg_strncasecmp (lc : Locale) (s1 s2 : string) (n : nat) {struct n} : Z :=
  match n with
  | O => 0
  | S n' =>
    let ch1 := deref s1 in
    let ch2 := deref s2 in
    let f1 := if ch1 =? ch2 then ch1 else fold_uchar lc ch1 in
    let f2 := if ch1 =? ch2 then ch2 else fold_uchar lc ch2 in
    if negb (f1 =? f2) then f1 - f2
    else if f1 =? 0 then 0
    else match s1, s2 with
         | String _ r1, String _ r2 => pg_strncasecmp lc r1 r2 n'
         | _, _ => 0
         end
  end.

(** ** printf conversions used by the formatter *)

Definition fmt_d (z : Z) : string :=
  DecimalString.NilZero.string_of_int (Z.to_int z).

Definition fmt_u (z : Z) : string := fmt_d (wrap_uint z).

Definition fmt_x (z : Z) : string :=
  HexadecimalString.NilZero.string_of_uint (N.to_hex_uint (Z.to_N (wrap_uint z))).

Definition fmt_lx (z : Z) : string :=
  HexadecimalString.NilZero.string_of_uint (N.to_hex_uint (Z.to_N (wrap_ulong z))).

(* digits padded with zeros on the left up to [width] characters *)
Definition zero_pad (width : nat) (digits : string) : string :=
  (string_of_list_ascii (repeat "0"%char (width - String.length digits))
   ++ digits)%string.

(* "%03d": the sign counts in the width *)
Definition fmt_03d (z : Z) : string :=
  if z <? 0 then ("-" ++ zero_pad 2 (fmt_d (- z)))%string
  else zero_pad 3 (fmt_d z).

(** ** StringInfo

    A [StringInfo] is the text accumulated so far; every append goes to its
    end. *)

Definition StringInfo := string.

Definition initStringInfo : StringInfo := "".

Definition appendStringInfoChar (buf : StringInfo) (c : ascii) : StringInfo :=
  (buf ++ String c "")%string.

Definition appendStringInfoString (buf : StringInfo) (s : string) : StringInfo :=
  (buf ++ s)%string.

(** *** pgauditlogtofile_append_csv_literal *)

(* the [while ((c = *p++) != '\0')] loop *)
Fixpoint append_csv_loop (buf : StringInfo) (p : string) : StringInfo :=
  match p with
  | EmptyString => buf
  | String c p' =>
    let buf := if Ascii.eqb c dquote then appendStringInfoChar buf dquote else buf in
    append_csv_loop (appendStringInfoChar buf c) p'
  end.

Definition pgauditlogtofile_append_csv_literal
    (buf : StringInfo) (data : option string) : StringInfo :=
  match data with
  | None => buf
  | Some p =>
    let buf := appendStringInfoChar buf dquote in
    let buf := append_csv_loop buf p in
    appendStringInfoChar buf dquote
  end.

(** Standard CSV unquoting, as a reader of the file applies it to one quoted
    field: the field starts and ends with a double quote, and inside it a
    double quote is written twice.  This is the reading side the formatter
    is compared with; it is not part of [logtofile.c]. *)
Fixpoint csv_unquote_body (s : string) : option string :=
  match s with
  | EmptyString => None
  | String c r =>
    if Ascii.eqb c dquote then
      match r with
      | EmptyString => Some ""
      | String c' r' =>
        if Ascii.eqb c' dquote
        then option_map (String dquote) (csv_unquote_body r')
        else None
      end
    else option_map (String c) (csv_unquote_body r)
  end.

Definition csv_unquote (s : string) : option string :=
  match s with
  | EmptyString => None
  | String c r => if Ascii.eqb c dquote then csv_unquote_body r else None
  end.

(* the text [He said "hi", bye] *)
Definition he_said : string :=
  ("He said " ++ String dquote ("hi" ++ String dquote ", bye"))%string.

(* the same text as the formatter is expected to render it: wrapped in
   double quotes, with the two inner double quotes written twice *)
Definition he_said_quoted : string :=
  String dquote ("He said " ++ String dquote (String dquote ("hi"
    ++ String dquote (String dquote (", bye" ++ String dquote "")))))%string.

(** ** Data model *)

(* libpq/libpq-be.h: the fields of [Port] the formatter reads *)
Record Port := mkPort {
  user_name : option string;
  database_name : option string;
  remote_host : option string;
  remote_port : option string
}.

(* storage/proc.h: the fields of [PGPROC] the formatter reads *)
Record PGPROC := mkPGPROC {
  backendId : Z;
  lxid : Z
}.

Definition InvalidBackendId : Z := -1.

(* utils/elog.h *)
Inductive PGErrorVerbosity := PGERROR_TERSE | PGERROR_DEFAULT | PGERROR_VERBOSE.

Definition verbosity_rank (v : PGErrorVerbosity) : Z :=
  match v with
  | PGERROR_TERSE => 0
  | PGERROR_DEFAULT => 1
  | PGERROR_VERBOSE => 2
  end.

(* utils/elog.h: the fields of [ErrorData] this file reads or writes *)
Record ErrorData := mkErrorData {
  output_to_server : bool;
  hide_stmt : bool;
  ed_filename : option string;
  ed_lineno : Z;
  ed_funcname : option string;
  sqlerrcode : Z;
  message : option string;
  detail : option string;
  detail_log : option string;
  hint : option string;
  context : option string;
  cursorpos : Z;
  internalpos : Z;
  internalquery : option string
}.

Definition set_output_to_server (e : ErrorData) (b : bool) : ErrorData :=
  {| output_to_server := b; hide_stmt := hide_stmt e;
     ed_filename := ed_filename e; ed_lineno := ed_lineno e;
     ed_funcname := ed_funcname e; sqlerrcode := sqlerrcode e;
     message := message e; detail := detail e; detail_log := detail_log e;
     hint := hint e; context := context e; cursorpos := cursorpos e;
     internalpos := internalpos e; internalquery := internalquery e |}.

(** The SHM structure [pgAuditLogToFileShm]; its [lock] is the one LWLock of
    the tranche and appears in the trace. *)
Record pgAuditLogToFileShm := mkShm {
  shm_filename : string;
  force_rotation : bool;
  next_rotation_time : Z
}.

(** The GUC variables. *)
Record Guc := mkGuc {
  guc_pgaudit_log_directory : option string;
  guc_pgaudit_log_filename : option string;
  guc_pgaudit_log_rotation_age : Z
}.

(** An open [FILE *]: the path it was opened on. *)
Record FILE := mkFILE { f_path : string }.

(** The static variables of one backend: the file-scope ones and the two
    function-scope statics of [pgauditlogtofile_format_audit_line]. *)
Record Backend := mkBackend {
  file_handler : option FILE;
  filename_in_use : string;
  formatted_start_time : string;
  formatted_log_time : string;
  log_line_number : Z;
  log_my_pid : Z;
  prev_emit_log_hook : bool   (* whether a previous hook is installed *)
}.

(* the initialisers of the C file *)
Definition Backend_init : Backend :=
  {| file_handler := None; filename_in_use := ""; formatted_start_time := "";
     formatted_log_time := ""; log_line_number := 0; log_my_pid := 0;
     prev_emit_log_hook := false |}.

(** What the formatter and the scheduler read from the PostgreSQL host. *)
Record Host := mkHost {
  MyProcPid : Z;
  MyProcPort : option Port;
  MyStartTime : Z;
  MyProc : option PGPROC;
  TopTransactionId : Z;                 (* GetTopTransactionIdIfAny() *)
  ps_display : string;                  (* get_ps_display() *)
  debug_query_string : option string;
  Log_error_verbosity : PGErrorVerbosity;
  Log_file_mode : Z;
  application_name : option string;
  locale : Locale;
  (* pg_localtime(&t, log_timezone)->tm_gmtoff *)
  tm_gmtoff : Z -> Z;
  (* pg_strftime(_, size, pattern, pg_localtime(&t, log_timezone)) *)
  pg_strftime : nat -> string -> Z -> string;
  unpack_sql_state : Z -> string
}.

(** The operating system: the [n]-th call is answered by the oracle at [n]. *)
Record OS := mkOS {
  os_time : nat -> Z;                   (* time(NULL), tv_sec *)
  os_usec : nat -> Z;                   (* tv_usec *)
  os_fopen : nat -> string -> bool;     (* whether fopen(path, "a") succeeds *)
  os_fwrite : nat -> nat -> nat         (* items written, of those requested *)
}.

Inductive LWLockMode := LW_EXCLUSIVE | LW_SHARED.

Inductive Level := LOG | WARNING.

Inductive Event :=
| EvLWLockAcquire (m : LWLockMode)
| EvLWLockRelease
| EvEreport (l : Level) (msg : string)
| EvPrevHook (e : ErrorData)
| EvMakePGDirectory (dir : option string)
| EvUmask (mask : Z)
| EvUmaskRestore
| EvFopen (path : string) (ok : bool)
| EvSetvbuf (size : Z)
| EvFclose (path : string)
| EvFseekEnd (path : string)
| EvFwrite (path : string) (data : string) (written : nat).

Record World := mkWorld {
  host : Host;
  guc : Guc;
  os : OS;
  os_calls : nat;                          (* calls answered so far *)
  pgaudit_log_shm : option pgAuditLogToFileShm;
  backend : Backend;
  trace : list Event
}.

Definition with_shm (w : World) (s : option pgAuditLogToFileShm) : World :=
  {| host := host w; guc := guc w; os := os w; os_calls := os_calls w;
     pgaudit_log_shm := s; backend := backend w; trace := trace w |}.

Definition with_backend (w : World) (b : Backend) : World :=
  {| host := host w; guc := guc w; os := os w; os_calls := os_calls w;
     pgaudit_log_shm := pgaudit_log_shm w; backend := b; trace := trace w |}.

Definition with_os_calls (w : World) (n : nat) : World :=
  {| host := host w; guc := guc w; os := os w; os_calls := n;
     pgaudit_log_shm := pgaudit_log_shm w; backend := backend w;
     trace := trace w |}.

Definition with_trace (w : World) (t : list Event) : World :=
  {| host := host w; guc := guc w; os := os w; os_calls := os_calls w;
     pgaudit_log_shm := pgaudit_log_shm w; backend := backend w; trace := t |}.

Definition set_force_rotation (s : pgAuditLogToFileShm) (b : bool) :=
  {| shm_filename := shm_filename s; force_rotation := b;
     next_rotation_time := next_rotation_time s |}.

Definition set_next_rotation_time (s : pgAuditLogToFileShm) (t : Z) :=
  {| shm_filename := shm_filename s; force_rotation := force_rotation s;
     next_rotation_time := t |}.

Definition set_shm_filename (s : pgAuditLogToFileShm) (f : string) :=
  {| shm_filename := f; force_rotation := force_rotation s;
     next_rotation_time := next_rotation_time s |}.

Definition set_file_handler (b : Backend) (f : option FILE) : Backend :=
  {| file_handler := f; filename_in_use := filename_in_use b;
     formatted_start_time := formatted_start_time b;
     formatted_log_time := formatted_log_time b;
     log_line_number := log_line_number b; log_my_pid := log_my_pid b;
     prev_emit_log_hook := prev_emit_log_hook b |}.

Definition set_filename_in_use (b : Backend) (f : string) : Backend :=
  {| file_handler := file_handler b; filename_in_use := f;
     formatted_start_time := formatted_start_time b;
     formatted_log_time := formatted_log_time b;
     log_line_number := log_line_number b; log_my_pid := log_my_pid b;
     prev_emit_log_hook := prev_emit_log_hook b |}.

Definition set_formatted_start_time (b : Backend) (s : string) : Backend :=
  {| file_handler := file_handler b; filename_in_use := filename_in_use b;
     formatted_start_time := s;
     formatted_log_time := formatted_log_time b;
     log_line_number := log_line_number b; log_my_pid := log_my_pid b;
     prev_emit_log_hook := prev_emit_log_hook b |}.

Definition set_formatted_log_time (b : Backend) (s : string) : Backend :=
  {| file_handler := file_handler b; filename_in_use := filename_in_use b;
     formatted_start_time := formatted_start_time b;
     formatted_log_time := s;
     log_line_number := log_line_number b; log_my_pid := log_my_pid b;
     prev_emit_log_hook := prev_emit_log_hook b |}.

Definition set_log_line_number (b : Backend) (n : Z) : Backend :=
  {| file_handler := file_handler b; filename_in_use := filename_in_use b;
     formatted_start_time := formatted_start_time b;
     formatted_log_time := formatted_log_time b;
     log_line_number := n; log_my_pid := log_my_pid b;
     prev_emit_log_hook := prev_emit_log_hook b |}.

Definition set_log_my_pid (b : Backend) (p : Z) : Backend :=
  {| file_handler := file_handler b; filename_in_use := filename_in_use b;
     formatted_start_time := formatted_start_time b;
     formatted_log_time := formatted_log_time b;
     log_line_number := log_line_number b; log_my_pid := p;
     prev_emit_log_hook := prev_emit_log_hook b |}.

(** ** The monad of the C code: a state over [World], [None] when the
    process faults (a NULL dereference, a division by zero). *)

Definition M (A : Type) : Type := World -> option (A * World).

Definition ret {A} (a : A) : M A := fun w => Some (a, w).

Definition bind {A B} (m : M A) (k : A -> M B) : M B :=
  fun w => match m w with
           | None => None
           | Some (a, w') => k a w'
           end.

Definition fault {A} : M A := fun _ => None.

Definition gets {A} (f : World -> A) : M A := fun w => Some (f w, w).

Definition modify (f : World -> World) : M unit := fun w => Some (tt, f w).

Declare Scope c_scope.
Delimit Scope c_scope with C.
Notation "x <- m ;; k" := (bind m (fun x => k))
  (at level 61, m at next level, right associativity) : c_scope.
Notation "m ;; k" := (bind m (fun _ => k))
  (at level 61, right associativity) : c_scope.
Local Open Scope c_scope.

Definition emit (e : Event) : M unit :=
  modify (fun w => with_trace w (trace w ++ [e])).

(* pgaudit_log_shm->... *)
Definition shm_get : M pgAuditLogToFileShm :=
  fun w => match pgaudit_log_shm w with
           | None => None
           | Some s => Some (s, w)
           end.

Definition shm_set (f : pgAuditLogToFileShm -> pgAuditLogToFileShm) : M unit :=
  fun w => match pgaudit_log_shm w with
           | None => None
           | Some s => Some (tt, with_shm w (Some (f s)))
           end.

Definition backend_set (f : Backend -> Backend) : M unit :=
  modify (fun w => with_backend w (f (backend w))).

Definition LWLockAcquire (m : LWLockMode) : M unit := emit (EvLWLockAcquire m).
Definition LWLockRelease : M unit := emit EvLWLockRelease.
(* ereport: the report as this file raises it.  The host takes it from
   there and, before ereport returns, hands it to the emit_log hook, so a
   report raised inside the hook brings pgauditlogtofile_emit_log in again;
   the messages of this file are not audit lines, and that inner call only
   passes the report on to the previous hook.  The event stands for the
   report with its delivery. *)
Definition ereport (l : Level) (msg : string) : M unit := emit (EvEreport l msg).

(* time(NULL) *)
Definition time : M Z :=
  fun w => Some (os_time (os w) (os_calls w), with_os_calls w (S (os_calls w))).

(* gettimeofday(&tv, NULL) *)
Definition gettimeofday : M (Z * Z) :=
  fun w => Some ((os_time (os w) (os_calls w), os_usec (os w) (os_calls w)),
                 with_os_calls w (S (os_calls w))).

Definition fopen_append (path : string) : M bool :=
  fun w =>
    let ok := os_fopen (os w) (os_calls w) path in
    Some (ok, with_trace (with_os_calls w (S (os_calls w)))
                         (trace w ++ [EvFopen path ok])).

(* fwrite(data, 1, len, f): the number of bytes that went out *)
Definition fwrite (data : string) (f : FILE) : M nat :=
  fun w =>
    let n := Nat.min (os_fwrite (os w) (os_calls w) (String.length data))
                     (String.length data) in
    Some (n, with_trace (with_os_calls w (S (os_calls w)))
                        (trace w ++ [EvFwrite (f_path f) data n])).

(** ** The GUC callbacks and the definition of the rotation age *)

(* the body shared by guc_assign_directory, guc_assign_filename and
   guc_assign_rotation_age *)
Definition guc_assign_force : M unit :=
  fun w =>
    match pgaudit_log_shm w with
    | None => ret tt w
    | Some s =>
      if negb (force_rotation s) then
        (LWLockAcquire LW_EXCLUSIVE ;;
         shm_set (fun s => set_force_rotation s true) ;;
         LWLockRelease) w
      else ret tt w
    end.

Definition guc_assign_directory (newval : string) : M unit := guc_assign_force.
Definition guc_assign_filename (newval : string) : M unit := guc_assign_force.
Definition guc_assign_rotation_age (newval : Z) : M unit := guc_assign_force.

(* the arguments of DefineCustomIntVariable that bound the value *)
Record config_int := mkConfigInt {
  ci_name : string;
  ci_boot : Z;
  ci_min : Z;
  ci_max : Z
}.

(* _PG_init: "pgaudit.log_rotation_age" *)
Definition pgaudit_log_rotation_age_def : config_int :=
  {| ci_name := "pgaudit.log_rotation_age";
     ci_boot := HOURS_PER_DAY * MINS_PER_HOUR;
     ci_min := 0;
     ci_max := Z.quot INT_MAX SECS_PER_MINUTE |}.

(* a value the GUC machinery lets through *)
Definition guc_admits (d : config_int) (v : Z) : Prop := ci_min d <= v <= ci_max d.

(** ** Rotation *)

(** The arithmetic of [pgauditlogtofile_calculate_next_rotation_time] on the
    clock reading [now] and the offset [gmtoff] of the log timezone at that
    instant; [None] is the division by zero of [now % rotinterval].
    ([rotinterval] is a multiple of 4 modulo 2^32, so it is never -1 and the
    remainder has no other trap.) *)
Definition next_rotation_time_at (rotation_age now gmtoff : Z) : option Z :=
  let rotinterval := wrap_int (rotation_age * SECS_PER_MINUTE) in
  let now := wrap_time (now + gmtoff) in
  if rotinterval =? 0 then None
  else
    let now := wrap_time (now - Z.rem now rotinterval) in
    let now := wrap_time (now + rotinterval) in
    let now := wrap_time (now - gmtoff) in
    Some now.

Definition pgauditlogtofile_calculate_next_rotation_time : M Z :=
  now <- time ;;
  h <- gets host ;;
  g <- gets guc ;;
  match next_rotation_time_at (guc_pgaudit_log_rotation_age g) now
                              (tm_gmtoff h now) with
  | None => fault
  | Some t => ret t
  end.

(* SHMEM startup hook; [found] is what ShmemInitStruct reports (the
   structure of an earlier attach, or none: fresh shared memory is zeroed).
   The previous startup hook and AddinShmemInitLock belong to the host and
   leave no trace here. *)
Definition pgauditlogtofile_shmem_startup
    (found : option pgAuditLogToFileShm) : M unit :=
  modify (fun w => with_shm w None) ;;
  match found with
  | Some s => modify (fun w => with_shm w (Some s))
  | None =>
    modify (fun w => with_shm w (Some {| shm_filename := "";
                                         force_rotation := true;
                                         next_rotation_time := 0 |})) ;;
    t <- pgauditlogtofile_calculate_next_rotation_time ;;
    shm_set (fun s => set_next_rotation_time s t) ;;
    ereport LOG "pgauditlogtofile extension initialized"
  end.

Definition pgauditlogtofile_is_enabled : M bool :=
  fun w =>
    match pgaudit_log_shm w, guc_pgaudit_log_directory (guc w),
          guc_pgaudit_log_filename (guc w) with
    | Some _, Some d, Some f =>
      ret (negb ((strlen d =? 0)%nat || (strlen f =? 0)%nat)) w
    | _, _, _ => ret false w
    end.

Definition pgauditlogtofile_close_file : M unit :=
  be <- gets backend ;;
  match file_handler be with
  | Some f =>
    emit (EvFclose (f_path f)) ;;
    backend_set (fun b => set_file_handler b None)
  | None => ret tt
  end.

Definition pgauditlogtofile_is_open_file : M bool :=
  be <- gets backend ;;
  match file_handler be with
  | Some _ => ret true
  | None => ret false
  end.

Definition pgauditlogtofile_needs_rotate_file : M bool :=
  shm <- shm_get ;;
  if force_rotation shm then
    LWLockAcquire LW_EXCLUSIVE ;;
    shm_set (fun s => set_force_rotation s false) ;;
    LWLockRelease ;;
    ret true
  else
    be <- gets backend ;;
    h <- gets host ;;
    if negb (pg_strcasecmp (locale h) (filename_in_use be) (shm_filename shm) =? 0)
    then ret true
    else
      now <- time ;;
      if now >=? next_rotation_time shm then
        LWLockAcquire LW_EXCLUSIVE ;;
        t <- pgauditlogtofile_calculate_next_rotation_time ;;
        shm_set (fun s => set_next_rotation_time s t) ;;
        LWLockRelease ;;
        ret true
      else ret false.

Definition S_IWUSR : Z := 128.
Definition S_IRWXU : Z := 448.
Definition S_IRWXG : Z := 56.
Definition S_IRWXO : Z := 7.

Definition quoted (s : string) : string :=
  (String dquote s ++ String dquote "")%string.

Definition pgauditlogtofile_open_file : M bool :=
  g <- gets guc ;;
  h <- gets host ;;
  emit (EvMakePGDirectory (guc_pgaudit_log_directory g)) ;;
  LWLockAcquire LW_SHARED ;;
  emit (EvUmask (Z.land (Z.lnot (Z.lor (Log_file_mode h) S_IWUSR))
                        (Z.lor (Z.lor S_IRWXU S_IRWXG) S_IRWXO))) ;;
  shm <- shm_get ;;
  opened <- fopen_append (shm_filename shm) ;;
  emit EvUmaskRestore ;;
  (if opened then
     backend_set (fun b => set_file_handler b (Some (mkFILE (shm_filename shm)))) ;;
     emit (EvSetvbuf 8192) ;;
     backend_set (fun b => set_filename_in_use b (shm_filename shm))
   else
     backend_set (fun b => set_file_handler b None) ;;
     ereport WARNING ("could not open log file " ++ quoted (shm_filename shm)
                      ++ ": %m")) ;;
  LWLockRelease ;;
  ret opened.

(* pg_time_t current_rotation_time = next_rotation_time - age * SECS_PER_MINUTE *)
Definition current_rotation_time (g : Guc) (next : Z) : Z :=
  wrap_time (next - wrap_int (guc_pgaudit_log_rotation_age g * SECS_PER_MINUTE)).

(* what snprintf writes for "%s": the text, or "(null)" for a NULL pointer *)
Definition fmt_s (s : option string) : string :=
  match s with
  | Some text => text
  | None => "(null)"
  end.

(* the text left in pgaudit_log_shm->filename by memset, snprintf and
   pg_strftime; [None] when the pattern is NULL, which pg_strftime reads as
   its format *)
Definition audit_filename (h : Host) (g : Guc) (t : Z) : option string :=
  (* snprintf(filename, MAXPGPATH, "%s/", dir) *)
  let prefix :=
    substring 0 (MAXPGPATH - 1) (fmt_s (guc_pgaudit_log_directory g) ++ "/") in
  let len := strlen prefix in
  match guc_pgaudit_log_filename g with
  | Some pattern =>
    Some (prefix ++ pg_strftime h (MAXPGPATH - len) pattern t)%string
  | None => None
  end.

Definition pgauditlogtofile_calculate_filename : M unit :=
  shm <- shm_get ;;
  g <- gets guc ;;
  h <- gets host ;;
  let t := current_rotation_time g (next_rotation_time shm) in
  LWLockAcquire LW_EXCLUSIVE ;;
  match audit_filename h g t with
  | Some name =>
    shm_set (fun s => set_shm_filename s name) ;;
    LWLockRelease
  | None => fault
  end.

(** ** The formatter *)

(* strncpy(dst + off, src, n) into text that is at least off + n long *)
Definition strncpy_at (dst : string) (off : nat) (src : string) (n : nat) : string :=
  (substring 0 off dst ++ substring 0 n src
   ++ substring (off + n) (String.length dst - (off + n)) dst)%string.

Definition pgauditlogtofile_format_start_time : M unit :=
  h <- gets host ;;
  let stamp_time := MyStartTime h in
  backend_set (fun b => set_formatted_start_time b
    (pg_strftime h FORMATTED_TS_LEN "%Y-%m-%d %H:%M:%S %Z" stamp_time)).

Definition pgauditlogtofile_format_log_time : M unit :=
  tv <- gettimeofday ;;
  h <- gets host ;;
  let stamp_time := fst tv in
  let s := pg_strftime h FORMATTED_TS_LEN "%Y-%m-%d %H:%M:%S     %Z" stamp_time in
  let msbuf := ("." ++ fmt_03d (wrap_int (Z.quot (snd tv) 1000)))%string in
  backend_set (fun b => set_formatted_log_time b (strncpy_at s 19 msbuf 4)).

(** The blocks of [pgauditlogtofile_format_audit_line] that append one field
    under a condition, each under the comment it carries in the C text. *)

(* username *)
Definition put_user_name (h : Host) (buf : StringInfo) : StringInfo :=
  match MyProcPort h with
  | Some port => pgauditlogtofile_append_csv_literal buf (user_name port)
  | None => buf
  end.

(* database name *)
Definition put_database_name (h : Host) (buf : StringInfo) : StringInfo :=
  match MyProcPort h with
  | Some port => pgauditlogtofile_append_csv_literal buf (database_name port)
  | None => buf
  end.

(* Process id *)
Definition put_process_id (h : Host) (buf : StringInfo) : StringInfo :=
  if negb (MyProcPid h =? 0)
  then appendStringInfoString buf (fmt_d (MyProcPid h))
  else buf.

(* Remote host and port *)
Definition put_remote_host (h : Host) (buf : StringInfo) : StringInfo :=
  match MyProcPort h with
  | Some port =>
    match remote_host port with
    | Some rh =>
      let buf := appendStringInfoChar buf dquote in
      let buf := appendStringInfoString buf rh in
      let buf := match remote_port port with
                 | Some rp =>
                   if negb (deref rp =? 0) then
                     appendStringInfoString (appendStringInfoChar buf ":"%char) rp
                   else buf
                 | None => buf
                 end in
      appendStringInfoChar buf dquote
    | None => buf
    end
  | None => buf
  end.

(* session id *)
Definition put_session_id (h : Host) (buf : StringInfo) : StringInfo :=
  appendStringInfoString buf
    (fmt_lx (wrap_long (MyStartTime h)) ++ "." ++ fmt_x (MyProcPid h)).

(* Line number *)
Definition put_line_number (be : Backend) (buf : StringInfo) : StringInfo :=
  appendStringInfoString buf (fmt_d (log_line_number be)).

(* PS display *)
Definition put_ps_display (h : Host) (buf : StringInfo) : StringInfo :=
  match MyProcPort h with
  | Some _ =>
    let msgbuf := appendStringInfoString initStringInfo (ps_display h) in
    pgauditlogtofile_append_csv_literal buf (Some msgbuf)
  | None => buf
  end.

(* Virtual transaction id *)
Definition put_vxid (h : Host) (buf : StringInfo) : StringInfo :=
  match MyProc h with
  | Some proc =>
    if negb (backendId proc =? InvalidBackendId) then
      appendStringInfoString buf (fmt_d (backendId proc) ++ "/" ++ fmt_u (lxid proc))
    else buf
  | None => buf
  end.

(* errdetail or errdetail_log *)
Definition put_detail (edata : ErrorData) (buf : StringInfo) : StringInfo :=
  match detail_log edata with
  | Some d => pgauditlogtofile_append_csv_literal buf (Some d)
  | None => pgauditlogtofile_append_csv_literal buf (detail edata)
  end.

(* if printed internal query, print internal pos too *)
Definition put_internalpos (edata : ErrorData) (buf : StringInfo) : StringInfo :=
  if (internalpos edata >? 0)
     && (match internalquery edata with Some _ => true | None => false end)
  then appendStringInfoString buf (fmt_d (internalpos edata))
  else buf.

(* user query --- only reported if not disabled by the caller *)
Definition print_stmt (h : Host) (edata : ErrorData) : bool :=
  (match debug_query_string h with Some _ => true | None => false end)
  && negb (hide_stmt edata).

Definition put_statement (h : Host) (edata : ErrorData) (buf : StringInfo)
    : StringInfo :=
  if print_stmt h edata
  then pgauditlogtofile_append_csv_literal buf (debug_query_string h)
  else buf.

Definition put_cursorpos (h : Host) (edata : ErrorData) (buf : StringInfo)
    : StringInfo :=
  if print_stmt h edata && (cursorpos edata >? 0)
  then appendStringInfoString buf (fmt_d (cursorpos edata))
  else buf.

(* file error location: the text collected in msgbuf *)
Definition error_location (edata : ErrorData) : StringInfo :=
  let msgbuf := initStringInfo in
  match ed_funcname edata, ed_filename edata with
  | Some fn, Some file =>
    appendStringInfoString msgbuf
      (fn ++ ", " ++ file ++ ":" ++ fmt_d (ed_lineno edata))
  | None, Some file =>
    appendStringInfoString msgbuf (file ++ ":" ++ fmt_d (ed_lineno edata))
  | _, None => msgbuf
  end.

(* file error location *)
Definition put_error_location (h : Host) (edata : ErrorData) (buf : StringInfo)
    : StringInfo :=
  if verbosity_rank (Log_error_verbosity h) >=? verbosity_rank PGERROR_VERBOSE
  then pgauditlogtofile_append_csv_literal buf (Some (error_location edata))
  else buf.

(* application name *)
Definition put_application_name (h : Host) (buf : StringInfo) : StringInfo :=
  match application_name h with
  | Some a => pgauditlogtofile_append_csv_literal buf (Some a)
  | None => buf
  end.

Definition pgauditlogtofile_format_audit_line
    (buf : StringInfo) (edata : ErrorData) : M StringInfo :=
  h <- gets host ;;
  be <- gets backend ;;
  (if negb (log_my_pid be =? MyProcPid h) then
     backend_set (fun b => set_log_line_number b 0) ;;
     backend_set (fun b => set_log_my_pid b (MyProcPid h)) ;;
     backend_set (fun b => set_formatted_start_time b "")
   else ret tt) ;;
  backend_set (fun b => set_log_line_number b (wrap_long (log_line_number b + 1))) ;;
  (* timestamp with milliseconds *)
  pgauditlogtofile_format_log_time ;;
  be <- gets backend ;;
  let buf := appendStringInfoString buf (formatted_log_time be) in
  let buf := appendStringInfoChar buf comma in
  let buf := put_user_name h buf in
  let buf := appendStringInfoChar buf comma in
  let buf := put_database_name h buf in
  let buf := appendStringInfoChar buf comma in
  let buf := put_process_id h buf in
  let buf := appendStringInfoChar buf comma in
  let buf := put_remote_host h buf in
  let buf := appendStringInfoChar buf comma in
  let buf := put_session_id h buf in
  let buf := appendStringInfoChar buf comma in
  let buf := put_line_number be buf in
  let buf := appendStringInfoChar buf comma in
  let buf := put_ps_display h buf in
  let buf := appendStringInfoChar buf comma in
  (* session start timestamp *)
  (if deref (formatted_start_time be) =? 0
   then pgauditlogtofile_format_start_time
   else ret tt) ;;
  be <- gets backend ;;
  let buf := appendStringInfoString buf (formatted_start_time be) in
  let buf := appendStringInfoChar buf comma in
  let buf := put_vxid h buf in
  let buf := appendStringInfoChar buf comma in
  (* Transaction id *)
  let buf := appendStringInfoString buf (fmt_u (TopTransactionId h)) in
  let buf := appendStringInfoChar buf comma in
  (* SQL state code *)
  let buf := appendStringInfoString buf (unpack_sql_state h (sqlerrcode edata)) in
  let buf := appendStringInfoChar buf comma in
  (* errmessage *)
  let buf := pgauditlogtofile_append_csv_literal buf (message edata) in
  let buf := appendStringInfoChar buf comma in
  let buf := put_detail edata buf in
  let buf := appendStringInfoChar buf comma in
  (* errhint *)
  let buf := pgauditlogtofile_append_csv_literal buf (hint edata) in
  let buf := appendStringInfoChar buf comma in
  (* internal query *)
  let buf := pgauditlogtofile_append_csv_literal buf (internalquery edata) in
  let buf := appendStringInfoChar buf comma in
  let buf := put_internalpos edata buf in
  let buf := appendStringInfoChar buf comma in
  (* errcontext *)
  let buf := pgauditlogtofile_append_csv_literal buf (context edata) in
  let buf := appendStringInfoChar buf comma in
  let buf := put_statement h edata buf in
  let buf := appendStringInfoChar buf comma in
  let buf := put_cursorpos h edata buf in
  let buf := appendStringInfoChar buf comma in
  let buf := put_error_location h edata buf in
  let buf := appendStringInfoChar buf comma in
  let buf := put_application_name h buf in
  let buf := appendStringInfoChar buf newline in
  ret buf.

(** ** Writing and dispatching *)

Definition pgauditlogtofile_write_audit (edata : ErrorData) : M bool :=
  let buf := initStringInfo in
  (* format the log line *)
  buf <- pgauditlogtofile_format_audit_line buf edata ;;
  be <- gets backend ;;
  match file_handler be with
  | None => fault
  | Some f =>
    emit (EvFseekEnd (f_path f)) ;;
    rc <- fwrite buf f ;;
    (* If we failed to write the audit to our audit log, use PostgreSQL logger *)
    (if negb (rc =? String.length buf)%nat then
       shm <- shm_get ;;
       ereport WARNING ("could not write audit log file "
                        ++ quoted (shm_filename shm) ++ ": %m")
     else ret tt) ;;
    ret (rc =? String.length buf)%nat
  end.

Definition pgauditlogtofile_record_audit (edata : ErrorData) : M bool :=
  rotate <- pgauditlogtofile_needs_rotate_file ;;
  (if rotate then
     (* calculate_filename will generate a new global file *)
     pgauditlogtofile_calculate_filename ;;
     pgauditlogtofile_close_file
   else ret tt) ;;
  is_open <- pgauditlogtofile_is_open_file ;;
  if negb is_open then
    opened <- pgauditlogtofile_open_file ;;
    if negb opened then
      (* ERROR: unable to open file *)
      ret false
    else pgauditlogtofile_write_audit edata
  else pgauditlogtofile_write_audit edata.

Definition call_prev_emit_log_hook (edata : ErrorData) : M unit :=
  be <- gets backend ;;
  if prev_emit_log_hook be then emit (EvPrevHook edata) else ret tt.

(** The hook; it returns the [ErrorData] as the caller finds it afterwards. *)
Definition pgauditlogtofile_emit_log (edata : ErrorData) : M ErrorData :=
  h <- gets host ;;
  match message edata with
  | None => fault
  | Some msg =>
    (* If it's not a pgaudit log line we will skip it *)
    if negb (pg_strncasecmp (locale h) msg PGAUDIT_PREFIX_LINE
                            (strlen PGAUDIT_PREFIX_LINE) =? 0) then
      call_prev_emit_log_hook edata ;;
      ret edata
    else
      enabled <- pgauditlogtofile_is_enabled ;;
      if negb enabled then
        (* pgauditlogtofile is not enabled, fallback to default log hook *)
        call_prev_emit_log_hook edata ;;
        ret edata
      else
        recorded <- pgauditlogtofile_record_audit edata ;;
        if recorded then
          (* Inhibit logging in server log *)
          ret (set_output_to_server edata false)
        else
          (* We couldn't record the audit in logfile, fallback to default log *)
          call_prev_emit_log_hook edata ;;
          ret edata
  end.

(** ** Two backends on one shared structure

    The rotation part of [pgauditlogtofile_record_audit] cut at every access
    to shared memory and at every lock operation, so that two backends can
    be interleaved.  The clock stands still during the race: both backends
    read the same instant [c_now]. *)

Module Race.

Inductive Pid := PA | PB.

Definition Pid_eqb (p q : Pid) : bool :=
  match p, q with
  | PA, PA | PB, PB => true
  | _, _ => false
  end.

(* program points, in the order of the C text *)
Inductive PC :=
| N_force                 (* if (pgaudit_log_shm->force_rotation) *)
| N_force_acquire
| N_force_clear
| N_force_release
| N_name                  (* if (pg_strcasecmp(filename_in_use, ...) != 0) *)
| N_time                  (* if (time(NULL) >= ...->next_rotation_time) *)
| N_time_acquire
| N_time_store            (* ...->next_rotation_time = calculate...() *)
| N_time_release
| R_return (b : bool)     (* needs_rotate_file returns b *)
| F_read                  (* current_rotation_time = ...->next_rotation_time - ... *)
| F_acquire (t : Z)
| F_write (t : Z)         (* memset, snprintf, pg_strftime *)
| F_release
| C_close
| O_acquire
| O_fopen
| O_release (opened : bool)
| W_write                 (* pgauditlogtofile_write_audit *)
| Done (ok : bool).

Record Proc := mkProc {
  pc : PC;
  p_filename_in_use : string;
  p_file_handler : option FILE;
  p_rotate : option bool;     (* what needs_rotate_file returned *)
  p_wrote : option string     (* the path the record was written to *)
}.

Record LWLock := mkLWLock {
  exclusive : option Pid;
  shared : list Pid
}.

Record Global := mkGlobal {
  g_shm : pgAuditLogToFileShm;
  g_lock : LWLock;
  g_stored : list Pid;    (* who stored next_rotation_time, oldest first *)
  g_A : Proc;
  g_B : Proc
}.

Record Config := mkConfig {
  c_host : Host;
  c_guc : Guc;
  c_now : Z;
  c_fopen : string -> bool
}.

Definition proc (G : Global) (p : Pid) : Proc :=
  match p with PA => g_A G | PB => g_B G end.

Definition set_proc (G : Global) (p : Pid) (P : Proc) : Global :=
  match p with
  | PA => {| g_shm := g_shm G; g_lock := g_lock G; g_stored := g_stored G;
             g_A := P; g_B := g_B G |}
  | PB => {| g_shm := g_shm G; g_lock := g_lock G; g_stored := g_stored G;
             g_A := g_A G; g_B := P |}
  end.

Definition set_shm (G : Global) (s : pgAuditLogToFileShm) : Global :=
  {| g_shm := s; g_lock := g_lock G; g_stored := g_stored G;
     g_A := g_A G; g_B := g_B G |}.

Definition set_lock (G : Global) (l : LWLock) : Global :=
  {| g_shm := g_shm G; g_lock := l; g_stored := g_stored G;
     g_A := g_A G; g_B := g_B G |}.

Definition log_store (G : Global) (p : Pid) : Global :=
  {| g_shm := g_shm G; g_lock := g_lock G; g_stored := g_stored G ++ [p];
     g_A := g_A G; g_B := g_B G |}.

Definition set_pc (P : Proc) (c : PC) : Proc :=
  {| pc := c; p_filename_in_use := p_filename_in_use P;
     p_file_handler := p_file_handler P; p_rotate := p_rotate P;
     p_wrote := p_wrote P |}.

Definition goto (G : Global) (p : Pid) (c : PC) : Global :=
  set_proc G p (set_pc (proc G p) c).

(* LWLockAcquire: [None] while the lock cannot be granted *)
Definition acquire (m : LWLockMode) (p : Pid) (l : LWLock) : option LWLock :=
  match m, exclusive l, shared l with
  | LW_EXCLUSIVE, None, [] => Some {| exclusive := Some p; shared := [] |}
  | LW_SHARED, None, sh => Some {| exclusive := None; shared := p :: sh |}
  | _, _, _ => None
  end.

Definition release (p : Pid) (l : LWLock) : LWLock :=
  {| exclusive := match exclusive l with
                  | Some q => if Pid_eqb p q then None else Some q
                  | None => None
                  end;
     shared := filter (fun q => negb (Pid_eqb p q)) (shared l) |}.

Inductive Outcome :=
| Stepped (G : Global)
| Blocked                 (* waiting for the lock *)
| Crashed                 (* division by zero, NULL dereference *)
| Finished.

Definition locked (m : LWLockMode) (G : Global) (p : Pid) (next : PC) : Outcome :=
  match acquire m p (g_lock G) with
  | Some l => Stepped (goto (set_lock G l) p next)
  | None => Blocked
  end.

Definition unlocked (G : Global) (p : Pid) (next : PC) : Outcome :=
  Stepped (goto (set_lock G (release p (g_lock G))) p next).

Definition step (c : Config) (p : Pid) (G : Global) : Outcome :=
  let P := proc G p in
  let s := g_shm G in
  match pc P with
  | N_force =>
    Stepped (goto G p (if force_rotation s then N_force_acquire else N_name))
  | N_force_acquire => locked LW_EXCLUSIVE G p N_force_clear
  | N_force_clear =>
    Stepped (goto (set_shm G (set_force_rotation s false)) p N_force_release)
  | N_force_release => unlocked G p (R_return true)
  | N_name =>
    if negb (pg_strcasecmp (locale (c_host c)) (p_filename_in_use P)
                           (shm_filename s) =? 0)
    then Stepped (goto G p (R_return true))
    else Stepped (goto G p N_time)
  | N_time =>
    if c_now c >=? next_rotation_time s
    then Stepped (goto G p N_time_acquire)
    else Stepped (goto G p (R_return false))
  | N_time_acquire => locked LW_EXCLUSIVE G p N_time_store
  | N_time_store =>
    match next_rotation_time_at (guc_pgaudit_log_rotation_age (c_guc c))
                                (c_now c) (tm_gmtoff (c_host c) (c_now c)) with
    | Some t =>
      Stepped (goto (log_store (set_shm G (set_next_rotation_time s t)) p)
                    p N_time_release)
    | None => Crashed
    end
  | N_time_release => unlocked G p (R_return true)
  | R_return b =>
    let P' := {| pc := if b then F_read
                       else match p_file_handler P with
                            | Some _ => W_write
                            | None => O_acquire
                            end;
                 p_filename_in_use := p_filename_in_use P;
                 p_file_handler := p_file_handler P;
                 p_rotate := Some b; p_wrote := p_wrote P |} in
    Stepped (set_proc G p P')
  | F_read =>
    Stepped (goto G p (F_acquire (current_rotation_time (c_guc c)
                                                        (next_rotation_time s))))
  | F_acquire t => locked LW_EXCLUSIVE G p (F_write t)
  | F_write t =>
    match audit_filename (c_host c) (c_guc c) t with
    | Some name => Stepped (goto (set_shm G (set_shm_filename s name)) p F_release)
    | None => Crashed
    end
  | F_release => unlocked G p C_close
  | C_close =>
    Stepped (set_proc G p {| pc := O_acquire;
                             p_filename_in_use := p_filename_in_use P;
                             p_file_handler := None;
                             p_rotate := p_rotate P; p_wrote := p_wrote P |})
  | O_acquire => locked LW_SHARED G p O_fopen
  | O_fopen =>
    let opened := c_fopen c (shm_filename s) in
    Stepped (set_proc G p
      {| pc := O_release opened;
         p_filename_in_use :=
           if opened then shm_filename s else p_filename_in_use P;
         p_file_handler :=
           if opened then Some (mkFILE (shm_filename s)) else None;
         p_rotate := p_rotate P; p_wrote := p_wrote P |})
  | O_release opened => unlocked G p (if opened then W_write else Done false)
  | W_write =>
    match p_file_handler P with
    | Some f =>
      Stepped (set_proc G p {| pc := Done true;
                               p_filename_in_use := p_filename_in_use P;
                               p_file_handler := p_file_handler P;
                               p_rotate := p_rotate P;
                               p_wrote := Some (f_path f) |})
    | None => Crashed
    end
  | Done _ => Finished
  end.

(* a schedule names the backend that is given the processor next; a
   backend that cannot move leaves the state as it is *)
Fixpoint run (c : Config) (sched : list Pid) (G : Global) : Global :=
  match sched with
  | [] => G
  | p :: rest =>
    match step c p G with
    | Stepped G' => run c rest G'
    | _ => run c rest G
    end
  end.

Definition is_done (P : Proc) : bool :=
  match pc P with Done _ => true | _ => false end.

Definition all_done (G : Global) : bool := is_done (g_A G) && is_done (g_B G).

(* a backend that has just seen [time(NULL) >= next_rotation_time] *)
Definition observed_deadline (P : Proc) : Prop := pc P = N_time_acquire.

Definition lock_free (l : LWLock) : Prop := exclusive l = None /\ shared l = [].

(* both backends have seen the deadline passed, neither has the lock yet *)
Definition race_start (G : Global) : Prop :=
  observed_deadline (g_A G) /\ observed_deadline (g_B G)
  /\ lock_free (g_lock G) /\ g_stored G = [].

(** What holds of one backend during the race that starts when both have
    seen the deadline passed: [D] is the deadline computed at the instant of
    the race and [F] the filename of the period that ends at [D]. *)
Definition proc_ok (c : Config) (D : Z) (F : string)
    (s : pgAuditLogToFileShm) (stored : list Pid) (p : Pid) (P : Proc) : Prop :=
  match pc P with
  | N_time_acquire | N_time_store => ~ In p stored
  | N_time_release | R_return true =>
    In p stored /\ next_rotation_time s = D
  | F_read =>
    In p stored /\ next_rotation_time s = D /\ p_rotate P = Some true
  | F_acquire t | F_write t =>
    In p stored /\ next_rotation_time s = D /\ p_rotate P = Some true
    /\ t = current_rotation_time (c_guc c) D
  | F_release | C_close | O_acquire | O_fopen =>
    In p stored /\ next_rotation_time s = D /\ p_rotate P = Some true
    /\ shm_filename s = F
  | O_release opened =>
    In p stored /\ next_rotation_time s = D /\ p_rotate P = Some true
    /\ shm_filename s = F /\ opened = true
    /\ p_file_handler P = Some (mkFILE F) /\ p_filename_in_use P = F
  | W_write =>
    In p stored /\ next_rotation_time s = D /\ p_rotate P = Some true
    /\ shm_filename s = F
    /\ p_file_handler P = Some (mkFILE F) /\ p_filename_in_use P = F
  | Done ok =>
    In p stored /\ next_rotation_time s = D /\ p_rotate P = Some true
    /\ shm_filename s = F /\ ok = true
    /\ p_wrote P = Some F /\ p_filename_in_use P = F
  | _ => False
  end.

Definition race_inv (c : Config) (D : Z) (F : string) (G : Global) : Prop :=
  proc_ok c D F (g_shm G) (g_stored G) PA (g_A G)
  /\ proc_ok c D F (g_shm G) (g_stored G) PB (g_B G)
  /\ NoDup (g_stored G).

(* the lock mode a backend holds at a program point *)
Definition holds (P : Proc) : option LWLockMode :=
  match pc P with
  | N_force_clear | N_force_release | N_time_store | N_time_release
  | F_write _ | F_release => Some LW_EXCLUSIVE
  | O_fopen | O_release _ => Some LW_SHARED
  | _ => None
  end.

Definition holds_exclusive (P : Proc) : bool :=
  match holds P with Some LW_EXCLUSIVE => true | _ => false end.

Definition holds_shared (P : Proc) : bool :=
  match holds P with Some LW_SHARED => true | _ => false end.

(* the lock records exactly what the backends hold, and a backend that
   holds it in exclusive mode is alone *)
Definition lock_inv (G : Global) : Prop :=
  (forall p, exclusive (g_lock G) = Some p <-> holds_exclusive (proc G p) = true)
  /\ (forall p, In p (shared (g_lock G)) <-> holds_shared (proc G p) = true)
  /\ (forall p q, holds_exclusive (proc G p) = true -> p <> q ->
                  holds (proc G q) = None).

(* the steps a backend has left, for termination *)
Definition steps_left (P : Proc) : nat :=
  match pc P with
  | N_force => 19
  | N_force_acquire => 18
  | N_force_clear => 17
  | N_force_release => 16
  | N_name => 15
  | N_time => 14
  | N_time_acquire => 13
  | N_time_store => 12
  | N_time_release => 11
  | R_return _ => 10
  | F_read => 9
  | F_acquire _ => 8
  | F_write _ => 7
  | F_release => 6
  | C_close => 5
  | O_acquire => 4
  | O_fopen => 3
  | O_release _ => 2
  | W_write => 1
  | Done _ => 0
  end.

End Race.

(** ** Views used to state the properties *)

(** Doubling of the double quotes of a text, written on its own. *)
Fixpoint double_quotes (s : string) : string :=
  match s with
  | EmptyString => EmptyString
  | String c r =>
    if Ascii.eqb c dquote
    then String dquote (String dquote (double_quotes r))
    else String c (double_quotes r)
  end.

(** What the formatter leaves in an empty buffer for one text field. *)
Definition csv_literal (data : option string) : string :=
  pgauditlogtofile_append_csv_literal initStringInfo data.

(** The test [if (log_my_pid != MyProcPid)] at the top of the formatter. *)
Definition pid_check (h : Host) (be : Backend) : Backend :=
  if negb (log_my_pid be =? MyProcPid h)
  then set_formatted_start_time
         (set_log_my_pid (set_log_line_number be 0) (MyProcPid h)) ""
  else be.

Definition log_time_text (h : Host) (tv : Z * Z) : string :=
  strncpy_at (pg_strftime h FORMATTED_TS_LEN "%Y-%m-%d %H:%M:%S     %Z" (fst tv))
             19 ("." ++ fmt_03d (wrap_int (Z.quot (snd tv) 1000))) 4.

Definition start_time_text (h : Host) : string :=
  pg_strftime h FORMATTED_TS_LEN "%Y-%m-%d %H:%M:%S %Z" (MyStartTime h).

(** The static variables as one call of the formatter leaves them: [tv] is
    the answer of gettimeofday. *)
Definition statics_after_format (h : Host) (tv : Z * Z) (be : Backend) : Backend :=
  let b := pid_check h be in
  let b := set_log_line_number b (wrap_long (log_line_number b + 1)) in
  let b := set_formatted_log_time b (log_time_text h tv) in
  if deref (formatted_start_time b) =? 0
  then set_formatted_start_time b (start_time_text h)
  else b.

(** The fields of one audit line, in the order of the file format; [be] are
    the statics once the call has updated them. *)
Definition audit_fields (h : Host) (be : Backend) (edata : ErrorData) : list string :=
  [ formatted_log_time be;
    put_user_name h "";
    put_database_name h "";
    put_process_id h "";
    put_remote_host h "";
    put_session_id h "";
    put_line_number be "";
    put_ps_display h "";
    formatted_start_time be;
    put_vxid h "";
    fmt_u (TopTransactionId h);
    unpack_sql_state h (sqlerrcode edata);
    csv_literal (message edata);
    put_detail edata "";
    csv_literal (hint edata);
    csv_literal (internalquery edata);
    put_internalpos edata "";
    csv_literal (context edata);
    put_statement h edata "";
    put_cursorpos h edata "";
    put_error_location h edata "";
    put_application_name h "" ].

(* what a block of the formatter leaves in an empty buffer *)
Definition field_of (f : StringInfo -> StringInfo) : string := f initStringInfo.

Fixpoint csv_join (fields : list string) : string :=
  match fields with
  | [] => ""
  | [f] => f
  | f :: rest => f ++ String comma (csv_join rest)
  end.

Definition csv_line (fields : list string) : string :=
  (csv_join fields ++ String newline "")%string.

(* positions in [audit_fields] *)
Definition LINE_NUMBER_FIELD : nat := 6.
Definition SESSION_START_FIELD : nat := 8.
Definition SOURCE_LOCATION_FIELD : nat := 20.

Definition gettimeofday_at (w : World) : Z * Z :=
  (os_time (os w) (os_calls w), os_usec (os w) (os_calls w)).

(** The world one call of the formatter leaves behind. *)
Definition world_after_format (w : World) : World :=
  with_backend (with_os_calls w (S (os_calls w)))
               (statics_after_format (host w) (gettimeofday_at w) (backend w)).

(** The line numbers carried by [n] records formatted one after the other. *)
Fixpoint line_numbers (n : nat) (w : World) : list Z :=
  match n with
  | O => []
  | S n' =>
    let w' := world_after_format w in
    log_line_number (backend w') :: line_numbers n' w'
  end.

(** The readings of one call of [pgauditlogtofile_needs_rotate_file]. *)
Definition names_differ (w : World) (shm : pgAuditLogToFileShm) : bool :=
  negb (pg_strcasecmp (locale (host w)) (filename_in_use (backend w))
                      (shm_filename shm) =? 0).

Definition clock_now (w : World) : Z := os_time (os w) (os_calls w).

Definition deadline_passed (w : World) (shm : pgAuditLogToFileShm) : bool :=
  clock_now w >=? next_rotation_time shm.

Definition lock_unlock : list Event :=
  [EvLWLockAcquire LW_EXCLUSIVE; EvLWLockRelease].

(** The records of a list formatted one after the other, as a backend does
    over its life. *)
Fixpoint format_records (es : list ErrorData) : M (list StringInfo) :=
  match es with
  | [] => ret []
  | e :: rest =>
    line <- pgauditlogtofile_format_audit_line initStringInfo e ;;
    lines <- format_records rest ;;
    ret (line :: lines)
  end.

(** The line one call of the formatter produces in world [w]. *)
Definition audit_line (w : World) (edata : ErrorData) : string :=
  csv_line (audit_fields (host w) (backend (world_after_format w)) edata).

(* the counter the increment starts from: the cached one, or 0 when the
   process identity has changed *)
Definition counter_base (w : World) : Z :=
  if log_my_pid (backend w) =? MyProcPid (host w)
  then log_line_number (backend w)
  else 0.

Fixpoint lines_from (es : list ErrorData) (w : World) : list string :=
  match es with
  | [] => []
  | e :: rest => audit_line w e :: lines_from rest (world_after_format w)
  end.

(** [pgauditlogtofile_record_audit] up to the call of
    [pgauditlogtofile_write_audit]: whether a file is open for the write. *)
Definition prepare_file : M bool :=
  rotate <- pgauditlogtofile_needs_rotate_file ;;
  (if rotate then
     pgauditlogtofile_calculate_filename ;;
     pgauditlogtofile_close_file
   else ret tt) ;;
  is_open <- pgauditlogtofile_is_open_file ;;
  if negb is_open then pgauditlogtofile_open_file else ret true.

(* the bytes fwrite reports for the line formatted in [w] *)
Definition bytes_written (w : World) (edata : ErrorData) : nat :=
  Nat.min (os_fwrite (os w) (S (os_calls w)) (String.length (audit_line w edata)))
          (String.length (audit_line w edata)).

Definition write_diagnostic (shm : pgAuditLogToFileShm) : Event :=
  EvEreport WARNING
    ("could not write audit log file " ++ quoted (shm_filename shm) ++ ": %m").

(* what pgauditlogtofile_write_audit adds to the trace *)
Definition write_events (w : World) (f : FILE) (shm : pgAuditLogToFileShm)
    (edata : ErrorData) : list Event :=
  [EvFseekEnd (f_path f);
   EvFwrite (f_path f) (audit_line w edata) (bytes_written w edata)]
  ++ (if (bytes_written w edata =? String.length (audit_line w edata))%nat
      then []
      else [write_diagnostic shm]).

Definition world_after_write (w : World) (f : FILE) (shm : pgAuditLogToFileShm)
    (edata : ErrorData) : World :=
  with_trace (with_os_calls (world_after_format w) (S (S (os_calls w))))
             (trace w ++ write_events w f shm edata).

(* the message carries the audit prefix *)
Definition is_audit_message (h : Host) (msg : string) : bool :=
  pg_strncasecmp (locale h) msg PGAUDIT_PREFIX_LINE (strlen PGAUDIT_PREFIX_LINE) =? 0.

(* the trace left by the call of the previous hook *)
Definition prev_hook_events (w : World) (edata : ErrorData) : list Event :=
  if prev_emit_log_hook (backend w) then [EvPrevHook edata] else [].

Definition two_dquotes : string := String dquote (String dquote "").

(** What the rotation and the opening of the file leave alone: the host,
    the configuration, the operating system and the statics of the
    formatter. *)
Definition formatter_untouched (w w1 : World) : Prop :=
  host w1 = host w /\ guc w1 = guc w /\ os w1 = os w
  /\ log_line_number (backend w1) = log_line_number (backend w)
  /\ log_my_pid (backend w1) = log_my_pid (backend w)
  /\ formatted_start_time (backend w1) = formatted_start_time (backend w)
  /\ prev_emit_log_hook (backend w1) = prev_emit_log_hook (backend w).

(** ** Concrete worlds

    A host, a configuration and an operating system on which the functions
    above can be evaluated. *)

Definition example_port : Port :=
  {| user_name := Some "alice"; database_name := Some "sales";
     remote_host := Some "10.0.0.7"; remote_port := Some "5432" |}.

Definition example_host : Host :=
  {| MyProcPid := 4242;
     MyProcPort := Some example_port;
     MyStartTime := 1704067000;
     MyProc := Some {| backendId := 3; lxid := 17 |};
     TopTransactionId := 0;
     ps_display := "idle";
     debug_query_string := Some "select 1";
     Log_error_verbosity := PGERROR_DEFAULT;
     Log_file_mode := 384;
     application_name := Some "psql";
     locale := C_locale;
     tm_gmtoff := fun _ => 0;
     (* the pattern followed by the instant it is expanded for *)
     pg_strftime := fun _ pattern t => (pattern ++ "." ++ fmt_d t)%string;
     unpack_sql_state := fun _ => "00000" |}.

Definition example_guc : Guc :=
  {| guc_pgaudit_log_directory := Some "log";
     guc_pgaudit_log_filename := Some "audit.log";
     guc_pgaudit_log_rotation_age := 60 |}.

(* a clock that shows [t] at every reading, a disk that takes everything *)
Definition example_os (t : Z) : OS :=
  {| os_time := fun _ => t; os_usec := fun _ => 0;
     os_fopen := fun _ _ => true; os_fwrite := fun _ n => n |}.

Definition example_world (t : Z) (shm : pgAuditLogToFileShm) (be : Backend) : World :=
  {| host := example_host; guc := example_guc; os := example_os t;
     os_calls := 0; pgaudit_log_shm := Some shm; backend := be; trace := [] |}.

(* the backend has its file open on a name that differs from the shared one
   in the case of letters only; no rotation is forced; the deadline (2000)
   is ahead of the clock (1000) *)
Definition case_only_world : World :=
  example_world 1000
    {| shm_filename := "log/audit.log"; force_rotation := false;
       next_rotation_time := 2000 |}
    (set_filename_in_use
       (set_file_handler Backend_init (Some (mkFILE "log/AUDIT.log")))
       "log/AUDIT.log").

(* a forced rotation is pending while the deadline (1000) has passed already
   on the clock (5000); the names agree *)
Definition force_and_deadline_world : World :=
  example_world 5000
    {| shm_filename := "log/audit.log"; force_rotation := true;
       next_rotation_time := 1000 |}
    (set_filename_in_use
       (set_file_handler Backend_init (Some (mkFILE "log/audit.log")))
       "log/audit.log").


Definition example_edata : ErrorData :=
  {| output_to_server := true; hide_stmt := false;
     ed_filename := None; ed_lineno := 0; ed_funcname := None;
     sqlerrcode := 0;
     message := Some "AUDIT: SESSION,1,1,READ,SELECT,,,select 1";
     detail := None; detail_log := None; hint := None; context := None;
     cursorpos := 0; internalpos := 0; internalquery := None |}.

(* the same host with log_error_verbosity = verbose *)
Definition verbose_host : Host :=
  {| MyProcPid := MyProcPid example_host;
     MyProcPort := MyProcPort example_host;
     MyStartTime := MyStartTime example_host;
     MyProc := MyProc example_host;
     TopTransactionId := TopTransactionId example_host;
     ps_display := ps_display example_host;
     debug_query_string := debug_query_string example_host;
     Log_error_verbosity := PGERROR_VERBOSE;
     Log_file_mode := Log_file_mode example_host;
     application_name := application_name example_host;
     locale := locale example_host;
     tm_gmtoff := tm_gmtoff example_host;
     pg_strftime := pg_strftime example_host;
     unpack_sql_state := unpack_sql_state example_host |}.

(* a backend just forked: the statics are those of the postmaster (pid 1) *)
Definition forked_world (h : Host) : World :=
  {| host := h; guc := example_guc; os := example_os 5000; os_calls := 0;
     pgaudit_log_shm := Some {| shm_filename := "log/audit.log";
                                force_rotation := false;
                                next_rotation_time := 7200 |};
     backend := set_log_my_pid (set_log_line_number Backend_init 57) 1;
     trace := [] |}.

(* a disk that loses the last byte of the first write (the third call to
   the operating system) and takes every later write whole *)
Definition short_os : OS :=
  {| os_time := fun _ => 5000; os_usec := fun _ => 0;
     os_fopen := fun _ _ => true;
     os_fwrite := fun k n => if (k <=? 2)%nat then Nat.pred n else n |}.

(* a disk on which no file can be opened *)
Definition closed_os : OS :=
  {| os_time := fun _ => 5000; os_usec := fun _ => 0;
     os_fopen := fun _ _ => false;
     os_fwrite := fun _ n => n |}.

Definition example_shm : pgAuditLogToFileShm :=
  {| shm_filename := "log/audit.log"; force_rotation := false;
     next_rotation_time := 7200 |}.

(* a backend in the middle of its life: file open on the shared name, 41
   lines formatted, a previous hook installed *)
Definition running_backend : Backend :=
  {| file_handler := Some (mkFILE "log/audit.log");
     filename_in_use := "log/audit.log";
     formatted_start_time := "2024-01-01 00:00:00 UTC";
     formatted_log_time := "";
     log_line_number := 41; log_my_pid := 4242;
     prev_emit_log_hook := true |}.

Definition short_write_world : World :=
  {| host := example_host; guc := example_guc; os := short_os; os_calls := 0;
     pgaudit_log_shm := Some example_shm; backend := running_backend;
     trace := [] |}.

(* the same backend before it has opened a file, on the disk that refuses *)
Definition open_failure_world : World :=
  {| host := example_host; guc := example_guc; os := closed_os; os_calls := 0;
     pgaudit_log_shm := Some example_shm;
     backend := set_file_handler running_backend None;
     trace := [] |}.

(* the world a call leaves behind ([w] itself if the process faulted) *)
Definition world_of {A} (r : option (A * World)) (w : World) : World :=
  match r with
  | Some (_, w') => w'
  | None => w
  end.

(* [short_write_world] after a first record, after the preparation for a
   second one, and after the second record *)
Definition short_write_world_1 : World :=
  world_of (pgauditlogtofile_record_audit example_edata short_write_world)
           short_write_world.

Definition short_write_world_2 : World :=
  world_of (prepare_file short_write_world_1) short_write_world_1.

Definition short_write_world_3 : World :=
  world_of (pgauditlogtofile_record_audit example_edata short_write_world_1)
           short_write_world_1.

(** Two backends at the top of the rotation check, their files open on the
    name of the period that has just ended. *)

Definition example_config : Race.Config :=
  {| Race.c_host := example_host; Race.c_guc := example_guc;
     Race.c_now := 5000; Race.c_fopen := fun _ => true |}.

Definition example_proc : Race.Proc :=
  {| Race.pc := Race.N_force;
     Race.p_filename_in_use := "log/audit.log.0";
     Race.p_file_handler := Some (mkFILE "log/audit.log.0");
     Race.p_rotate := None; Race.p_wrote := None |}.

Definition example_global : Race.Global :=
  {| Race.g_shm := {| shm_filename := "log/audit.log.0";
                      force_rotation := false;
                      next_rotation_time := 3600 |};
     Race.g_lock := {| Race.exclusive := None; Race.shared := [] |};
     Race.g_stored := [];
     Race.g_A := example_proc; Race.g_B := example_proc |}.

(* each backend runs the three tests, the second before the first has
   taken the lock *)
Definition observe_both : list Race.Pid :=
  [Race.PA; Race.PA; Race.PA; Race.PB; Race.PB; Race.PB].

(* the state in which both have seen the deadline passed *)
Definition race_start_global : Race.Global :=
  Race.run example_config observe_both example_global.

(* then the first backend runs to its end, and the second after it *)
Definition one_after_the_other : list Race.Pid :=
  (repeat Race.PA 13 ++ repeat Race.PB 13)%list.

(** ** Views on the file, the lock and the reading side of a line *)

(* the mask handed to umask by pgauditlogtofile_open_file *)
Definition open_mask (h : Host) : Z :=
  Z.land (Z.lnot (Z.lor (Log_file_mode h) S_IWUSR))
         (Z.lor (Z.lor S_IRWXU S_IRWXG) S_IRWXO).

(* the answer of fopen to the next call of pgauditlogtofile_open_file *)
Definition fopen_at (w : World) (shm : pgAuditLogToFileShm) : bool :=
  os_fopen (os w) (os_calls w) (shm_filename shm).

Definition open_diagnostic (shm : pgAuditLogToFileShm) : Event :=
  EvEreport WARNING
    ("could not open log file " ++ quoted (shm_filename shm) ++ ": %m").

(* what pgauditlogtofile_open_file adds to the trace *)
Definition open_events (w : World) (shm : pgAuditLogToFileShm) : list Event :=
  [EvMakePGDirectory (guc_pgaudit_log_directory (guc w));
   EvLWLockAcquire LW_SHARED;
   EvUmask (open_mask (host w));
   EvFopen (shm_filename shm) (fopen_at w shm);
   EvUmaskRestore;
   if fopen_at w shm then EvSetvbuf 8192 else open_diagnostic shm;
   EvLWLockRelease].

Definition backend_after_open (w : World) (shm : pgAuditLogToFileShm) : Backend :=
  if fopen_at w shm
  then set_filename_in_use
         (set_file_handler (backend w) (Some (mkFILE (shm_filename shm))))
         (shm_filename shm)
  else set_file_handler (backend w) None.

Definition world_after_open (w : World) (shm : pgAuditLogToFileShm) : World :=
  with_trace (with_backend (with_os_calls w (S (os_calls w)))
                           (backend_after_open w shm))
             (trace w ++ open_events w shm).

Definition world_after_close (w : World) : World :=
  match file_handler (backend w) with
  | Some f =>
    with_backend (with_trace w (trace w ++ [EvFclose (f_path f)]))
                 (set_file_handler (backend w) None)
  | None => w
  end.

Definition close_events (w : World) : list Event :=
  match file_handler (backend w) with
  | Some f => [EvFclose (f_path f)]
  | None => []
  end.

(* the world pgauditlogtofile_calculate_filename leaves when it stores [name] *)
Definition world_after_filename (w : World) (shm : pgAuditLogToFileShm)
    (name : string) : World :=
  with_trace (with_shm w (Some (set_shm_filename shm name)))
             (trace w ++ lock_unlock).

(* the name pgauditlogtofile_calculate_filename computes in [w] *)
Definition filename_at (w : World) (shm : pgAuditLogToFileShm) : option string :=
  audit_filename (host w) (guc w)
                 (current_rotation_time (guc w) (next_rotation_time shm)).

(* the extension is attached and both GUC strings are set and not empty *)
Definition enabled (w : World) : bool :=
  match pgaudit_log_shm w, guc_pgaudit_log_directory (guc w),
        guc_pgaudit_log_filename (guc w) with
  | Some _, Some d, Some f =>
    negb (String.length d =? 0)%nat && negb (String.length f =? 0)%nat
  | _, _, _ => false
  end.

(* the world after the previous hook has been called, if there is one *)
Definition world_after_prev_hook (w : World) (edata : ErrorData) : World :=
  with_trace w (trace w ++ prev_hook_events w edata).

(** The lock along a sequence of events: whether it is held at the end,
    starting from [held]; [None] when the lock is taken while held or
    released while free. *)
Fixpoint lock_balance (held : bool) (evs : list Event) : option bool :=
  match evs with
  | [] => Some held
  | EvLWLockAcquire _ :: rest => if held then None else lock_balance true rest
  | EvLWLockRelease :: rest => if held then lock_balance false rest else None
  | _ :: rest => lock_balance held rest
  end.

(** What happens while the lock is held. *)
Fixpoint events_under_lock (held : bool) (evs : list Event) : list Event :=
  match evs with
  | [] => []
  | EvLWLockAcquire _ :: rest => events_under_lock true rest
  | EvLWLockRelease :: rest => events_under_lock false rest
  | e :: rest =>
    if held then e :: events_under_lock held rest
    else events_under_lock held rest
  end.


(* [w1] is [w] after events that take and release the lock in turn and
   leave it free; [under] is what happened while it was held *)
Definition disciplined (w w1 : World) (under : list Event) : Prop :=
  exists evs, trace w1 = (trace w ++ evs)%list
              /\ lock_balance false evs = Some false
              /\ events_under_lock false evs = under.

(** The open file is the one the backend remembers the name of. *)
Definition handle_on_name_in_use (w : World) : Prop :=
  forall f, file_handler (backend w) = Some f ->
            f_path f = filename_in_use (backend w).

(** A reader positioned at the opening quote of a field: the text of the
    field and what follows its closing quote.  As [csv_unquote], this is the
    reading side and not part of [logtofile.c]. *)
Fixpoint csv_read_body (s : string) : option (string * string) :=
  match s with
  | EmptyString => None
  | String c r =>
    if Ascii.eqb c dquote then
      match r with
      | EmptyString => Some ("", "")
      | String c' r' =>
        if Ascii.eqb c' dquote
        then match csv_read_body r' with
             | Some (x, rest) => Some (String dquote x, rest)
             | None => None
             end
        else Some ("", r)
      end
    else match csv_read_body r with
         | Some (x, rest) => Some (String c x, rest)
         | None => None
         end
  end.

Definition csv_read_quoted (s : string) : option (string * string) :=
  match s with
  | EmptyString => None
  | String c r => if Ascii.eqb c dquote then csv_read_body r else None
  end.

(* no double quote occurs in the text *)
Fixpoint no_dquote (s : string) : bool :=
  match s with
  | EmptyString => true
  | String c r => negb (Ascii.eqb c dquote) && no_dquote r
  end.

(* host, and ":port" when the port is set and not empty: the text that
   pgauditlogtofile_format_audit_line puts between the quotes of the
   remote-host field *)
Definition remote_address (port : Port) : option string :=
  match remote_host port with
  | Some rh =>
    Some (rh ++ match remote_port port with
                | Some rp => if negb (deref rp =? 0)%Z then ":" ++ rp else ""
                | None => ""
                end)%string
  | None => None
  end.

(* the same letter of the ASCII alphabet, or the same byte *)
Definition same_letter (c d : ascii) : bool :=
  Ascii.eqb c d
  || ((fold_uchar C_locale (uchar c) =? fold_uchar C_locale (uchar d))
      && negb (IS_HIGHBIT_SET (uchar c)) && negb (IS_HIGHBIT_SET (uchar d))).

Fixpoint same_letters (s t : string) : bool :=
  match s, t with
  | EmptyString, EmptyString => true
  | String c s', String d t' => same_letter c d && same_letters s' t'
  | _, _ => false
  end.

(* the text starts with a double quote *)
Definition starts_with_dquote (s : string) : bool :=
  match s with
  | EmptyString => false
  | String c _ => Ascii.eqb c dquote
  end.

(* no byte of the text is the terminator, before or after case folding *)
Fixpoint folds_nonzero (lc : Locale) (s : string) : Prop :=
  match s with
  | EmptyString => True
  | String d r =>
    uchar d <> 0 /\ fold_uchar lc (uchar d) <> 0 /\ folds_nonzero lc r
  end.

(** Worlds for the cases above. *)

(* nothing is due: the file is open on the shared name, the deadline (7200)
   is ahead of the clock (5000) *)
Definition steady_world : World :=
  {| host := example_host; guc := example_guc; os := example_os 5000;
     os_calls := 0; pgaudit_log_shm := Some example_shm;
     backend := running_backend; trace := [] |}.

(* the postmaster before shared memory is attached *)
Definition startup_world : World :=
  {| host := example_host; guc := example_guc; os := example_os 5000;
     os_calls := 0; pgaudit_log_shm := None; backend := Backend_init;
     trace := [] |}.

(* a record of the server that is not an audit line *)
Definition plain_edata : ErrorData :=
  {| output_to_server := true; hide_stmt := false;
     ed_filename := None; ed_lineno := 0; ed_funcname := None;
     sqlerrcode := 0;
     message := Some "connection received";
     detail := None; detail_log := None; hint := None; context := None;
     cursorpos := 0; internalpos := 0; internalquery := None |}.

(* another backend has rotated: the shared name is that of the period that
   started at 3600, this backend's file is still that of the period before *)
Definition follower_shm : pgAuditLogToFileShm :=
  {| shm_filename := "log/audit.log.3600"; force_rotation := false;
     next_rotation_time := 7200 |}.

Definition follower_world : World :=
  example_world 5000 follower_shm
    (set_filename_in_use
       (set_file_handler Backend_init (Some (mkFILE "log/audit.log.0")))
       "log/audit.log.0").

(* the same host with a log timezone one hour east of Greenwich, at
   2024-01-01 00:00:05 UTC *)
Definition east_host : Host :=
  {| MyProcPid := MyProcPid example_host;
     MyProcPort := MyProcPort example_host;
     MyStartTime := MyStartTime example_host;
     MyProc := MyProc example_host;
     TopTransactionId := TopTransactionId example_host;
     ps_display := ps_display example_host;
     debug_query_string := debug_query_string example_host;
     Log_error_verbosity := Log_error_verbosity example_host;
     Log_file_mode := Log_file_mode example_host;
     application_name := application_name example_host;
     locale := locale example_host;
     tm_gmtoff := fun _ => 3600;
     pg_strftime := pg_strftime example_host;
     unpack_sql_state := unpack_sql_state example_host |}.

Definition east_world : World :=
  {| host := east_host; guc := example_guc; os := example_os 1704067205;
     os_calls := 0; pgaudit_log_shm := Some example_shm;
     backend := Backend_init; trace := [] |}.

(** * Properties *)

(** ** Machine integers *)

Section CIntFacts.

Lemma pow2_double bits : 0 < bits -> 2 ^ bits = 2 * 2 ^ (bits - 1).
Proof.
  intros Hb.
  replace bits with (Z.succ (bits - 1)) at 1 by lia.
  rewrite Z.pow_succ_r by lia; reflexivity.
Qed.

Lemma wrap_signed_id bits z :
  0 < bits -> in_signed bits z -> wrap_signed bits z = z.
Proof.
  unfold in_signed, wrap_signed; intros Hb Hz.
  pose proof (pow2_double bits Hb) as E.
  rewrite Z.mod_small; lia.
Qed.

Lemma wrap_signed_range bits z :
  0 < bits -> in_signed bits (wrap_signed bits z).
Proof.
  unfold in_signed, wrap_signed; intros Hb.
  pose proof (pow2_double bits Hb) as E.
  assert (P : 0 < 2 ^ (bits - 1)) by (apply Z.pow_pos_nonneg; lia).
  pose proof (Z.mod_pos_bound (z + 2 ^ (bits - 1)) (2 ^ bits)); lia.
Qed.

Lemma wrap_time_id z : - 2 ^ 63 <= z < 2 ^ 63 -> wrap_time z = z.
Proof. intros H; apply wrap_signed_id; [lia | exact H]. Qed.

Lemma wrap_int_id z : - 2 ^ 31 <= z < 2 ^ 31 -> wrap_int z = z.
Proof. intros H; apply wrap_signed_id; [lia | exact H]. Qed.

Lemma wrap_long_id z : - 2 ^ 63 <= z < 2 ^ 63 -> wrap_long z = z.
Proof. intros H; apply wrap_signed_id; [lia | exact H]. Qed.

Lemma wrap_time_range z : - 2 ^ 63 <= wrap_time z < 2 ^ 63.
Proof. apply (wrap_signed_range 64); lia. Qed.

End CIntFacts.

(** ** Strings and the CSV literal *)

Section Strings.

Lemma sapp_nil_r (s : string) : (s ++ "")%string = s.
Proof. induction s as [|c s IH]; simpl; [reflexivity | now rewrite IH]. Qed.

Lemma sapp_assoc (a b c : string) : ((a ++ b) ++ c = a ++ (b ++ c))%string.
Proof. induction a as [|x a IH]; simpl; [reflexivity | now rewrite IH]. Qed.

Lemma sapp_cons (x : ascii) (a b : string) :
  (String x a ++ b)%string = String x (a ++ b).
Proof. reflexivity. Qed.

Lemma sapp_inv_head (a b c : string) : (a ++ b = a ++ c)%string -> b = c.
Proof.
  induction a as [|x a IH]; simpl; intros H; [exact H|].
  injection H as H; auto.
Qed.

(* the loop of the C function appends the doubled text to what is there *)
Lemma append_csv_loop_spec (p : string) :
  forall buf, append_csv_loop buf p = (buf ++ double_quotes p)%string.
Proof.
  induction p as [|c p IH]; intros buf; simpl.
  - now rewrite sapp_nil_r.
  - rewrite IH. unfold appendStringInfoChar.
    destruct (Ascii.eqb c dquote) eqn:E; rewrite !sapp_assoc; simpl.
    + apply Ascii.eqb_eq in E. now subst c.
    + reflexivity.
Qed.

Lemma append_csv_literal_present (buf s : string) :
  pgauditlogtofile_append_csv_literal buf (Some s)
  = (buf ++ String dquote (double_quotes s ++ String dquote ""))%string.
Proof.
  unfold pgauditlogtofile_append_csv_literal, appendStringInfoChar.
  rewrite append_csv_loop_spec. now rewrite !sapp_assoc.
Qed.

Lemma append_csv_literal_app (buf : string) (data : option string) :
  pgauditlogtofile_append_csv_literal buf data
  = (buf ++ csv_literal data)%string.
Proof.
  unfold csv_literal. destruct data as [s|].
  - now rewrite !append_csv_literal_present.
  - simpl. now rewrite sapp_nil_r.
Qed.

Lemma csv_unquote_body_doubled (s : string) :
  csv_unquote_body (double_quotes s ++ String dquote "") = Some s.
Proof.
  induction s as [|c s IH]; simpl.
  - reflexivity.
  - destruct (Ascii.eqb c dquote) eqn:E; simpl.
    + apply Ascii.eqb_eq in E; subst c.
      rewrite IH. reflexivity.
    + rewrite E, IH. reflexivity.
Qed.

End Strings.

(** C3.  The CSV formatter renders an absent text field as nothing and a
    present text field [s] as a double quote, [s] with every double quote
    written twice, and a double quote; the text [he_said] comes out as
    [he_said_quoted]; and standard CSV unquoting of the rendered field gives
    [s] back, for every [s]. *)
Theorem csv_literal_roundtrip :
  (forall buf, pgauditlogtofile_append_csv_literal buf None = buf)
  /\ (forall buf s,
        pgauditlogtofile_append_csv_literal buf (Some s)
        = (buf ++ String dquote (double_quotes s ++ String dquote ""))%string)
  /\ csv_literal (Some he_said) = he_said_quoted
  /\ (forall s, csv_unquote (csv_literal (Some s)) = Some s).
Proof.
  split; [reflexivity|].
  split; [exact append_csv_literal_present|].
  split; [reflexivity|].
  intros s. unfold csv_literal.
  rewrite append_csv_literal_present. simpl.
  apply csv_unquote_body_doubled.
Qed.

(** ** The rotation deadline *)

Section Deadline.

(* the interval in seconds, for a rotation age the GUC lets through *)
Lemma rotinterval_admitted (m : Z) :
  0 < m -> guc_admits pgaudit_log_rotation_age_def m ->
  wrap_int (m * SECS_PER_MINUTE) = m * 60 /\ 0 < m * 60 < 2 ^ 31.
Proof.
  unfold guc_admits; cbn. unfold SECS_PER_MINUTE. intros Hm [_ Hmax].
  assert (B : m <= 35791394) by exact Hmax.
  split; [apply wrap_int_id|]; lia.
Qed.

(* [a - a % r] is the multiple of [r] next to [a] towards zero *)
Lemma rem_truncate (a r : Z) : r <> 0 -> a - Z.rem a r = r * Z.quot a r.
Proof. intros Hr. pose proof (Z.quot_rem' a r). lia. Qed.

Lemma rem_abs_le (a r : Z) : 0 < r -> Z.abs (Z.rem a r) <= Z.abs a.
Proof.
  intros Hr.
  destruct (Z.le_gt_cases 0 a) as [Ha|Ha].
  - pose proof (Z.rem_bound_pos a r Ha Hr).
    destruct (Z.le_gt_cases r a) as [Hra|Hra]; [lia|].
    rewrite Z.rem_small by lia. lia.
  - assert (Hn : 0 <= - a) by lia.
    pose proof (Z.rem_bound_pos (- a) r Hn Hr) as Hb.
    rewrite Z.rem_opp_l in Hb by lia.
    destruct (Z.le_gt_cases r (- a)) as [Hra|Hra]; [lia|].
    assert (E : Z.rem (- a) r = - a) by (apply Z.rem_small; lia).
    rewrite Z.rem_opp_l in E by lia. lia.
Qed.

(* between a and a - a % r nothing leaves the range of a *)
Lemma rem_truncate_abs (a r : Z) : 0 < r -> Z.abs (a - Z.rem a r) <= Z.abs a.
Proof.
  intros Hr. pose proof (rem_abs_le a r Hr) as Hle.
  pose proof (Z.rem_sign_mul a r ltac:(lia)) as Hs.
  destruct (Z.le_gt_cases 0 a) as [Ha|Ha].
  - assert (0 <= Z.rem a r) by (apply Z.rem_bound_pos; lia). lia.
  - assert (Z.rem a r <= 0) by nia. lia.
Qed.

(** The computation away from the ends of [int64]: no operation wraps. *)
Lemma next_rotation_time_at_exact (m now tz : Z) :
  0 < m -> guc_admits pgaudit_log_rotation_age_def m ->
  - 2 ^ 63 + 2 ^ 33 <= now <= 2 ^ 63 - 2 ^ 33 ->
  - 2 ^ 31 <= tz <= 2 ^ 31 ->
  next_rotation_time_at m now tz
  = Some ((now + tz) - Z.rem (now + tz) (m * 60) + m * 60 - tz).
Proof.
  intros Hm Hadm Hnow Htz.
  destruct (rotinterval_admitted m Hm Hadm) as [Er Hr].
  unfold next_rotation_time_at. rewrite Er.
  assert (E1 : wrap_time (now + tz) = now + tz) by (apply wrap_time_id; lia).
  rewrite E1.
  destruct (Z.eqb_spec (m * 60) 0) as [E0|_]; [lia|].
  pose proof (rem_truncate_abs (now + tz) (m * 60) ltac:(lia)) as Habs.
  assert (E2 : wrap_time (now + tz - Z.rem (now + tz) (m * 60))
               = now + tz - Z.rem (now + tz) (m * 60))
    by (apply wrap_time_id; lia).
  rewrite E2.
  assert (E3 : wrap_time (now + tz - Z.rem (now + tz) (m * 60) + m * 60)
               = now + tz - Z.rem (now + tz) (m * 60) + m * 60)
    by (apply wrap_time_id; lia).
  rewrite E3.
  rewrite wrap_time_id by lia. reflexivity.
Qed.

(* the deadline lies after the reading it was computed from *)
Lemma next_rotation_time_at_later (m now tz d : Z) :
  0 < m -> guc_admits pgaudit_log_rotation_age_def m ->
  - 2 ^ 63 + 2 ^ 33 <= now <= 2 ^ 63 - 2 ^ 33 ->
  - 2 ^ 31 <= tz <= 2 ^ 31 ->
  next_rotation_time_at m now tz = Some d ->
  now < d <= now + 2 * (m * 60).
Proof.
  intros Hm Hadm Hnow Htz H.
  rewrite next_rotation_time_at_exact in H by assumption.
  injection H as <-.
  destruct (rotinterval_admitted m Hm Hadm) as [_ Hr].
  pose proof (rem_abs_le (now + tz) (m * 60) ltac:(lia)) as Hle.
  pose proof (Z.rem_sign_mul (now + tz) (m * 60) ltac:(lia)) as Hs.
  destruct (Z.le_gt_cases 0 (now + tz)) as [Ha|Ha].
  - pose proof (Z.rem_bound_pos (now + tz) (m * 60) Ha ltac:(lia)). lia.
  - assert (Hn : 0 <= - (now + tz)) by lia.
    pose proof (Z.rem_bound_pos (- (now + tz)) (m * 60) Hn ltac:(lia)) as Hb.
    rewrite Z.rem_opp_l in Hb by lia. lia.
Qed.

(* the monadic function reads the clock once and applies the arithmetic *)
Lemma calculate_next_rotation_time_run (w : World) :
  pgauditlogtofile_calculate_next_rotation_time w
  = match next_rotation_time_at (guc_pgaudit_log_rotation_age (guc w))
            (os_time (os w) (os_calls w))
            (tm_gmtoff (host w) (os_time (os w) (os_calls w))) with
    | Some t => Some (t, with_os_calls w (S (os_calls w)))
    | None => None
    end.
Proof.
  unfold pgauditlogtofile_calculate_next_rotation_time, bind, time, gets.
  simpl.
  destruct (next_rotation_time_at _ _ _); reflexivity.
Qed.

(* for an admitted positive age the divisor is not zero and a timestamp
   comes back *)
Lemma next_rotation_time_at_some (m now tz : Z) :
  0 < m -> guc_admits pgaudit_log_rotation_age_def m ->
  wrap_int (m * SECS_PER_MINUTE) <> 0
  /\ exists t, next_rotation_time_at m now tz = Some t
               /\ - 2 ^ 63 <= t < 2 ^ 63.
Proof.
  intros Hm Hadm.
  destruct (rotinterval_admitted m Hm Hadm) as [Er Hr].
  split; [rewrite Er; lia|].
  unfold next_rotation_time_at. rewrite Er.
  destruct (Z.eqb_spec (m * 60) 0) as [E0|_]; [lia|].
  eexists; split; [reflexivity | apply wrap_time_range].
Qed.

End Deadline.

(** C2.  For a rotation age of [m] minutes that the GUC lets through,
    [m > 0], a clock reading [now] and a timezone offset [tz], the next
    deadline is [((now + tz) - ((now + tz) mod (m*60)) + m*60) - tz], where
    [mod] is the remainder of C ([%]), which is the mathematical one for
    readings at or after the epoch of the local clock.  Consequently every
    deadline is a multiple of the interval on the local clock (the top of an
    hour for 60 minutes), and the deadline computed at a deadline is exactly
    one interval later (3600 seconds for 60 minutes).  The C function, in a
    world where the rotation age is [m], the clock shows [now] and the log
    timezone is [tz] off, reads the clock once and returns that deadline;
    called again when the clock shows the deadline, it returns the deadline
    one interval later. *)
Theorem next_rotation_time_formula (m now tz : Z) :
  0 < m -> guc_admits pgaudit_log_rotation_age_def m ->
  - 2 ^ 62 <= now <= 2 ^ 62 ->
  - 2 ^ 31 <= tz <= 2 ^ 31 ->
  let r := m * 60 in
  let d := (now + tz) - Z.rem (now + tz) r + r - tz in
  next_rotation_time_at m now tz = Some d
  /\ (0 <= now + tz -> d = (now + tz) - (now + tz) mod r + r - tz)
  /\ (d + tz) mod r = 0
  /\ next_rotation_time_at m d tz = Some (d + r)
  /\ (m = 60 ->
      (d + tz) mod 3600 = 0 /\ next_rotation_time_at 60 d tz = Some (d + 3600))
  /\ (forall w,
         guc_pgaudit_log_rotation_age (guc w) = m ->
         os_time (os w) (os_calls w) = now ->
         tm_gmtoff (host w) now = tz ->
         pgauditlogtofile_calculate_next_rotation_time w
         = Some (d, with_os_calls w (S (os_calls w))))
  /\ (forall w,
         guc_pgaudit_log_rotation_age (guc w) = m ->
         os_time (os w) (os_calls w) = d ->
         tm_gmtoff (host w) d = tz ->
         pgauditlogtofile_calculate_next_rotation_time w
         = Some (d + r, with_os_calls w (S (os_calls w)))).
Proof.
  intros Hm Hadm Hnow Htz r d.
  destruct (rotinterval_admitted m Hm Hadm) as [_ Hr]. fold r in Hr.
  assert (Hd : d + tz = r * (Z.quot (now + tz) r + 1)).
  { unfold d. pose proof (rem_truncate (now + tz) r ltac:(lia)). lia. }
  assert (Hdr : Z.rem (d + tz) r = 0).
  { rewrite Hd, Z.mul_comm. apply Z.rem_mul. lia. }
  assert (Hstep : next_rotation_time_at m d tz = Some (d + r)).
  { assert (Hlater : now < d <= now + 2 * (m * 60)).
    { apply (next_rotation_time_at_later m now tz d); try assumption; try lia.
      apply next_rotation_time_at_exact; try assumption; lia. }
    rewrite next_rotation_time_at_exact; try assumption; try lia.
    fold r. rewrite Hdr. f_equal. lia. }
  assert (Hmod : (d + tz) mod r = 0).
  { rewrite Hd, Z.mul_comm. apply Z.mod_mul. lia. }
  split; [apply next_rotation_time_at_exact; try assumption; lia|].
  split.
  { intros Hpos. unfold d. rewrite Z.rem_mod_nonneg by lia. reflexivity. }
  split; [exact Hmod|].
  split; [exact Hstep|].
  split; [intros ->; split; [exact Hmod | exact Hstep]|].
  split.
  - intros w Hage Hclock Hoff.
    rewrite calculate_next_rotation_time_run, Hage, Hclock, Hoff.
    rewrite next_rotation_time_at_exact by (try assumption; lia).
    reflexivity.
  - intros w Hage Hclock Hoff.
    rewrite calculate_next_rotation_time_run, Hage, Hclock, Hoff, Hstep.
    reflexivity.
Qed.

Lemma next_rotation_time_formula_witness :
  next_rotation_time_at 60 1704067205 3600 = Some 1704070800
  /\ (1704070800 + 3600) mod 3600 = 0
  /\ next_rotation_time_at 60 1704070800 3600 = Some (1704070800 + 3600)
  /\ pgauditlogtofile_calculate_next_rotation_time east_world
     = Some (1704070800, with_os_calls east_world 1).
Proof.
  pose proof (next_rotation_time_formula 60 1704067205 3600) as H.
  cbv zeta in H.
  destruct H as (H1 & _ & H3 & H4 & _ & H6 & _).
  - lia.
  - unfold guc_admits; cbn; lia.
  - lia.
  - lia.
  - split; [exact H1|]. split; [exact H3|]. split; [exact H4|].
    exact (H6 east_world eq_refl eq_refl eq_refl).
Defined.

(** C8.  The deadline computation cannot fail for a positive rotation age
    the GUC lets through: the divisor of [now % rotinterval] is not zero and
    a timestamp comes back, from the arithmetic and from the C function that
    reads the clock.  The check is left to the caller: the GUC itself admits
    0 minutes, and with 0 minutes the computation divides by zero. *)
Theorem next_rotation_time_total :
  (forall m now tz,
      0 < m -> guc_admits pgaudit_log_rotation_age_def m ->
      wrap_int (m * SECS_PER_MINUTE) <> 0
      /\ exists t, next_rotation_time_at m now tz = Some t
                   /\ - 2 ^ 63 <= t < 2 ^ 63)
  /\ (forall w,
         0 < guc_pgaudit_log_rotation_age (guc w) ->
         guc_admits pgaudit_log_rotation_age_def
                    (guc_pgaudit_log_rotation_age (guc w)) ->
         exists t w', pgauditlogtofile_calculate_next_rotation_time w = Some (t, w'))
  /\ ci_min pgaudit_log_rotation_age_def = 0
  /\ guc_admits pgaudit_log_rotation_age_def 0
  /\ (forall now tz, next_rotation_time_at 0 now tz = None).
Proof.
  pose proof next_rotation_time_at_some as P.
  split; [exact P|].
  split.
  { intros w Hm Hadm. rewrite calculate_next_rotation_time_run.
    destruct (P _ (os_time (os w) (os_calls w))
                (tm_gmtoff (host w) (os_time (os w) (os_calls w))) Hm Hadm)
      as (_ & t & Ht & _).
    rewrite Ht. eauto. }
  split; [reflexivity|].
  split; [unfold guc_admits; cbn; lia|].
  intros now tz. reflexivity.
Qed.

Lemma next_rotation_time_total_witness :
  wrap_int (1440 * SECS_PER_MINUTE) <> 0
  /\ exists t, next_rotation_time_at 1440 1704067205 0 = Some t
               /\ - 2 ^ 63 <= t < 2 ^ 63.
Proof.
  apply (proj1 next_rotation_time_total 1440 1704067205 0).
  - lia.
  - unfold guc_admits; cbn; lia.
Defined.

(** ** The rotation check *)

Section NeedsRotate.

(* what one call does, branch by branch *)
Lemma needs_rotate_file_run (w : World) (shm : pgAuditLogToFileShm) :
  pgaudit_log_shm w = Some shm ->
  pgauditlogtofile_needs_rotate_file w
  = if force_rotation shm then
      Some (true, with_trace (with_shm w (Some (set_force_rotation shm false)))
                             (trace w ++ lock_unlock))
    else if names_differ w shm then Some (true, w)
    else if deadline_passed w shm then
      match next_rotation_time_at (guc_pgaudit_log_rotation_age (guc w))
              (os_time (os w) (S (os_calls w)))
              (tm_gmtoff (host w) (os_time (os w) (S (os_calls w)))) with
      | Some t =>
        Some (true,
              with_trace
                (with_shm (with_os_calls w (S (S (os_calls w))))
                          (Some (set_next_rotation_time shm t)))
                (trace w ++ lock_unlock))
      | None => None
      end
    else Some (false, with_os_calls w (S (os_calls w))).
Proof.
  intros Hshm.
  unfold pgauditlogtofile_needs_rotate_file, bind, shm_get.
  rewrite Hshm.
  destruct (force_rotation shm) eqn:Hf.
  - unfold LWLockAcquire, LWLockRelease, emit, modify, shm_set, ret; simpl.
    rewrite Hshm. unfold with_trace, with_shm, lock_unlock; simpl.
    rewrite <- app_assoc. reflexivity.
  - unfold gets, names_differ, deadline_passed, clock_now. simpl.
    destruct (negb (pg_strcasecmp _ _ _ =? 0)); [reflexivity|].
    destruct (os_time (os w) (os_calls w) >=? next_rotation_time shm);
      [|reflexivity].
    unfold LWLockAcquire, LWLockRelease, emit, modify; simpl.
    rewrite calculate_next_rotation_time_run; simpl.
    destruct (next_rotation_time_at _ _ _) as [t|]; [|reflexivity].
    unfold shm_set; simpl. rewrite Hshm.
    unfold ret, with_trace, with_shm, with_os_calls, lock_unlock; simpl.
    rewrite <- app_assoc. reflexivity.
Qed.


End NeedsRotate.

(** C1, as the code has it.  With a positive rotation age the GUC admits,
    every call returns, and it returns true if and only if the force flag is
    set, or the last-known filename differs from the shared one when letter
    case is ignored (pg_strcasecmp), or the clock has reached the shared
    deadline.  The conditions are tried in this order and the first true one
    ends the call: a set flag is cleared under the exclusive lock and nothing
    else is read or written (the clock is not read, a passed deadline stays
    in place); a differing name leaves the world untouched; only the third
    condition reads the clock and stores a new deadline. *)
Theorem needs_rotate_file_spec (w : World) (shm : pgAuditLogToFileShm) :
  pgaudit_log_shm w = Some shm ->
  0 < guc_pgaudit_log_rotation_age (guc w) ->
  guc_admits pgaudit_log_rotation_age_def (guc_pgaudit_log_rotation_age (guc w)) ->
  exists w',
    pgauditlogtofile_needs_rotate_file w
    = Some (force_rotation shm || names_differ w shm || deadline_passed w shm, w')
    /\ (force_rotation shm = true ->
        w' = with_trace (with_shm w (Some (set_force_rotation shm false)))
                        (trace w ++ lock_unlock))
    /\ (force_rotation shm = false -> names_differ w shm = true -> w' = w)
    /\ (force_rotation shm = false -> names_differ w shm = false ->
        deadline_passed w shm = true ->
        exists t,
          next_rotation_time_at (guc_pgaudit_log_rotation_age (guc w))
            (os_time (os w) (S (os_calls w)))
            (tm_gmtoff (host w) (os_time (os w) (S (os_calls w)))) = Some t
          /\ w' = with_trace
                    (with_shm (with_os_calls w (S (S (os_calls w))))
                              (Some (set_next_rotation_time shm t)))
                    (trace w ++ lock_unlock))
    /\ (force_rotation shm = false -> names_differ w shm = false ->
        deadline_passed w shm = false ->
        w' = with_os_calls w (S (os_calls w))).
Proof.
  intros Hshm Hage Hadm.
  rewrite (needs_rotate_file_run w shm Hshm).
  destruct (force_rotation shm) eqn:Hf; simpl.
  { eexists; split; [reflexivity|].
    repeat split; intros; try discriminate; reflexivity. }
  destruct (names_differ w shm) eqn:Hn; simpl.
  { eexists; split; [reflexivity|].
    repeat split; intros; try discriminate; reflexivity. }
  destruct (deadline_passed w shm) eqn:Hd.
  - destruct (next_rotation_time_at_some
                (guc_pgaudit_log_rotation_age (guc w))
                (os_time (os w) (S (os_calls w)))
                (tm_gmtoff (host w) (os_time (os w) (S (os_calls w))))
                Hage Hadm) as (_ & t & Ht & _).
    rewrite Ht.
    eexists; split; [reflexivity|].
    repeat split; intros; try discriminate.
    exists t; split; reflexivity.
  - eexists; split; [reflexivity|].
    repeat split; intros; try discriminate; reflexivity.
Qed.

Lemma needs_rotate_file_spec_witness :
  exists w',
    pgauditlogtofile_needs_rotate_file force_and_deadline_world = Some (true, w')
    /\ os_calls w' = os_calls force_and_deadline_world
    /\ pgaudit_log_shm w'
       = Some {| shm_filename := "log/audit.log"; force_rotation := false;
                 next_rotation_time := 1000 |}.
Proof.
  destruct (needs_rotate_file_spec force_and_deadline_world _ eq_refl)
    as (w' & H & Hforce & _).
  - simpl; lia.
  - unfold guc_admits; cbn; lia.
  - exists w'. split; [exact H|].
    rewrite (Hforce eq_refl). split; reflexivity.
Defined.

(** C1 as stated fails on names that differ in letter case only: the
    last-known name [log/AUDIT.log] differs from the shared name
    [log/audit.log], yet the call returns false. *)
Lemma needs_rotate_file_ignores_case :
  ~ (forall (w : World) (shm : pgAuditLogToFileShm) (b : bool) (w' : World),
        pgaudit_log_shm w = Some shm ->
        pgauditlogtofile_needs_rotate_file w = Some (b, w') ->
        (b = true <->
         force_rotation shm = true
         \/ filename_in_use (backend w) <> shm_filename shm
         \/ clock_now w >= next_rotation_time shm)).
Proof.
  intros H.
  assert (E : pgauditlogtofile_needs_rotate_file case_only_world
              = Some (false, with_os_calls case_only_world 1)) by reflexivity.
  destruct (H case_only_world _ false _ eq_refl E) as [_ Hback].
  assert (Hb : false = true); [|discriminate Hb].
  apply Hback. right; left. simpl. discriminate.
Qed.




(** ** The formatter *)

Section Formatter.

Ltac put_block :=
  intros; unfold field_of, initStringInfo;
  repeat match goal with
         | |- context [match ?x with _ => _ end] => destruct x
         end;
  unfold appendStringInfoString, appendStringInfoChar;
  rewrite ?append_csv_literal_app; simpl;
  rewrite ?sapp_assoc, ?sapp_nil_r; simpl;
  try reflexivity.

Lemma put_user_name_app h buf :
  put_user_name h buf = (buf ++ field_of (put_user_name h))%string.
Proof. unfold put_user_name. put_block. Qed.

Lemma put_database_name_app h buf :
  put_database_name h buf = (buf ++ field_of (put_database_name h))%string.
Proof. unfold put_database_name. put_block. Qed.

Lemma put_process_id_app h buf :
  put_process_id h buf = (buf ++ field_of (put_process_id h))%string.
Proof. unfold put_process_id. put_block. Qed.

Lemma put_remote_host_app h buf :
  put_remote_host h buf = (buf ++ field_of (put_remote_host h))%string.
Proof. unfold put_remote_host. put_block. Qed.

Lemma put_session_id_app h buf :
  put_session_id h buf = (buf ++ field_of (put_session_id h))%string.
Proof. unfold put_session_id. put_block. Qed.

Lemma put_line_number_app be buf :
  put_line_number be buf = (buf ++ field_of (put_line_number be))%string.
Proof. unfold put_line_number. put_block. Qed.

Lemma put_ps_display_app h buf :
  put_ps_display h buf = (buf ++ field_of (put_ps_display h))%string.
Proof. unfold put_ps_display. put_block. Qed.

Lemma put_vxid_app h buf :
  put_vxid h buf = (buf ++ field_of (put_vxid h))%string.
Proof. unfold put_vxid. put_block. Qed.

Lemma put_detail_app e buf :
  put_detail e buf = (buf ++ field_of (put_detail e))%string.
Proof. unfold put_detail. put_block. Qed.

Lemma put_internalpos_app e buf :
  put_internalpos e buf = (buf ++ field_of (put_internalpos e))%string.
Proof. unfold put_internalpos. put_block. Qed.

Lemma put_statement_app h e buf :
  put_statement h e buf = (buf ++ field_of (put_statement h e))%string.
Proof. unfold put_statement. put_block. Qed.

Lemma put_cursorpos_app h e buf :
  put_cursorpos h e buf = (buf ++ field_of (put_cursorpos h e))%string.
Proof. unfold put_cursorpos. put_block. Qed.

Lemma put_error_location_app h e buf :
  put_error_location h e buf = (buf ++ field_of (put_error_location h e))%string.
Proof. unfold put_error_location. put_block. Qed.

Lemma put_application_name_app h buf :
  put_application_name h buf = (buf ++ field_of (put_application_name h))%string.
Proof. unfold put_application_name. put_block. Qed.

(** One call of the formatter appends the line made of [audit_fields] and
    leaves the statics as [statics_after_format] describes; it always
    returns. *)
Lemma format_audit_line_run (buf : StringInfo) (edata : ErrorData) (w : World) :
  pgauditlogtofile_format_audit_line buf edata w
  = Some ((buf ++ csv_line (audit_fields (host w)
                              (backend (world_after_format w)) edata))%string,
          world_after_format w).
Proof.
  unfold pgauditlogtofile_format_audit_line, world_after_format,
    statics_after_format, pid_check, gettimeofday_at.
  unfold bind, gets, backend_set, modify, ret,
    pgauditlogtofile_format_log_time, pgauditlogtofile_format_start_time,
    gettimeofday, bind, gets, backend_set, modify, ret.
  fold (log_time_text (host w)
          (os_time (os w) (os_calls w), os_usec (os w) (os_calls w))).
  fold (start_time_text (host w)).
  set (tv := (os_time (os w) (os_calls w), os_usec (os w) (os_calls w))).
  destruct (negb (log_my_pid (backend w) =? MyProcPid (host w))); simpl;
    try match goal with
        | |- context [deref ?s =? 0] => destruct (deref s =? 0)
        end; simpl;
    (apply f_equal; apply f_equal2; [|reflexivity]);
    rewrite put_application_name_app, put_error_location_app,
      put_cursorpos_app, put_statement_app, put_internalpos_app,
      put_detail_app, put_vxid_app, put_ps_display_app, put_line_number_app,
      put_session_id_app, put_remote_host_app, put_process_id_app,
      put_database_name_app, put_user_name_app;
    unfold appendStringInfoString, appendStringInfoChar;
    rewrite !append_csv_literal_app;
    unfold csv_line, audit_fields, csv_join, field_of, initStringInfo;
    repeat (progress (rewrite ?sapp_assoc, ?sapp_cons)); reflexivity.
Qed.

End Formatter.

Section Statics.

Lemma after_format_host (w : World) : host (world_after_format w) = host w.
Proof. reflexivity. Qed.

Lemma after_format_shm (w : World) :
  pgaudit_log_shm (world_after_format w) = pgaudit_log_shm w.
Proof. reflexivity. Qed.

Lemma after_format_line_number (w : World) :
  log_line_number (backend (world_after_format w))
  = wrap_long (counter_base w + 1).
Proof.
  unfold world_after_format, statics_after_format, pid_check, counter_base.
  simpl.
  destruct (log_my_pid (backend w) =? MyProcPid (host w)); simpl;
    try match goal with
        | |- context [deref ?s =? 0] => destruct (deref s =? 0)
        end; reflexivity.
Qed.

Lemma after_format_pid (w : World) :
  log_my_pid (backend (world_after_format w)) = MyProcPid (host w).
Proof.
  unfold world_after_format, statics_after_format, pid_check. simpl.
  destruct (log_my_pid (backend w) =? MyProcPid (host w)) eqn:E; simpl;
    try match goal with
        | |- context [deref ?s =? 0] => destruct (deref s =? 0)
        end; simpl; try reflexivity.
  all: apply Z.eqb_eq in E; exact E.
Qed.

Lemma after_format_start_time (w : World) :
  formatted_start_time (backend (world_after_format w))
  = if negb (log_my_pid (backend w) =? MyProcPid (host w))
       || (deref (formatted_start_time (backend w)) =? 0)
    then start_time_text (host w)
    else formatted_start_time (backend w).
Proof.
  unfold world_after_format, statics_after_format, pid_check. simpl.
  destruct (log_my_pid (backend w) =? MyProcPid (host w)); simpl.
  - destruct (deref (formatted_start_time (backend w)) =? 0); reflexivity.
  - reflexivity.
Qed.

Lemma after_format_file_handler (w : World) :
  file_handler (backend (world_after_format w)) = file_handler (backend w).
Proof.
  unfold world_after_format, statics_after_format, pid_check. simpl.
  destruct (log_my_pid (backend w) =? MyProcPid (host w)); simpl;
    try match goal with
        | |- context [deref ?s =? 0] => destruct (deref s =? 0)
        end; reflexivity.
Qed.

Lemma after_format_prev_hook (w : World) :
  prev_emit_log_hook (backend (world_after_format w))
  = prev_emit_log_hook (backend w).
Proof.
  unfold world_after_format, statics_after_format, pid_check. simpl.
  destruct (log_my_pid (backend w) =? MyProcPid (host w)); simpl;
    try match goal with
        | |- context [deref ?s =? 0] => destruct (deref s =? 0)
        end; reflexivity.
Qed.

(* once a record is formatted the cached identity is the current one *)
Lemma after_format_counter_base (w : World) :
  counter_base (world_after_format w) = wrap_long (counter_base w + 1).
Proof.
  unfold counter_base at 1.
  rewrite after_format_pid, after_format_host, Z.eqb_refl.
  apply after_format_line_number.
Qed.

Lemma line_number_field (w : World) (edata : ErrorData) :
  nth LINE_NUMBER_FIELD
      (audit_fields (host w) (backend (world_after_format w)) edata) ""%string
  = fmt_d (wrap_long (counter_base w + 1)).
Proof.
  unfold LINE_NUMBER_FIELD, audit_fields; cbn [nth].
  unfold put_line_number, appendStringInfoString.
  rewrite after_format_line_number. reflexivity.
Qed.

Lemma format_records_run (es : list ErrorData) :
  forall w, exists w',
    format_records es w = Some (lines_from es w, w')
    /\ host w' = host w.
Proof.
  induction es as [|e es IH]; intros w; simpl.
  - eexists; split; reflexivity.
  - unfold bind. rewrite format_audit_line_run.
    destruct (IH (world_after_format w)) as (w' & E & Hh).
    rewrite E. eexists; split; [reflexivity | exact Hh].
Qed.

(* the line numbers of [n] records: consecutive from the base on *)
Lemma line_numbers_consecutive (n : nat) :
  forall w,
    0 <= counter_base w ->
    counter_base w + Z.of_nat n <= LONG_MAX ->
    line_numbers n w
    = map (fun i => counter_base w + Z.of_nat i) (seq 1 n).
Proof.
  induction n as [|n IH]; intros w H0 Hmax; [reflexivity|].
  cbn [line_numbers]; cbv zeta.
  pose proof (after_format_counter_base w) as Hb.
  rewrite wrap_long_id in Hb by (unfold LONG_MAX in Hmax; lia).
  rewrite after_format_line_number.
  rewrite wrap_long_id by (unfold LONG_MAX in Hmax; lia).
  rewrite IH by (rewrite Hb; lia).
  rewrite Hb. cbn [seq map].
  apply f_equal2; [lia|].
  rewrite <- (seq_shift n 1), map_map.
  apply map_ext. intros i. lia.
Qed.

Lemma consecutive_sorted (b : Z) (n k : nat) :
  StronglySorted Z.lt (map (fun i => b + Z.of_nat i) (seq k n)).
Proof.
  revert k. induction n as [|n IH]; intros k; simpl.
  - constructor.
  - constructor; [apply IH|].
    apply Forall_forall. intros x Hx.
    apply in_map_iff in Hx. destruct Hx as (i & <- & Hi).
    apply in_seq in Hi. lia.
Qed.

(* the lines of a run carry the numbers of [line_numbers] *)
Lemma lines_from_numbers (es : list ErrorData) :
  forall w,
    Forall2 (fun line k =>
               exists fields,
                 line = csv_line fields
                 /\ nth LINE_NUMBER_FIELD fields ""%string = fmt_d k)
            (lines_from es w) (line_numbers (length es) w).
Proof.
  induction es as [|e es IH]; intros w;
    cbn [lines_from line_numbers length]; cbv zeta.
  - constructor.
  - constructor; [|apply IH].
    unfold audit_line. eexists; split; [reflexivity|].
    rewrite line_number_field, after_format_line_number. reflexivity.
Qed.

End Statics.

(** C6.  The counter of line numbers starts at 0.  Every call of the
    formatter returns, adds one to the counter and prints the new value in
    the line-number field, so that the first record of a process carries 1.
    The counter restarts from 0 exactly when the cached process id differs
    from MyProcPid, and at that moment the cached session-start text is
    dropped and computed afresh; otherwise both are kept.  The records a
    process formats one after the other carry consecutive, hence strictly
    increasing, numbers. *)
Theorem line_number_counter :
  log_line_number Backend_init = 0
  /\ (forall buf edata w,
        pgauditlogtofile_format_audit_line buf edata w
        = Some ((buf ++ audit_line w edata)%string, world_after_format w)
        /\ counter_base w
           = (if log_my_pid (backend w) =? MyProcPid (host w)
              then log_line_number (backend w) else 0)
        /\ log_line_number (backend (world_after_format w))
           = wrap_long (counter_base w + 1)
        /\ nth LINE_NUMBER_FIELD
               (audit_fields (host w) (backend (world_after_format w)) edata)
               ""%string
           = fmt_d (wrap_long (counter_base w + 1))
        /\ log_my_pid (backend (world_after_format w)) = MyProcPid (host w)
        /\ formatted_start_time (backend (world_after_format w))
           = (if negb (log_my_pid (backend w) =? MyProcPid (host w))
                 || (deref (formatted_start_time (backend w)) =? 0)
              then start_time_text (host w)
              else formatted_start_time (backend w))
        /\ nth SESSION_START_FIELD
               (audit_fields (host w) (backend (world_after_format w)) edata)
               ""%string
           = formatted_start_time (backend (world_after_format w)))
  /\ (forall edata w,
        log_my_pid (backend w) <> MyProcPid (host w)
        \/ log_line_number (backend w) = 0 ->
        nth LINE_NUMBER_FIELD
            (audit_fields (host w) (backend (world_after_format w)) edata)
            ""%string
        = "1"%string)
  /\ (forall es w,
        0 <= counter_base w ->
        counter_base w + Z.of_nat (length es) <= LONG_MAX ->
        exists w',
          format_records es w = Some (lines_from es w, w')
          /\ Forall2 (fun line k =>
                        exists fields,
                          line = csv_line fields
                          /\ nth LINE_NUMBER_FIELD fields ""%string = fmt_d k)
                     (lines_from es w) (line_numbers (length es) w)
          /\ line_numbers (length es) w
             = map (fun i => counter_base w + Z.of_nat i) (seq 1 (length es))
          /\ StronglySorted Z.lt (line_numbers (length es) w)).
Proof.
  split; [reflexivity|].
  split.
  { intros buf edata w.
    split; [apply format_audit_line_run|].
    split; [reflexivity|].
    split; [apply after_format_line_number|].
    split; [apply line_number_field|].
    split; [apply after_format_pid|].
    split; [apply after_format_start_time | reflexivity]. }
  split.
  { intros edata w H. rewrite line_number_field.
    assert (E : counter_base w = 0).
    { unfold counter_base.
      destruct (Z.eqb_spec (log_my_pid (backend w)) (MyProcPid (host w)));
        [|reflexivity].
      destruct H as [H|H]; [contradiction | exact H]. }
    rewrite E. reflexivity. }
  intros es w H0 Hmax.
  destruct (format_records_run es w) as (w' & E & _).
  exists w'. split; [exact E|].
  split; [apply lines_from_numbers|].
  rewrite line_numbers_consecutive by assumption.
  split; [reflexivity | apply consecutive_sorted].
Qed.

Lemma line_number_counter_witness :
  nth LINE_NUMBER_FIELD
      (audit_fields example_host
         (backend (world_after_format (forked_world example_host)))
         example_edata) ""%string
  = "1"%string
  /\ line_numbers 3 (forked_world example_host) = [1; 2; 3].
Proof.
  destruct line_number_counter as (_ & _ & Hfirst & Hrun).
  split.
  - apply Hfirst. left. vm_compute. discriminate.
  - destruct (Hrun [example_edata; example_edata; example_edata]
                   (forked_world example_host)) as (w' & _ & _ & E & _).
    + vm_compute. discriminate.
    + vm_compute. discriminate.
    + exact E.
Defined.

(** C10.  The source-location field is the 21st of the line.  Below
    verbosity [verbose] nothing stands between its commas; at [verbose] it is
    always a quoted literal, of the text collected from function name, file
    name and line, and that text is empty whenever the file name is absent:
    the field is then a pair of double quotes, which is not the empty text
    of the lower verbosities. *)
Theorem source_location_field (buf : StringInfo) (edata : ErrorData) (w : World) :
  let fields := audit_fields (host w) (backend (world_after_format w)) edata in
  let loc := nth SOURCE_LOCATION_FIELD fields ""%string in
  pgauditlogtofile_format_audit_line buf edata w
  = Some ((buf ++ csv_line fields)%string, world_after_format w)
  /\ loc = (if verbosity_rank (Log_error_verbosity (host w))
               >=? verbosity_rank PGERROR_VERBOSE
            then String dquote (double_quotes (error_location edata)
                                ++ String dquote "")
            else ""%string)
  /\ (Log_error_verbosity (host w) <> PGERROR_VERBOSE -> loc = ""%string)
  /\ (Log_error_verbosity (host w) = PGERROR_VERBOSE ->
      ed_filename edata = None -> loc = two_dquotes)
  /\ two_dquotes <> ""%string.
Proof.
  intros fields loc.
  assert (Hloc : loc = (if verbosity_rank (Log_error_verbosity (host w))
                           >=? verbosity_rank PGERROR_VERBOSE
                        then String dquote (double_quotes (error_location edata)
                                            ++ String dquote "")
                        else ""%string)).
  { unfold loc, fields, SOURCE_LOCATION_FIELD, audit_fields; cbn [nth].
    unfold put_error_location.
    destruct (verbosity_rank (Log_error_verbosity (host w))
              >=? verbosity_rank PGERROR_VERBOSE); [|reflexivity].
    now rewrite append_csv_literal_present. }
  split; [apply format_audit_line_run|].
  split; [exact Hloc|].
  split.
  { intros Hv. rewrite Hloc.
    destruct (Log_error_verbosity (host w)); try reflexivity.
    contradiction. }
  split.
  { intros Hv Hfile. rewrite Hloc, Hv. simpl.
    unfold error_location. rewrite Hfile.
    destruct (ed_funcname edata); reflexivity. }
  discriminate.
Qed.

Lemma source_location_field_witness :
  nth SOURCE_LOCATION_FIELD
      (audit_fields verbose_host
         (backend (world_after_format (forked_world verbose_host)))
         example_edata) ""%string
  = two_dquotes
  /\ nth SOURCE_LOCATION_FIELD
         (audit_fields example_host
            (backend (world_after_format (forked_world example_host)))
            example_edata) ""%string
     = ""%string.
Proof.
  split.
  - apply (source_location_field "" example_edata (forked_world verbose_host));
      reflexivity.
  - apply (source_location_field "" example_edata (forked_world example_host)).
    simpl. discriminate.
Defined.

(** ** Recording one audit line *)

Section RecordAudit.

Lemma formatter_untouched_refl w : formatter_untouched w w.
Proof. repeat split. Qed.

Lemma formatter_untouched_trans w1 w2 w3 :
  formatter_untouched w1 w2 -> formatter_untouched w2 w3 ->
  formatter_untouched w1 w3.
Proof.
  unfold formatter_untouched.
  intros (A1 & A2 & A3 & A4 & A5 & A6 & A7) (B1 & B2 & B3 & B4 & B5 & B6 & B7).
  repeat split; congruence.
Qed.

(* unfolds the monad and splits on every test met on the way *)
Ltac run_monad H :=
  unfold bind, gets, ret, modify, emit, backend_set, shm_get, shm_set,
    fault, LWLockAcquire, LWLockRelease, ereport, fopen_append in H;
  simpl in H;
  repeat match type of H with
         | context [match ?x with _ => _ end] =>
           lazymatch x with
           | context [match _ with _ => _ end] => fail
           | _ => let E := fresh "E" in destruct x eqn:E; simpl in H
           end
         end;
  try discriminate H.

Lemma needs_rotate_file_frame w b w1 :
  pgauditlogtofile_needs_rotate_file w = Some (b, w1) ->
  formatter_untouched w w1
  /\ file_handler (backend w1) = file_handler (backend w)
  /\ exists shm1, pgaudit_log_shm w1 = Some shm1.
Proof.
  intros H.
  destruct (pgaudit_log_shm w) as [shm|] eqn:Hshm.
  2:{ unfold pgauditlogtofile_needs_rotate_file, bind, shm_get in H.
      rewrite Hshm in H. discriminate. }
  rewrite (needs_rotate_file_run w shm Hshm) in H.
  destruct (force_rotation shm); [|destruct (names_differ w shm);
    [|destruct (deadline_passed w shm);
      [destruct (next_rotation_time_at _ _ _); [|discriminate]|]]];
    injection H as _ <-; simpl;
    (split; [repeat split | split; [reflexivity | eauto]]).
Qed.

Lemma calculate_filename_frame w u w1 :
  pgauditlogtofile_calculate_filename w = Some (u, w1) ->
  formatter_untouched w w1
  /\ file_handler (backend w1) = file_handler (backend w)
  /\ exists shm1, pgaudit_log_shm w1 = Some shm1.
Proof.
  intros H. unfold pgauditlogtofile_calculate_filename in H.
  run_monad H. injection H as _ <-. simpl.
  split; [repeat split | split; [reflexivity | eauto]].
Qed.

Lemma close_file_frame w u w1 :
  pgauditlogtofile_close_file w = Some (u, w1) ->
  formatter_untouched w w1
  /\ file_handler (backend w1) = None
  /\ pgaudit_log_shm w1 = pgaudit_log_shm w.
Proof.
  intros H. unfold pgauditlogtofile_close_file in H.
  run_monad H; injection H as _ <-; simpl.
  - split; [repeat split | split; reflexivity].
  - split; [repeat split | split; [assumption | reflexivity]].
Qed.

Lemma open_file_frame w opened w1 :
  pgauditlogtofile_open_file w = Some (opened, w1) ->
  formatter_untouched w w1
  /\ (opened = true -> exists f, file_handler (backend w1) = Some f)
  /\ exists shm1, pgaudit_log_shm w1 = Some shm1.
Proof.
  intros H. unfold pgauditlogtofile_open_file in H.
  run_monad H; injection H as <- <-; simpl.
  - split; [repeat split | split; [eauto | eauto]].
  - split; [repeat split | split; [discriminate | eauto]].
Qed.

Lemma prepare_file_frame w ok w1 :
  prepare_file w = Some (ok, w1) ->
  formatter_untouched w w1
  /\ (ok = true -> exists f, file_handler (backend w1) = Some f)
  /\ exists shm1, pgaudit_log_shm w1 = Some shm1.
Proof.
  unfold prepare_file, bind. intros H.
  destruct (pgauditlogtofile_needs_rotate_file w) as [[rotate wa]|] eqn:Hn;
    [|discriminate].
  destruct (needs_rotate_file_frame _ _ _ Hn) as (Fa & Ha & Sa).
  assert (Hmid : exists wb,
             formatter_untouched w wb
             /\ (exists s, pgaudit_log_shm wb = Some s)
             /\ match pgauditlogtofile_is_open_file wb with
                | Some (is_open, w') =>
                  (if negb is_open then pgauditlogtofile_open_file else ret true) w'
                | None => None
                end = Some (ok, w1)).
  { destruct rotate.
    - destruct (pgauditlogtofile_calculate_filename wa) as [[u wc]|] eqn:Hc;
        [|discriminate].
      destruct (calculate_filename_frame _ _ _ Hc) as (Fc & _ & Sc).
      destruct (pgauditlogtofile_close_file wc) as [[u' wd]|] eqn:Hd;
        [|discriminate].
      destruct (close_file_frame _ _ _ Hd) as (Fd & _ & Sd).
      exists wd. split.
      + eapply formatter_untouched_trans; [exact Fa|].
        eapply formatter_untouched_trans; [exact Fc | exact Fd].
      + split; [rewrite Sd; exact Sc | exact H].
    - exists wa. split; [exact Fa | split; [exact Sa | exact H]]. }
  destruct Hmid as (wb & Fb & Sb & Hrest).
  unfold pgauditlogtofile_is_open_file, bind, gets in Hrest.
  destruct (file_handler (backend wb)) as [f|] eqn:Hf; simpl in Hrest.
  - injection Hrest as <- <-. split; [exact Fb | split; eauto].
  - destruct (open_file_frame _ _ _ Hrest) as (Fo & Ho & So).
    split; [eapply formatter_untouched_trans; eassumption | split; assumption].
Qed.

(* the C function is the preparation followed by the write *)
Lemma record_audit_prepare (edata : ErrorData) (w : World) :
  pgauditlogtofile_record_audit edata w
  = match prepare_file w with
    | Some (true, w1) => pgauditlogtofile_write_audit edata w1
    | Some (false, w1) => Some (false, w1)
    | None => None
    end.
Proof.
  unfold pgauditlogtofile_record_audit, prepare_file, bind.
  destruct (pgauditlogtofile_needs_rotate_file w) as [[rotate wa]|];
    [|reflexivity].
  assert (Rest : forall wb,
    match pgauditlogtofile_is_open_file wb with
    | Some (is_open, w') =>
      (if negb is_open
       then fun w0 =>
              match pgauditlogtofile_open_file w0 with
              | Some (opened, w'0) =>
                (if negb opened then ret false
                 else pgauditlogtofile_write_audit edata) w'0
              | None => None
              end
       else pgauditlogtofile_write_audit edata) w'
    | None => None
    end
    = match match pgauditlogtofile_is_open_file wb with
            | Some (is_open, w') =>
              (if negb is_open then pgauditlogtofile_open_file else ret true) w'
            | None => None
            end with
      | Some (true, w1) => pgauditlogtofile_write_audit edata w1
      | Some (false, w1) => Some (false, w1)
      | None => None
      end).
  { intros wb.
    destruct (pgauditlogtofile_is_open_file wb) as [[is_open wc]|];
      [|reflexivity].
    destruct is_open; simpl; [reflexivity|].
    destruct (pgauditlogtofile_open_file wc) as [[opened wd]|]; [|reflexivity].
    destruct opened; reflexivity. }
  destruct rotate.
  - destruct (pgauditlogtofile_calculate_filename wa) as [[u wc]|];
      [|reflexivity].
    destruct (pgauditlogtofile_close_file wc) as [[u' wd]|]; [|reflexivity].
    apply Rest.
  - apply Rest.
Qed.

(* the write: format, seek, fwrite, and a diagnostic on a short count *)
Lemma write_audit_run (edata : ErrorData) (w : World) f shm :
  file_handler (backend w) = Some f ->
  pgaudit_log_shm w = Some shm ->
  pgauditlogtofile_write_audit edata w
  = Some ((bytes_written w edata =? String.length (audit_line w edata))%nat,
          world_after_write w f shm edata).
Proof.
  intros Hf Hshm.
  unfold pgauditlogtofile_write_audit, bind.
  rewrite format_audit_line_run.
  unfold gets. rewrite after_format_file_handler, Hf.
  unfold world_after_write, write_events, bytes_written.
  change (initStringInfo
          ++ csv_line (audit_fields (host w)
                         (backend (world_after_format w)) edata))%string
    with (audit_line w edata).
  generalize (audit_line w edata) as line; intros line.
  unfold emit, modify, fwrite, bind; simpl.
  match goal with
  | |- context [(?n =? String.length line)%nat] =>
    destruct (n =? String.length line)%nat
  end; simpl.
  - unfold ret, with_trace, with_os_calls; simpl.
    rewrite <- app_assoc. reflexivity.
  - unfold shm_get, ereport, emit, modify, ret; simpl.
    rewrite Hshm. unfold write_diagnostic, with_trace, with_os_calls; simpl.
    rewrite <- !app_assoc. reflexivity.
Qed.

End RecordAudit.

Section EmitLog.

Lemma with_trace_nil_r (w : World) : with_trace w (trace w ++ []) = w.
Proof. destruct w; unfold with_trace; simpl. now rewrite app_nil_r. Qed.

(* the hook on an audit record while the extension is enabled *)
Lemma emit_log_run (edata : ErrorData) (w : World) (msg : string) :
  message edata = Some msg ->
  is_audit_message (host w) msg = true ->
  pgauditlogtofile_is_enabled w = Some (true, w) ->
  pgauditlogtofile_emit_log edata w
  = match pgauditlogtofile_record_audit edata w with
    | Some (true, w1) => Some (set_output_to_server edata false, w1)
    | Some (false, w1) =>
      Some (edata, with_trace w1 (trace w1 ++ prev_hook_events w1 edata))
    | None => None
    end.
Proof.
  intros Hmsg Haudit Hen.
  unfold pgauditlogtofile_emit_log, bind, gets. rewrite Hmsg.
  unfold is_audit_message in Haudit. rewrite Haudit. simpl.
  rewrite Hen. simpl.
  destruct (pgauditlogtofile_record_audit edata w) as [[recorded w1]|];
    [|reflexivity].
  destruct recorded; [reflexivity|].
  unfold call_prev_emit_log_hook, prev_hook_events, bind, gets, emit, modify, ret.
  destruct (prev_emit_log_hook (backend w1)); simpl.
  - reflexivity.
  - now rewrite with_trace_nil_r.
Qed.

Lemma world_after_write_file_handler w f shm edata :
  file_handler (backend (world_after_write w f shm edata))
  = file_handler (backend w).
Proof. unfold world_after_write; simpl. apply after_format_file_handler. Qed.

Lemma world_after_write_prev_hook w f shm edata :
  prev_emit_log_hook (backend (world_after_write w f shm edata))
  = prev_emit_log_hook (backend w).
Proof. unfold world_after_write; simpl. apply after_format_prev_hook. Qed.

Lemma world_after_write_line_number w f shm edata :
  log_line_number (backend (world_after_write w f shm edata))
  = wrap_long (counter_base w + 1).
Proof. unfold world_after_write; simpl. apply after_format_line_number. Qed.

(* the preparation does not touch what the counter starts from *)
Lemma prepare_file_counter_base w ok w1 :
  prepare_file w = Some (ok, w1) -> counter_base w1 = counter_base w.
Proof.
  intros H. destruct (prepare_file_frame _ _ _ H) as ((Hh & _ & _ & Hn & Hp & _) & _).
  unfold counter_base. now rewrite Hh, Hn, Hp.
Qed.

End EmitLog.

(** C7.  With a file open, the write returns failure if and only if the
    count reported by fwrite differs from the length of the formatted line;
    the file handle is left as it was, and what happens outside is a seek to
    the end, the fwrite, and on failure one WARNING.  When the hook takes an
    audit record and the write comes out short, the hook returns (nothing is
    raised), the record goes back to the caller with [output_to_server]
    untouched and is handed to the previous hook if one is installed, and the
    file is still open. *)
Theorem write_failure_contained :
  (forall edata w f shm,
      file_handler (backend w) = Some f ->
      pgaudit_log_shm w = Some shm ->
      exists ok w',
        pgauditlogtofile_write_audit edata w = Some (ok, w')
        /\ (ok = false
            <-> bytes_written w edata <> String.length (audit_line w edata))
        /\ file_handler (backend w') = Some f
        /\ trace w'
           = (trace w
              ++ [EvFseekEnd (f_path f);
                  EvFwrite (f_path f) (audit_line w edata) (bytes_written w edata)]
              ++ (if ok then [] else [write_diagnostic shm]))%list)
  /\ (forall edata w w1 msg,
        message edata = Some msg ->
        is_audit_message (host w) msg = true ->
        pgauditlogtofile_is_enabled w = Some (true, w) ->
        prepare_file w = Some (true, w1) ->
        bytes_written w1 edata <> String.length (audit_line w1 edata) ->
        exists f shm w2,
          file_handler (backend w1) = Some f
          /\ pgaudit_log_shm w1 = Some shm
          /\ pgauditlogtofile_record_audit edata w = Some (false, w2)
          /\ trace w2
             = (trace w1
                ++ [EvFseekEnd (f_path f);
                    EvFwrite (f_path f) (audit_line w1 edata)
                             (bytes_written w1 edata);
                    write_diagnostic shm])%list
          /\ file_handler (backend w2) = Some f
          /\ pgauditlogtofile_emit_log edata w
             = Some (edata,
                     with_trace w2 (trace w2 ++ prev_hook_events w edata))).
Proof.
  assert (A : forall edata w f shm,
      file_handler (backend w) = Some f ->
      pgaudit_log_shm w = Some shm ->
      exists ok w',
        pgauditlogtofile_write_audit edata w = Some (ok, w')
        /\ (ok = false
            <-> bytes_written w edata <> String.length (audit_line w edata))
        /\ file_handler (backend w') = Some f
        /\ trace w'
           = (trace w
              ++ [EvFseekEnd (f_path f);
                  EvFwrite (f_path f) (audit_line w edata) (bytes_written w edata)]
              ++ (if ok then [] else [write_diagnostic shm]))%list).
  { intros edata w f shm Hf Hshm.
    eexists; eexists. split; [apply (write_audit_run edata w f shm Hf Hshm)|].
    split.
    { destruct (Nat.eqb_spec (bytes_written w edata)
                             (String.length (audit_line w edata))) as [E|E].
      - split; [discriminate | intros N; contradiction].
      - split; [intros _; exact E | reflexivity]. }
    split; [rewrite world_after_write_file_handler; exact Hf|].
    unfold world_after_write, write_events; simpl.
    destruct (bytes_written w edata =? String.length (audit_line w edata))%nat;
      reflexivity. }
  split; [exact A|].
  intros edata w w1 msg Hmsg Haudit Hen Hprep Hshort.
  destruct (prepare_file_frame _ _ _ Hprep) as (Hframe & Hopen & shm & Hshm).
  destruct (Hopen eq_refl) as (f & Hf).
  exists f, shm, (world_after_write w1 f shm edata).
  assert (Hrec : pgauditlogtofile_record_audit edata w
                 = Some (false, world_after_write w1 f shm edata)).
  { rewrite record_audit_prepare, Hprep.
    rewrite (write_audit_run edata w1 f shm Hf Hshm).
    apply Nat.eqb_neq in Hshort. now rewrite Hshort. }
  split; [exact Hf|]. split; [exact Hshm|]. split; [exact Hrec|].
  split.
  { unfold world_after_write, write_events; simpl.
    apply Nat.eqb_neq in Hshort. now rewrite Hshort. }
  split; [rewrite world_after_write_file_handler; exact Hf|].
  rewrite (emit_log_run edata w msg Hmsg Haudit Hen), Hrec.
  unfold prev_hook_events.
  rewrite world_after_write_prev_hook.
  destruct Hframe as (_ & _ & _ & _ & _ & _ & Hprev). now rewrite Hprev.
Qed.

Lemma write_failure_contained_witness :
  exists w2,
    pgauditlogtofile_record_audit example_edata short_write_world = Some (false, w2)
    /\ file_handler (backend w2) = Some (mkFILE "log/audit.log")
    /\ pgauditlogtofile_emit_log example_edata short_write_world
       = Some (example_edata,
               with_trace w2 (trace w2 ++ [EvPrevHook example_edata])).
Proof.
  destruct (proj2 write_failure_contained example_edata short_write_world
              (with_os_calls short_write_world 1)
              "AUDIT: SESSION,1,1,READ,SELECT,,,select 1")
    as (f & shm & w2 & Hf & Hshm & Hrec & _ & Hopen & Hemit);
    try reflexivity.
  - vm_compute. discriminate.
  - injection Hf as <-.
    exists w2. split; [exact Hrec|]. split; [exact Hopen | exact Hemit].
Defined.

Section Consumed.

Lemma world_after_write_counter_base w f shm edata :
  counter_base (world_after_write w f shm edata) = wrap_long (counter_base w + 1).
Proof.
  change (counter_base (world_after_write w f shm edata))
    with (counter_base (world_after_format w)).
  apply after_format_counter_base.
Qed.

(* a record that reaches the write, whatever the write returns *)
Lemma record_audit_write_reached (edata : ErrorData) (w w1 : World) :
  prepare_file w = Some (true, w1) ->
  exists f shm,
    file_handler (backend w1) = Some f
    /\ pgaudit_log_shm w1 = Some shm
    /\ pgauditlogtofile_record_audit edata w
       = Some ((bytes_written w1 edata =? String.length (audit_line w1 edata))%nat,
               world_after_write w1 f shm edata).
Proof.
  intros Hprep.
  destruct (prepare_file_frame _ _ _ Hprep) as (_ & Hopen & shm & Hshm).
  destruct (Hopen eq_refl) as (f & Hf).
  exists f, shm. split; [exact Hf|]. split; [exact Hshm|].
  rewrite record_audit_prepare, Hprep.
  apply (write_audit_run edata w1 f shm Hf Hshm).
Qed.

End Consumed.

(** C9.  The line number is taken while the line is formatted, before
    fwrite is called.  A record that fails at the opening of the file is not
    formatted and leaves the counter as it was.  A record that reaches the
    write leaves the counter one higher whatever fwrite reports, so after a
    short write the next record that is written carries the number after the
    one that was lost. *)
Theorem line_number_consumed_by_failed_write :
  (forall edata w w1,
      prepare_file w = Some (false, w1) ->
      pgauditlogtofile_record_audit edata w = Some (false, w1)
      /\ log_line_number (backend w1) = log_line_number (backend w)
      /\ counter_base w1 = counter_base w)
  /\ (forall edata w w1,
        prepare_file w = Some (true, w1) ->
        exists ok w2 fields,
          pgauditlogtofile_record_audit edata w = Some (ok, w2)
          /\ (ok = false
              <-> bytes_written w1 edata <> String.length (audit_line w1 edata))
          /\ audit_line w1 edata = csv_line fields
          /\ nth LINE_NUMBER_FIELD fields ""%string
             = fmt_d (wrap_long (counter_base w + 1))
          /\ log_line_number (backend w2) = wrap_long (counter_base w + 1)
          /\ counter_base w2 = wrap_long (counter_base w + 1))
  /\ (forall e1 e2 w w1 w2 w3 w4,
        0 <= counter_base w ->
        counter_base w + 2 <= LONG_MAX ->
        prepare_file w = Some (true, w1) ->
        pgauditlogtofile_record_audit e1 w = Some (false, w2) ->
        prepare_file w2 = Some (true, w3) ->
        pgauditlogtofile_record_audit e2 w2 = Some (true, w4) ->
        exists f fields,
          trace w4
          = (trace w3
             ++ [EvFseekEnd (f_path f);
                 EvFwrite (f_path f) (csv_line fields)
                          (String.length (csv_line fields))])%list
          /\ nth LINE_NUMBER_FIELD fields ""%string
             = fmt_d (counter_base w + 2)).
Proof.
  split.
  { intros edata w w1 Hprep.
    rewrite record_audit_prepare, Hprep.
    destruct (prepare_file_frame _ _ _ Hprep) as ((_ & _ & _ & Hn & _) & _).
    split; [reflexivity|]. split; [exact Hn|].
    apply (prepare_file_counter_base _ _ _ Hprep). }
  split.
  { intros edata w w1 Hprep.
    destruct (record_audit_write_reached edata w w1 Hprep)
      as (f & shm & Hf & Hshm & Hrec).
    eexists; eexists; eexists. split; [exact Hrec|].
    split.
    { destruct (Nat.eqb_spec (bytes_written w1 edata)
                             (String.length (audit_line w1 edata))) as [E|E].
      - split; [discriminate | intros N; contradiction].
      - split; [intros _; exact E | reflexivity]. }
    split; [reflexivity|].
    rewrite line_number_field, world_after_write_line_number,
      world_after_write_counter_base.
    rewrite (prepare_file_counter_base _ _ _ Hprep). repeat split. }
  intros e1 e2 w w1 w2 w3 w4 H0 Hmax Hp1 Hr1 Hp2 Hr2.
  destruct (record_audit_write_reached e1 w w1 Hp1)
    as (f1 & shm1 & Hf1 & Hshm1 & Hrec1).
  rewrite Hrec1 in Hr1. injection Hr1 as _ <-.
  destruct (record_audit_write_reached e2 _ w3 Hp2)
    as (f & shm & Hf & Hshm & Hrec2).
  rewrite Hrec2 in Hr2. injection Hr2 as Hok <-.
  exists f. eexists. split.
  - unfold world_after_write, write_events; simpl.
    rewrite Hok. apply Nat.eqb_eq in Hok. rewrite Hok.
    unfold audit_line. reflexivity.
  - rewrite line_number_field.
    rewrite (prepare_file_counter_base _ _ _ Hp2).
    rewrite world_after_write_counter_base.
    rewrite (prepare_file_counter_base _ _ _ Hp1).
    unfold LONG_MAX in Hmax.
    rewrite (wrap_long_id (counter_base w + 1)) by lia.
    rewrite wrap_long_id by lia.
    f_equal. lia.
Qed.

Lemma line_number_consumed_by_failed_write_witness :
  (exists w1,
      pgauditlogtofile_record_audit example_edata open_failure_world
      = Some (false, w1)
      /\ log_line_number (backend w1) = 41)
  /\ (exists w2 w3 w4 f fields,
         pgauditlogtofile_record_audit example_edata short_write_world
         = Some (false, w2)
         /\ pgauditlogtofile_record_audit example_edata w2 = Some (true, w4)
         /\ trace w4
            = (trace w3
               ++ [EvFseekEnd (f_path f);
                   EvFwrite (f_path f) (csv_line fields)
                            (String.length (csv_line fields))])%list
         /\ nth LINE_NUMBER_FIELD fields ""%string = "43"%string).
Proof.
  destruct line_number_consumed_by_failed_write as (Hopen & _ & Hskip).
  split.
  - destruct (prepare_file open_failure_world) as [[ok w1]|] eqn:E;
      [|vm_compute in E; discriminate E].
    destruct ok; [vm_compute in E; discriminate E|].
    destruct (Hopen example_edata _ _ E) as (Hrec & Hn & _).
    exists w1. split; [exact Hrec|]. rewrite Hn. reflexivity.
  - destruct (Hskip example_edata example_edata short_write_world
                    (with_os_calls short_write_world 1) short_write_world_1
                    short_write_world_2 short_write_world_3)
      as (f & fields & Ht & Hn).
    + vm_compute. discriminate.
    + vm_compute. discriminate.
    + vm_compute. reflexivity.
    + vm_compute. reflexivity.
    + vm_compute. reflexivity.
    + vm_compute. reflexivity.
    + exists short_write_world_1, short_write_world_2, short_write_world_3,
             f, fields.
      split; [vm_compute; reflexivity|]. split; [vm_compute; reflexivity|].
      split; [exact Ht | exact Hn].
Defined.
(** ** Two backends racing for the deadline *)

Section RaceFacts.

Import Race.

Variable c : Config.
Variable D : Z.
Variable F : string.

Hypothesis deadline_at_now :
  next_rotation_time_at (guc_pgaudit_log_rotation_age (c_guc c)) (c_now c)
                        (tm_gmtoff (c_host c) (c_now c)) = Some D.
Hypothesis filename_of_period :
  audit_filename (c_host c) (c_guc c) (current_rotation_time (c_guc c) D) = Some F.
Hypothesis fopen_succeeds : c_fopen c F = true.

#[local] Arguments acquire : simpl never.
#[local] Arguments release : simpl never.

(* a store of the deadline by another backend *)
Lemma proc_ok_other_store s st p q Q :
  p <> q ->
  proc_ok c D F s st q Q ->
  proc_ok c D F (set_next_rotation_time s D) (st ++ [p]) q Q.
Proof.
  intros Hpq. unfold proc_ok.
  destruct (pc Q) as [| | | | | | | | |b| | | | | | | | | | ]; simpl;
    try destruct b; try tauto;
    rewrite ?in_app_iff; simpl; intuition congruence.
Qed.

(* a write of the filename by another backend *)
Lemma proc_ok_other_write s st q Q :
  proc_ok c D F s st q Q ->
  proc_ok c D F (set_shm_filename s F) st q Q.
Proof.
  unfold proc_ok.
  destruct (pc Q) as [| | | | | | | | |b| | | | | | | | | | ]; simpl;
    try destruct b; tauto.
Qed.

Lemma proc_ok_lock_only s st q Q l G :
  proc_ok c D F s st q Q ->
  g_shm G = s -> g_stored G = st ->
  proc_ok c D F (g_shm (set_lock G l)) (g_stored (set_lock G l)) q Q.
Proof. intros H <- <-. exact H. Qed.

Lemma race_start_inv G : race_start G -> race_inv c D F G.
Proof.
  intros (HA & HB & _ & Hs).
  unfold race_inv, proc_ok, observed_deadline in *.
  rewrite HA, HB, Hs. simpl. repeat split; auto. constructor.
Qed.

(* what one step of a backend does to itself and to the shared structure *)
Lemma step_effect p G G' :
  proc_ok c D F (g_shm G) (g_stored G) p (proc G p) ->
  step c p G = Stepped G' ->
  proc_ok c D F (g_shm G') (g_stored G') p (proc G' p)
  /\ (forall q, q <> p -> proc G' q = proc G q)
  /\ ((g_shm G' = g_shm G /\ g_stored G' = g_stored G)
      \/ (g_shm G' = set_next_rotation_time (g_shm G) D
          /\ g_stored G' = (g_stored G ++ [p])%list
          /\ ~ In p (g_stored G))
      \/ (g_shm G' = set_shm_filename (g_shm G) F
          /\ g_stored G' = g_stored G)).
Proof.
  intros IP Hstep.
  destruct G as [s l st A B].
  unfold step, locked, unlocked, goto in Hstep.
  destruct p; simpl in *.
  - destruct A as [pcX inX fhX rotX wrX]; unfold proc_ok in IP; simpl in *.
    destruct pcX as [| | | | | | | | |b| |t|t| | | | |opened| |ok];
      simpl in *; try contradiction;
      try (destruct b; [|contradiction]);
      try (destruct (acquire _ _ _); [|discriminate Hstep]);
      rewrite ?deadline_at_now in Hstep.
    all: repeat match goal with H : _ /\ _ |- _ => destruct H end.
    all: try subst t; try subst opened; try subst ok; try subst fhX;
      try subst inX; try subst rotX; try subst wrX;
      rewrite ?filename_of_period in Hstep; try discriminate Hstep.
    all: injection Hstep as <-; unfold proc_ok; simpl.
    all: repeat match goal with
                | H : shm_filename _ = F |- _ => rewrite ?H, ?fopen_succeeds
                | H : next_rotation_time _ = D |- _ => rewrite ?H
                end; simpl.
    all: (split; [rewrite ?in_app_iff; simpl; try tauto|]).
    all: (split; [intros q Hq; destruct q; [congruence || reflexivity
                                           | congruence || reflexivity]|]).
    all: first [ left; split; reflexivity
               | right; left; repeat split; assumption
               | right; right; split; reflexivity ].
  - destruct B as [pcX inX fhX rotX wrX]; unfold proc_ok in IP; simpl in *.
    destruct pcX as [| | | | | | | | |b| |t|t| | | | |opened| |ok];
      simpl in *; try contradiction;
      try (destruct b; [|contradiction]);
      try (destruct (acquire _ _ _); [|discriminate Hstep]);
      rewrite ?deadline_at_now in Hstep.
    all: repeat match goal with H : _ /\ _ |- _ => destruct H end.
    all: try subst t; try subst opened; try subst ok; try subst fhX;
      try subst inX; try subst rotX; try subst wrX;
      rewrite ?filename_of_period in Hstep; try discriminate Hstep.
    all: injection Hstep as <-; unfold proc_ok; simpl.
    all: repeat match goal with
                | H : shm_filename _ = F |- _ => rewrite ?H, ?fopen_succeeds
                | H : next_rotation_time _ = D |- _ => rewrite ?H
                end; simpl.
    all: (split; [rewrite ?in_app_iff; simpl; try tauto|]).
    all: (split; [intros q Hq; destruct q; [congruence || reflexivity
                                           | congruence || reflexivity]|]).
    all: first [ left; split; reflexivity
               | right; left; repeat split; assumption
               | right; right; split; reflexivity ].
Qed.

Lemma step_race_inv p G G' :
  race_inv c D F G -> step c p G = Stepped G' -> race_inv c D F G'.
Proof.
  intros (IA & IB & ND) Hstep.
  assert (IP : proc_ok c D F (g_shm G) (g_stored G) p (proc G p))
    by (destruct p; assumption).
  destruct (step_effect p G G' IP Hstep) as (IP' & Hother & Heff).
  assert (Hq : forall q, q <> p ->
             proc_ok c D F (g_shm G) (g_stored G) q (proc G q) ->
             proc_ok c D F (g_shm G') (g_stored G') q (proc G' q)).
  { intros q Hqp IQ. rewrite (Hother q Hqp).
    destruct Heff as [(Es & Est)|[(Es & Est & _)|(Es & Est)]];
      rewrite Es, Est.
    - exact IQ.
    - apply proc_ok_other_store; [congruence | exact IQ].
    - apply proc_ok_other_write; exact IQ. }
  assert (ND' : NoDup (g_stored G')).
  { destruct Heff as [(_ & Est)|[(_ & Est & Hnew)|(_ & Est)]]; rewrite Est;
      try exact ND.
    apply NoDup_app; [exact ND | constructor; [intros []|constructor] |].
    intros x Hx [<-|[]]. contradiction. }
  unfold race_inv.
  destruct p.
  - split; [exact IP'|]. split; [|exact ND'].
    apply (Hq PB); [discriminate | exact IB].
  - split; [|split; [exact IP' | exact ND']].
    apply (Hq PA); [discriminate | exact IA].
Qed.

Lemma run_race_inv sched :
  forall G, race_inv c D F G -> race_inv c D F (run c sched G).
Proof.
  induction sched as [|p sched IH]; intros G HI; simpl; [exact HI|].
  destruct (step c p G) as [G'| | |] eqn:Hstep; try (apply IH; exact HI).
  apply IH. eapply step_race_inv; eassumption.
Qed.

(* at the end of a race both backends have stored the deadline, both have
   been told to rotate, and both have written to the file of the period *)
Lemma race_inv_done G :
  race_inv c D F G -> all_done G = true ->
  length (g_stored G) = 2%nat
  /\ In PA (g_stored G) /\ In PB (g_stored G)
  /\ next_rotation_time (g_shm G) = D
  /\ shm_filename (g_shm G) = F
  /\ (forall p, p_rotate (proc G p) = Some true
                /\ pc (proc G p) = Done true
                /\ p_wrote (proc G p) = Some F
                /\ p_filename_in_use (proc G p) = F).
Proof.
  intros (IA & IB & ND) Hdone.
  unfold all_done, is_done in Hdone. apply andb_prop in Hdone.
  destruct Hdone as [HA HB].
  unfold proc_ok in IA, IB.
  destruct (pc (g_A G)) eqn:EA; try discriminate HA.
  destruct (pc (g_B G)) eqn:EB; try discriminate HB.
  destruct IA as (A1 & A2 & A3 & A4 & A5 & A6 & A7).
  destruct IB as (B1 & B2 & B3 & B4 & B5 & B6 & B7).
  subst ok ok0.
  split.
  { apply Nat.le_antisymm.
    - apply (NoDup_incl_length (l' := [PA; PB]) ND).
      intros [] _; simpl; auto.
    - apply (@NoDup_incl_length _ [PA; PB] (g_stored G)).
      + constructor; [simpl; intros [E|[]]; discriminate E|].
        constructor; [intros []|constructor].
      + intros x [<-|[<-|[]]]; assumption. }
  repeat split; try assumption.
  all: destruct p; simpl; assumption.
Qed.

End RaceFacts.

(** ** The lock during a race *)

Section RaceLock.

Import Race.

Variable c : Config.

#[local] Arguments acquire : simpl never.
#[local] Arguments release : simpl never.

Lemma Pid_eqb_eq p q : Pid_eqb p q = true <-> p = q.
Proof. destruct p, q; simpl; split; congruence. Qed.

Lemma Pid_eqb_refl p : Pid_eqb p p = true.
Proof. destruct p; reflexivity. Qed.

Lemma proc_set_proc_other G p q P : q <> p -> proc (set_proc G p P) q = proc G q.
Proof. destruct p, q; simpl; congruence. Qed.

(* what one step does to the lock and to what the backend holds *)
Lemma step_lock_effect p G G' :
  step c p G = Stepped G' ->
  (forall q, q <> p -> proc G' q = proc G q)
  /\ ((g_lock G' = g_lock G /\ holds (proc G' p) = holds (proc G p))
      \/ (exists m, holds (proc G p) = None
                    /\ holds (proc G' p) = Some m
                    /\ acquire m p (g_lock G) = Some (g_lock G'))
      \/ (holds (proc G' p) = None /\ g_lock G' = release p (g_lock G))).
Proof.
  intros Hstep.
  destruct G as [s l st A B].
  unfold step, locked, unlocked, goto in Hstep.
  destruct p; simpl in *.
  - destruct A as [pcX inX fhX rotX wrX]; simpl in *.
    destruct pcX as [| | | | | | | | |b| |t|t| | | | |opened| |ok];
      simpl in *;
      repeat match type of Hstep with
             | context [match ?x with _ => _ end] =>
               let E := fresh "E" in destruct x eqn:E
             end;
      try discriminate Hstep;
      injection Hstep as <-; simpl;
      (split; [intros q Hq; destruct q; [congruence || reflexivity
                                        | congruence || reflexivity]|]);
      unfold holds; simpl;
      first [ left; split; reflexivity
            | right; left; eexists; repeat split; eassumption
            | right; right; split; reflexivity ].
  - destruct B as [pcX inX fhX rotX wrX]; simpl in *.
    destruct pcX as [| | | | | | | | |b| |t|t| | | | |opened| |ok];
      simpl in *;
      repeat match type of Hstep with
             | context [match ?x with _ => _ end] =>
               let E := fresh "E" in destruct x eqn:E
             end;
      try discriminate Hstep;
      injection Hstep as <-; simpl;
      (split; [intros q Hq; destruct q; [congruence || reflexivity
                                        | congruence || reflexivity]|]);
      unfold holds; simpl;
      first [ left; split; reflexivity
            | right; left; eexists; repeat split; eassumption
            | right; right; split; reflexivity ].
Qed.

Lemma holds_none P :
  holds P = None <-> holds_exclusive P = false /\ holds_shared P = false.
Proof.
  unfold holds_exclusive, holds_shared.
  destruct (holds P) as [[]|]; split; try tauto; try congruence;
    intros [? ?]; discriminate.
Qed.

Lemma step_lock_inv p G G' :
  lock_inv G -> step c p G = Stepped G' -> lock_inv G'.
Proof.
  intros (Hex & Hsh & Halone) Hstep.
  destruct (step_lock_effect p G G' Hstep) as (Hother & Heff).
  assert (Hsame : forall q, q <> p ->
             holds_exclusive (proc G' q) = holds_exclusive (proc G q)
             /\ holds_shared (proc G' q) = holds_shared (proc G q)
             /\ holds (proc G' q) = holds (proc G q)).
  { intros q Hq. rewrite (Hother q Hq). repeat split. }
  destruct Heff as [(El & Eh)|[(m & Eh & Eh' & Eacq)|(Eh' & El)]].
  - (* the lock is not touched *)
    assert (Hp : holds_exclusive (proc G' p) = holds_exclusive (proc G p)
                 /\ holds_shared (proc G' p) = holds_shared (proc G p)).
    { unfold holds_exclusive, holds_shared. rewrite Eh. split; reflexivity. }
    assert (Hall : forall q,
               holds_exclusive (proc G' q) = holds_exclusive (proc G q)
               /\ holds_shared (proc G' q) = holds_shared (proc G q)
               /\ holds (proc G' q) = holds (proc G q)).
    { intros q. destruct p, q; try (apply Hsame; discriminate);
        (split; [apply Hp | split; [apply Hp | exact Eh]]). }
    unfold lock_inv. rewrite El.
    split; [intros q; destruct (Hall q) as (-> & _); apply Hex|].
    split; [intros q; destruct (Hall q) as (_ & -> & _); apply Hsh|].
    intros q r Hq Hr. destruct (Hall q) as (E1 & _), (Hall r) as (_ & _ & E3).
    rewrite E3. apply (Halone q r); [rewrite <- E1; exact Hq | exact Hr].
  - (* the lock is acquired *)
    apply holds_none in Eh. destruct Eh as [Ehx Ehs].
    unfold acquire in Eacq.
    destruct m.
    + (* exclusive: the lock was free *)
      destruct (exclusive (g_lock G)) eqn:Ex; [discriminate|].
      destruct (shared (g_lock G)) eqn:Es; [|discriminate].
      injection Eacq as Eacq.
      assert (Hfree : forall q, holds (proc G q) = None).
      { intros q. apply holds_none. split.
        - destruct (holds_exclusive (proc G q)) eqn:E; [|reflexivity].
          apply Hex in E. congruence.
        - destruct (holds_shared (proc G q)) eqn:E; [|reflexivity].
          apply Hsh in E. destruct E. }
      assert (Hpx : holds_exclusive (proc G' p) = true)
        by (unfold holds_exclusive; now rewrite Eh').
      assert (Hps : holds_shared (proc G' p) = false)
        by (unfold holds_shared; now rewrite Eh').
      assert (Hq : forall q, q <> p -> holds (proc G' q) = None).
      { intros q Hqp. destruct (Hsame q Hqp) as (_ & _ & ->). apply Hfree. }
      assert (Hqx : forall q, q <> p -> holds_exclusive (proc G' q) = false).
      { intros q Hqp. apply (holds_none (proc G' q)). apply Hq. exact Hqp. }
      assert (Hqs : forall q, q <> p -> holds_shared (proc G' q) = false).
      { intros q Hqp. apply (holds_none (proc G' q)). apply Hq. exact Hqp. }
      unfold lock_inv. rewrite <- Eacq; simpl.
      split.
      { intros q. split.
        - intros E. injection E as <-. exact Hpx.
        - intros E. f_equal.
          destruct (Pid_eqb p q) eqn:Epq; [apply Pid_eqb_eq; exact Epq|].
          assert (Hqp : q <> p).
          { intros ->. rewrite Pid_eqb_refl in Epq. discriminate. }
          rewrite (Hqx q Hqp) in E. discriminate E. }
      split.
      { intros q. split; [intros []|].
        intros E.
        destruct (Pid_eqb p q) eqn:Epq.
        - apply Pid_eqb_eq in Epq. subst q. rewrite Hps in E. discriminate E.
        - assert (Hqp : q <> p).
          { intros ->. rewrite Pid_eqb_refl in Epq. discriminate. }
          rewrite (Hqs q Hqp) in E. discriminate E. }
      intros q r Hqx' Hqr.
      destruct (Pid_eqb p q) eqn:Epq.
      * apply Pid_eqb_eq in Epq. subst q. apply Hq. congruence.
      * assert (Hqp : q <> p).
        { intros ->. rewrite Pid_eqb_refl in Epq. discriminate. }
        rewrite (Hqx q Hqp) in Hqx'. discriminate Hqx'.
    + (* shared: nobody holds it in exclusive mode *)
      destruct (exclusive (g_lock G)) eqn:Ex; [discriminate|].
      injection Eacq as Eacq.
      assert (Hnox : forall q, holds_exclusive (proc G q) = false).
      { intros q. destruct (holds_exclusive (proc G q)) eqn:E; [|reflexivity].
        apply Hex in E. congruence. }
      assert (Hpx : holds_exclusive (proc G' p) = false)
        by (unfold holds_exclusive; now rewrite Eh').
      assert (Hps : holds_shared (proc G' p) = true)
        by (unfold holds_shared; now rewrite Eh').
      assert (Hnox' : forall q, holds_exclusive (proc G' q) = false).
      { intros q. destruct (Pid_eqb p q) eqn:Epq.
        - apply Pid_eqb_eq in Epq. subst q. exact Hpx.
        - assert (Hqp : q <> p).
          { intros ->. rewrite Pid_eqb_refl in Epq. discriminate. }
          destruct (Hsame q Hqp) as (-> & _). apply Hnox. }
      unfold lock_inv. rewrite <- Eacq; simpl.
      split.
      { intros q. rewrite Hnox'. split; discriminate. }
      split.
      { intros q. destruct (Pid_eqb p q) eqn:Epq.
        - apply Pid_eqb_eq in Epq. subst q.
          split; [intros _; exact Hps | intros _; left; reflexivity].
        - assert (Hqp : q <> p).
          { intros ->. rewrite Pid_eqb_refl in Epq. discriminate. }
          destruct (Hsame q Hqp) as (_ & Eq & _). rewrite Eq.
          split.
          + intros [->|Hin]; [contradiction|]. apply Hsh. exact Hin.
          + intros E. right. apply Hsh. exact E. }
      intros q r Hqx. rewrite Hnox' in Hqx. discriminate Hqx.
  - (* the lock is released *)
    apply holds_none in Eh'. destruct Eh' as [Ehx Ehs].
    unfold lock_inv. rewrite El. unfold release; simpl.
    split.
    { intros q. split.
      - intros E.
        destruct (exclusive (g_lock G)) as [h|] eqn:Ex; [|discriminate].
        destruct (Pid_eqb p h) eqn:Eph; [discriminate|].
        injection E as <-.
        assert (Hhp : h <> p).
        { intros ->. rewrite Pid_eqb_refl in Eph. discriminate. }
        destruct (Hsame h Hhp) as (-> & _). apply Hex. reflexivity.
      - intros E.
        assert (Hqp : q <> p) by (intros ->; rewrite Ehx in E; discriminate).
        destruct (Hsame q Hqp) as (Eq & _). rewrite Eq in E.
        apply Hex in E. rewrite E.
        destruct (Pid_eqb p q) eqn:Epq; [|reflexivity].
        apply Pid_eqb_eq in Epq. congruence. }
    split.
    { intros q. rewrite filter_In. split.
      - intros [Hin Hne].
        assert (Hqp : q <> p).
        { intros ->. rewrite Pid_eqb_refl in Hne. discriminate. }
        destruct (Hsame q Hqp) as (_ & -> & _). apply Hsh. exact Hin.
      - intros E.
        assert (Hqp : q <> p) by (intros ->; rewrite Ehs in E; discriminate).
        destruct (Hsame q Hqp) as (_ & Eq & _). rewrite Eq in E.
        split; [apply Hsh; exact E|].
        destruct (Pid_eqb p q) eqn:Epq; [|reflexivity].
        apply Pid_eqb_eq in Epq. congruence. }
    intros q r Hqx Hqr.
    assert (Hqp : q <> p) by (intros ->; rewrite Ehx in Hqx; discriminate).
    destruct (Hsame q Hqp) as (Eq & _). rewrite Eq in Hqx.
    destruct (Pid_eqb p r) eqn:Epr.
    + apply Pid_eqb_eq in Epr. subst r. apply holds_none. split; assumption.
    + assert (Hrp : r <> p).
      { intros ->. rewrite Pid_eqb_refl in Epr. discriminate. }
      destruct (Hsame r Hrp) as (_ & _ & ->).
      apply (Halone q r); assumption.
Qed.

Lemma run_lock_inv sched :
  forall G, lock_inv G -> lock_inv (run c sched G).
Proof.
  induction sched as [|p sched IH]; intros G HI; simpl; [exact HI|].
  destruct (step c p G) as [G'| | |] eqn:Hstep; try (apply IH; exact HI).
  apply IH. eapply step_lock_inv; eassumption.
Qed.

Lemma race_start_lock_inv G : race_start G -> lock_inv G.
Proof.
  intros (HA & HB & (Hx & Hs) & _).
  unfold observed_deadline in HA, HB.
  assert (Hn : forall p, holds (proc G p) = None).
  { intros []; unfold holds; simpl; [rewrite HA | rewrite HB]; reflexivity. }
  unfold lock_inv. rewrite Hx, Hs.
  split; [|split].
  - intros p. unfold holds_exclusive. rewrite Hn. split; discriminate.
  - intros p. unfold holds_shared. rewrite Hn. split; [intros [] | discriminate].
  - intros p q _ _. apply Hn.
Qed.

(* the two backends are never in the exclusive sections together *)
Lemma lock_inv_exclusion G :
  lock_inv G ->
  holds_exclusive (g_A G) && holds_exclusive (g_B G) = false.
Proof.
  intros (Hex & _ & Halone).
  destruct (holds_exclusive (g_A G)) eqn:EA; [|reflexivity].
  simpl.
  assert (Hb : holds (proc G PB) = None)
    by (apply (Halone PA PB); [exact EA | discriminate]).
  apply holds_none in Hb. apply Hb.
Qed.

End RaceLock.

(** ** Progress of a race *)

Section RaceProgress.

Import Race.

Variable c : Config.
Variable D : Z.
Variable F : string.

Hypothesis deadline_at_now :
  next_rotation_time_at (guc_pgaudit_log_rotation_age (c_guc c)) (c_now c)
                        (tm_gmtoff (c_host c) (c_now c)) = Some D.
Hypothesis filename_of_period :
  audit_filename (c_host c) (c_guc c) (current_rotation_time (c_guc c) D) = Some F.
Hypothesis fopen_succeeds : c_fopen c F = true.

#[local] Arguments acquire : simpl never.
#[local] Arguments release : simpl never.

Lemma run_app s1 s2 G : run c (s1 ++ s2) G = run c s2 (run c s1 G).
Proof.
  revert G. induction s1 as [|p s1 IH]; intros G; simpl; [reflexivity|].
  destruct (step c p G); apply IH.
Qed.

(* every step brings the backend that takes it closer to its end *)
Lemma step_decreases p G G' :
  step c p G = Stepped G' ->
  (steps_left (proc G' p) < steps_left (proc G p))%nat
  /\ forall q, q <> p -> proc G' q = proc G q.
Proof.
  intros Hstep.
  destruct G as [s l st A B].
  unfold step, locked, unlocked, goto in Hstep.
  destruct p; simpl in *.
  - destruct A as [pcX inX fhX rotX wrX]; simpl in *.
    destruct pcX as [| | | | | | | | |b| |t|t| | | | |opened| |ok];
      simpl in *;
      repeat match type of Hstep with
             | context [match ?x with _ => _ end] =>
               let E := fresh "E" in destruct x eqn:E
             end;
      try discriminate Hstep;
      injection Hstep as <-; unfold steps_left; simpl;
      (split; [lia | intros q Hq; destruct q; [congruence || reflexivity
                                              | congruence || reflexivity]]).
  - destruct B as [pcX inX fhX rotX wrX]; simpl in *.
    destruct pcX as [| | | | | | | | |b| |t|t| | | | |opened| |ok];
      simpl in *;
      repeat match type of Hstep with
             | context [match ?x with _ => _ end] =>
               let E := fresh "E" in destruct x eqn:E
             end;
      try discriminate Hstep;
      injection Hstep as <-; unfold steps_left; simpl;
      (split; [lia | intros q Hq; destruct q; [congruence || reflexivity
                                              | congruence || reflexivity]]).
Qed.

(* a backend in the race moves, unless it waits for the lock or is done *)
Lemma step_outcome p G :
  proc_ok c D F (g_shm G) (g_stored G) p (proc G p) ->
  (exists G', step c p G = Stepped G')
  \/ (holds (proc G p) = None
      /\ (exclusive (g_lock G) <> None \/ shared (g_lock G) <> []))
  \/ is_done (proc G p) = true.
Proof.
  intros IP.
  destruct G as [s l st A B].
  unfold step, locked, unlocked, goto, acquire.
  destruct p; simpl in *.
  - destruct A as [pcX inX fhX rotX wrX]; unfold proc_ok in IP; simpl in *.
    destruct pcX as [| | | | | | | | |b| |t|t| | | | |opened| |ok];
      simpl in *; try contradiction;
      repeat match goal with H : _ /\ _ |- _ => destruct H end;
      try subst t; try subst fhX;
      rewrite ?deadline_at_now, ?filename_of_period;
      try (left; eexists; reflexivity);
      try (right; right; reflexivity).
    all: unfold holds; simpl.
    all: destruct (exclusive l) eqn:Ex;
      [right; left; split; [reflexivity | left; discriminate]|].
    all: try (left; eexists; reflexivity).
    all: destruct (shared l) eqn:Es; [left; eexists; reflexivity|].
    all: right; left; split; [reflexivity | right; discriminate].
  - destruct B as [pcX inX fhX rotX wrX]; unfold proc_ok in IP; simpl in *.
    destruct pcX as [| | | | | | | | |b| |t|t| | | | |opened| |ok];
      simpl in *; try contradiction;
      repeat match goal with H : _ /\ _ |- _ => destruct H end;
      try subst t; try subst fhX;
      rewrite ?deadline_at_now, ?filename_of_period;
      try (left; eexists; reflexivity);
      try (right; right; reflexivity).
    all: unfold holds; simpl.
    all: destruct (exclusive l) eqn:Ex;
      [right; left; split; [reflexivity | left; discriminate]|].
    all: try (left; eexists; reflexivity).
    all: destruct (shared l) eqn:Es; [left; eexists; reflexivity|].
    all: right; left; split; [reflexivity | right; discriminate].
Qed.

Lemma is_done_holds P : is_done P = true -> holds P = None.
Proof. unfold is_done, holds. destruct (pc P); try discriminate; reflexivity. Qed.

(* a lock that is not free is held by somebody *)
Lemma lock_inv_holder G :
  lock_inv G ->
  exclusive (g_lock G) <> None \/ shared (g_lock G) <> [] ->
  exists p, holds (proc G p) <> None.
Proof.
  intros (Hex & Hsh & _) [Hx|Hs].
  - destruct (exclusive (g_lock G)) as [h|] eqn:E; [|contradiction].
    exists h. assert (Hh : holds_exclusive (proc G h) = true)
      by (apply Hex; reflexivity).
    unfold holds_exclusive in Hh. intros N. rewrite N in Hh. discriminate.
  - destruct (shared (g_lock G)) as [|h sh] eqn:E; [contradiction|].
    exists h. assert (Hh : holds_shared (proc G h) = true).
    { apply Hsh. left. reflexivity. }
    unfold holds_shared in Hh. intros N. rewrite N in Hh. discriminate.
Qed.

(* while a backend is not done, one of the two can move *)
Lemma race_progress G :
  race_inv c D F G -> lock_inv G -> all_done G = false ->
  exists p G', step c p G = Stepped G'.
Proof.
  intros (IA & IB & _) HL Hnd.
  destruct (step_outcome PA G IA) as [(G' & E)|HA]; [eauto|].
  destruct (step_outcome PB G IB) as [(G' & E)|HB]; [eauto|].
  exfalso.
  assert (HnA : holds (proc G PA) = None)
    by (destruct HA as [(H & _)|H]; [exact H | apply is_done_holds; exact H]).
  assert (HnB : holds (proc G PB) = None)
    by (destruct HB as [(H & _)|H]; [exact H | apply is_done_holds; exact H]).
  assert (Hlock : exclusive (g_lock G) <> None \/ shared (g_lock G) <> []).
  { destruct HA as [(_ & H)|HdA]; [exact H|].
    destruct HB as [(_ & H)|HdB]; [exact H|].
    unfold all_done in Hnd. simpl in HdA, HdB.
    rewrite HdA, HdB in Hnd. discriminate. }
  destruct (lock_inv_holder G HL Hlock) as ([] & Hp); contradiction.
Qed.

Lemma steps_left_zero P : steps_left P = 0%nat -> is_done P = true.
Proof. unfold steps_left, is_done. destruct (pc P); try discriminate; reflexivity. Qed.

(* whatever has happened so far, the race can be run to its end *)
Lemma race_completes (n : nat) :
  forall G,
    (steps_left (g_A G) + steps_left (g_B G) <= n)%nat ->
    race_inv c D F G -> lock_inv G ->
    exists sched, all_done (run c sched G) = true.
Proof.
  induction n as [|n IH]; intros G Hn HI HL.
  - exists []. simpl. unfold all_done.
    rewrite !steps_left_zero by lia. reflexivity.
  - destruct (all_done G) eqn:Hd; [exists []; exact Hd|].
    destruct (race_progress G HI HL Hd) as (p & G' & Hstep).
    destruct (step_decreases p G G' Hstep) as (Hlt & Hother).
    destruct (IH G') as (sched & Hs).
    + destruct p; simpl in Hlt.
      * pose proof (Hother PB ltac:(discriminate)) as E. simpl in E.
        rewrite E. lia.
      * pose proof (Hother PA ltac:(discriminate)) as E. simpl in E.
        rewrite E. lia.
    + eapply step_race_inv; eassumption.
    + eapply step_lock_inv; eassumption.
    + exists (p :: sched). simpl. rewrite Hstep. exact Hs.
Qed.

End RaceProgress.

(** ** The interleaving model against the C function *)

Section RaceSolo.

Import Race.

Variable c : Config.

#[local] Arguments Z.eqb : simpl never.
#[local] Arguments Z.geb : simpl never.

(** A backend that runs the rotation check alone, from its first program
    point on a free lock, ends with the value and the shared structure that
    [pgauditlogtofile_needs_rotate_file] computes in a world with the same
    shared structure, the same last-known filename, and a clock that shows
    the instant of the race. *)
Lemma solo_needs_rotate_file (G : Global) (w : World) :
  pc (g_A G) = N_force ->
  lock_free (g_lock G) ->
  pgaudit_log_shm w = Some (g_shm G) ->
  filename_in_use (backend w) = p_filename_in_use (g_A G) ->
  host w = c_host c -> guc w = c_guc c ->
  (forall k, os_time (os w) k = c_now c) ->
  match pgauditlogtofile_needs_rotate_file w with
  | Some (b, w') =>
    exists k,
      pc (g_A (run c (repeat PA k) G)) = R_return b
      /\ pgaudit_log_shm w' = Some (g_shm (run c (repeat PA k) G))
      /\ lock_free (g_lock (run c (repeat PA k) G))
  | None =>
    step c PA (run c (repeat PA 4) G) = Crashed
  end.
Proof.
  intros Hpc (Hx & Hs) Hshm Hname Hhost Hguc Hclock.
  rewrite (needs_rotate_file_run w (g_shm G) Hshm).
  unfold names_differ, deadline_passed, clock_now.
  rewrite Hname, Hhost, Hguc, !Hclock.
  destruct G as [s [x sh] st A B]. destruct A as [pcA inA fhA rotA wrA].
  simpl in *. subst pcA x sh.
  destruct (force_rotation s) eqn:Hf.
  - exists 4%nat. cbn. rewrite Hf. cbn. repeat split.
  - destruct (pg_strcasecmp _ _ _ =? 0) eqn:Hn; cbn [negb].
    2:{ exists 2%nat. cbn. rewrite Hf. cbn. rewrite Hn. cbn.
        repeat split; assumption. }
    destruct (c_now c >=? next_rotation_time s) eqn:Hd.
    + destruct (next_rotation_time_at _ _ _) as [t|] eqn:Ht.
      * exists 6%nat. cbn. rewrite Hf. cbn. rewrite Hn. cbn.
        rewrite Hd. cbn. rewrite Ht. cbn. repeat split.
      * cbn. rewrite Hf. cbn. rewrite Hn. cbn. rewrite Hd. cbn.
        rewrite Ht. reflexivity.
    + exists 3%nat. cbn. rewrite Hf. cbn. rewrite Hn. cbn.
      rewrite Hd. cbn. repeat split; assumption.
Qed.

End RaceSolo.

(** C4, what the code does.  Two backends have both seen the deadline
    passed, at the same instant, and neither has taken the lock yet.  The
    comment on the branch (lines 334-335) reserves it for the backend that is
    the first to notice, but the test is made before the lock is taken and is
    not repeated under it, and LWLockAcquire waits until the lock is granted:
    there is no losing path, and the backend that comes second stores the
    deadline as well.  However the two are interleaved, they are never in an exclusive section
    together, a backend that is about to store the deadline holds the lock in
    exclusive mode, and the run can always be brought to its end; at the end
    both backends have stored the deadline, one after the other and with the
    same value, both have returned true from the check, and both have written
    their record to the file of the period that ends at that deadline, which
    is the shared filename. *)
Theorem deadline_race (c : Race.Config) (D : Z) (F : string) (G0 : Race.Global) :
  next_rotation_time_at (guc_pgaudit_log_rotation_age (Race.c_guc c))
    (Race.c_now c) (tm_gmtoff (Race.c_host c) (Race.c_now c)) = Some D ->
  audit_filename (Race.c_host c) (Race.c_guc c)
    (current_rotation_time (Race.c_guc c) D) = Some F ->
  Race.c_fopen c F = true ->
  Race.race_start G0 ->
  forall sched,
    let G := Race.run c sched G0 in
    Race.holds_exclusive (Race.g_A G) && Race.holds_exclusive (Race.g_B G) = false
    /\ (forall p, Race.pc (Race.proc G p) = Race.N_time_store ->
                  Race.exclusive (Race.g_lock G) = Some p)
    /\ (exists more, Race.all_done (Race.run c (sched ++ more) G0) = true)
    /\ (Race.all_done G = true ->
        length (Race.g_stored G) = 2%nat
        /\ In Race.PA (Race.g_stored G) /\ In Race.PB (Race.g_stored G)
        /\ next_rotation_time (Race.g_shm G) = D
        /\ shm_filename (Race.g_shm G) = F
        /\ (forall p,
              Race.p_rotate (Race.proc G p) = Some true
              /\ Race.pc (Race.proc G p) = Race.Done true
              /\ Race.p_wrote (Race.proc G p) = Some F
              /\ Race.p_filename_in_use (Race.proc G p) = F)).
Proof.
  intros HD HF Hopen Hstart sched G.
  assert (HI : Race.race_inv c D F G)
    by (apply run_race_inv; try assumption; apply race_start_inv; exact Hstart).
  assert (HL : Race.lock_inv G)
    by (apply run_lock_inv; apply race_start_lock_inv; exact Hstart).
  split; [apply lock_inv_exclusion; exact HL|].
  split.
  { intros p Hpc. destruct HL as (Hex & _). apply Hex.
    unfold Race.holds_exclusive, Race.holds. rewrite Hpc. reflexivity. }
  split.
  { destruct (race_completes c D F HD HF Hopen _ G (Nat.le_refl _) HI HL)
      as (more & Hmore).
    exists more. rewrite run_app. exact Hmore. }
  intros Hdone. apply (race_inv_done c D F G HI Hdone).
Qed.

Lemma deadline_race_witness :
  length (Race.g_stored
            (Race.run example_config one_after_the_other race_start_global))
  = 2%nat
  /\ shm_filename
       (Race.g_shm (Race.run example_config one_after_the_other race_start_global))
     = "log/audit.log.3600"%string
  /\ forall p,
       Race.p_wrote
         (Race.proc (Race.run example_config one_after_the_other race_start_global) p)
       = Some "log/audit.log.3600"%string.
Proof.
  assert (Hstart : Race.race_start race_start_global).
  { unfold Race.race_start, Race.observed_deadline, Race.lock_free.
    repeat split; vm_compute; reflexivity. }
  assert (HD : next_rotation_time_at
                 (guc_pgaudit_log_rotation_age (Race.c_guc example_config))
                 (Race.c_now example_config)
                 (tm_gmtoff (Race.c_host example_config)
                            (Race.c_now example_config)) = Some 7200)
    by (vm_compute; reflexivity).
  assert (HF : audit_filename (Race.c_host example_config)
                 (Race.c_guc example_config)
                 (current_rotation_time (Race.c_guc example_config) 7200)
               = Some "log/audit.log.3600"%string)
    by (vm_compute; reflexivity).
  assert (Hdone : Race.all_done
                    (Race.run example_config one_after_the_other
                              race_start_global) = true)
    by (vm_compute; reflexivity).
  destruct (deadline_race example_config 7200 "log/audit.log.3600"
              race_start_global HD HF eq_refl Hstart one_after_the_other)
    as (_ & _ & _ & Hend).
  destruct (Hend Hdone) as (Hlen & _ & _ & _ & Hname & Hp).
  split; [exact Hlen|]. split; [exact Hname|].
  intros p. destruct (Hp p) as (_ & _ & Hw & _). exact Hw.
Defined.

(** C4 fails on the code: when both backends have seen the deadline passed,
    the one that gets the lock second stores the deadline as well, so the
    recomputation is executed twice, not once, against the claim and against
    the comment of the branch. *)
Lemma deadline_race_both_store :
  ~ (forall (c : Race.Config) (G0 : Race.Global) (sched : list Race.Pid),
        Race.race_start G0 ->
        Race.all_done (Race.run c sched G0) = true ->
        length (Race.g_stored (Race.run c sched G0)) = 1%nat).
Proof.
  intros H.
  assert (Hstart : Race.race_start race_start_global).
  { unfold Race.race_start, Race.observed_deadline, Race.lock_free.
    repeat split; vm_compute; reflexivity. }
  assert (Hdone : Race.all_done
                    (Race.run example_config one_after_the_other
                              race_start_global) = true)
    by (vm_compute; reflexivity).
  specialize (H example_config _ one_after_the_other Hstart Hdone).
  vm_compute in H. discriminate H.
Qed.

(** ** The file of a backend *)

Section Files.

Lemma calculate_filename_run (w : World) (shm : pgAuditLogToFileShm) :
  pgaudit_log_shm w = Some shm ->
  pgauditlogtofile_calculate_filename w
  = match filename_at w shm with
    | Some name => Some (tt, world_after_filename w shm name)
    | None => None
    end.
Proof.
  intros Hshm.
  unfold pgauditlogtofile_calculate_filename, filename_at, bind, shm_get, gets.
  rewrite Hshm.
  unfold LWLockAcquire, LWLockRelease, emit, modify. simpl.
  destruct (audit_filename _ _ _) as [name|]; [|reflexivity].
  unfold shm_set; simpl. rewrite Hshm.
  unfold world_after_filename, with_trace, with_shm, lock_unlock; simpl.
  rewrite <- app_assoc. reflexivity.
Qed.

Lemma close_file_run (w : World) :
  pgauditlogtofile_close_file w = Some (tt, world_after_close w).
Proof.
  unfold pgauditlogtofile_close_file, world_after_close, bind, gets.
  destruct (file_handler (backend w)) as [f|]; reflexivity.
Qed.

Lemma is_open_file_run (w : World) :
  pgauditlogtofile_is_open_file w
  = Some (match file_handler (backend w) with Some _ => true | None => false end,
          w).
Proof.
  unfold pgauditlogtofile_is_open_file, bind, gets.
  destruct (file_handler (backend w)); reflexivity.
Qed.

Lemma World_ext (a b : World) :
  host a = host b -> guc a = guc b -> os a = os b -> os_calls a = os_calls b ->
  pgaudit_log_shm a = pgaudit_log_shm b -> backend a = backend b ->
  trace a = trace b -> a = b.
Proof. destruct a, b; simpl; intros; subst; reflexivity. Qed.

Lemma open_file_run (w : World) (shm : pgAuditLogToFileShm) :
  pgaudit_log_shm w = Some shm ->
  pgauditlogtofile_open_file w = Some (fopen_at w shm, world_after_open w shm).
Proof.
  intros Hshm.
  unfold pgauditlogtofile_open_file, bind, gets, LWLockAcquire, LWLockRelease,
    emit, modify, shm_get, fopen_append, ereport, backend_set.
  simpl. rewrite Hshm. simpl.
  unfold fopen_at.
  destruct (os_fopen (os w) (os_calls w) (shm_filename shm)) eqn:E; simpl;
    unfold ret; apply f_equal, f_equal;
    (apply World_ext; simpl; try reflexivity;
     unfold backend_after_open, open_events, open_diagnostic, open_mask, fopen_at;
     rewrite E; simpl; rewrite <- ?app_assoc; reflexivity).
Qed.

Lemma is_enabled_run (w : World) :
  pgauditlogtofile_is_enabled w = Some (enabled w, w).
Proof.
  unfold pgauditlogtofile_is_enabled, enabled, strlen, ret.
  destruct (pgaudit_log_shm w); [|reflexivity].
  destruct (guc_pgaudit_log_directory (guc w)) as [d|]; [|reflexivity].
  destruct (guc_pgaudit_log_filename (guc w)) as [f|]; [|reflexivity].
  now rewrite negb_orb.
Qed.

Lemma call_prev_hook_run (edata : ErrorData) (w : World) :
  call_prev_emit_log_hook edata w = Some (tt, world_after_prev_hook w edata).
Proof.
  unfold call_prev_emit_log_hook, world_after_prev_hook, prev_hook_events,
    bind, gets, emit, modify, ret.
  destruct (prev_emit_log_hook (backend w)); [reflexivity|].
  destruct w; unfold with_trace; simpl. now rewrite app_nil_r.
Qed.

(* the comparison of a name with itself *)
Lemma pg_strcasecmp_refl (lc : Locale) (s : string) : pg_strcasecmp lc s s = 0.
Proof.
  induction s as [|c s IH]; simpl.
  - reflexivity.
  - rewrite Z.eqb_refl. simpl. rewrite Z.eqb_refl. simpl.
    destruct (uchar c =? 0); [reflexivity | exact IH].
Qed.

End Files.

(** ** The lock along the events of a call *)

Section Discipline.



Lemma disciplined_refl (w : World) : disciplined w w [].
Proof. exists []. split; [now rewrite app_nil_r | split; reflexivity]. Qed.




Lemma disciplined_os_calls (w : World) (n : nat) :
  disciplined w (with_os_calls w n) [].
Proof.
  exists []. split; [simpl; now rewrite app_nil_r | split; reflexivity].
Qed.

Lemma needs_rotate_file_disciplined w b w1 :
  pgauditlogtofile_needs_rotate_file w = Some (b, w1) -> disciplined w w1 [].
Proof.
  intros H.
  destruct (pgaudit_log_shm w) as [shm|] eqn:Hshm.
  2:{ unfold pgauditlogtofile_needs_rotate_file, bind, shm_get in H.
      rewrite Hshm in H. discriminate. }
  rewrite (needs_rotate_file_run w shm Hshm) in H.
  destruct (force_rotation shm).
  { injection H as _ <-. exists lock_unlock. repeat split. }
  destruct (names_differ w shm).
  { injection H as _ <-. apply disciplined_refl. }
  destruct (deadline_passed w shm).
  - destruct (next_rotation_time_at _ _ _); [|discriminate].
    injection H as _ <-. exists lock_unlock. repeat split.
  - injection H as _ <-. apply disciplined_os_calls.
Qed.

Lemma calculate_filename_disciplined w u w1 :
  pgauditlogtofile_calculate_filename w = Some (u, w1) -> disciplined w w1 [].
Proof.
  intros H.
  destruct (pgaudit_log_shm w) as [shm|] eqn:Hshm.
  2:{ unfold pgauditlogtofile_calculate_filename, bind, shm_get in H.
      rewrite Hshm in H. discriminate. }
  rewrite (calculate_filename_run w shm Hshm) in H.
  destruct (filename_at w shm); [|discriminate].
  injection H as _ <-. exists lock_unlock. repeat split.
Qed.





End Discipline.

(** ** The preparation of the file, case by case *)

Section Prepare.

Lemma world_after_close_shm (w : World) :
  pgaudit_log_shm (world_after_close w) = pgaudit_log_shm w.
Proof. unfold world_after_close. destruct (file_handler (backend w)); reflexivity. Qed.

Lemma world_after_close_file_handler (w : World) :
  file_handler (backend (world_after_close w)) = None.
Proof.
  unfold world_after_close.
  destruct (file_handler (backend w)) eqn:E; [reflexivity | exact E].
Qed.

Lemma world_after_close_trace (w : World) :
  trace (world_after_close w) = (trace w ++ close_events w)%list.
Proof.
  unfold world_after_close, close_events.
  destruct (file_handler (backend w)); simpl; [reflexivity | now rewrite app_nil_r].
Qed.

Lemma world_after_close_rest (w : World) :
  host (world_after_close w) = host w
  /\ guc (world_after_close w) = guc w
  /\ os (world_after_close w) = os w
  /\ os_calls (world_after_close w) = os_calls w
  /\ filename_in_use (backend (world_after_close w)) = filename_in_use (backend w).
Proof.
  unfold world_after_close.
  destruct (file_handler (backend w)); simpl; repeat split.
Qed.

(* a rotation is due: new name, close, open *)
Lemma prepare_file_rotating (w wa : World) (sa : pgAuditLogToFileShm)
    (name : string) :
  pgauditlogtofile_needs_rotate_file w = Some (true, wa) ->
  pgaudit_log_shm wa = Some sa ->
  filename_at wa sa = Some name ->
  prepare_file w
  = Some (fopen_at (world_after_close (world_after_filename wa sa name))
                   (set_shm_filename sa name),
          world_after_open (world_after_close (world_after_filename wa sa name))
                           (set_shm_filename sa name)).
Proof.
  intros Hn Hs Hname.
  unfold prepare_file, bind. rewrite Hn.
  rewrite (calculate_filename_run wa sa Hs), Hname.
  rewrite close_file_run, is_open_file_run.
  rewrite world_after_close_file_handler. simpl.
  apply open_file_run. rewrite world_after_close_shm. reflexivity.
Qed.

(* no rotation is due: the file is opened if it is not open *)
Lemma prepare_file_resting (w wa : World) (sa : pgAuditLogToFileShm) :
  pgauditlogtofile_needs_rotate_file w = Some (false, wa) ->
  pgaudit_log_shm wa = Some sa ->
  prepare_file w
  = match file_handler (backend wa) with
    | Some _ => Some (true, wa)
    | None => Some (fopen_at wa sa, world_after_open wa sa)
    end.
Proof.
  intros Hn Hs.
  unfold prepare_file, bind. rewrite Hn. simpl.
  rewrite is_open_file_run.
  destruct (file_handler (backend wa)); simpl; [reflexivity|].
  apply open_file_run. exact Hs.
Qed.

(* a returning preparation went one of the two ways *)
Lemma prepare_file_cases (w w1 : World) (ok : bool) :
  prepare_file w = Some (ok, w1) ->
  exists rotate wa sa,
    pgauditlogtofile_needs_rotate_file w = Some (rotate, wa)
    /\ pgaudit_log_shm wa = Some sa
    /\ (rotate = true -> exists name, filename_at wa sa = Some name).
Proof.
  intros H. unfold prepare_file, bind in H.
  destruct (pgauditlogtofile_needs_rotate_file w) as [[rotate wa]|] eqn:Hn;
    [|discriminate].
  destruct (needs_rotate_file_frame _ _ _ Hn) as (_ & _ & sa & Hs).
  exists rotate, wa, sa. split; [reflexivity|]. split; [exact Hs|].
  intros ->.
  rewrite (calculate_filename_run wa sa Hs) in H.
  destruct (filename_at wa sa) as [name|]; [eauto | discriminate].
Qed.

(* the rotation check hands the backend on as it found it *)
Lemma needs_rotate_file_backend w b w1 :
  pgauditlogtofile_needs_rotate_file w = Some (b, w1) ->
  backend w1 = backend w /\ host w1 = host w.
Proof.
  intros H.
  destruct (pgaudit_log_shm w) as [shm|] eqn:Hshm.
  2:{ unfold pgauditlogtofile_needs_rotate_file, bind, shm_get in H.
      rewrite Hshm in H. discriminate. }
  rewrite (needs_rotate_file_run w shm Hshm) in H.
  destruct (force_rotation shm); [|destruct (names_differ w shm);
    [|destruct (deadline_passed w shm);
      [destruct (next_rotation_time_at _ _ _); [|discriminate]|]]];
    injection H as _ <-; split; reflexivity.
Qed.

(* what a check that returns false has seen *)
Lemma needs_rotate_file_false w w1 :
  pgauditlogtofile_needs_rotate_file w = Some (false, w1) ->
  exists shm, pgaudit_log_shm w = Some shm
              /\ force_rotation shm = false
              /\ names_differ w shm = false
              /\ deadline_passed w shm = false
              /\ w1 = with_os_calls w (S (os_calls w)).
Proof.
  intros H.
  destruct (pgaudit_log_shm w) as [shm|] eqn:Hshm.
  2:{ unfold pgauditlogtofile_needs_rotate_file, bind, shm_get in H.
      rewrite Hshm in H. discriminate. }
  rewrite (needs_rotate_file_run w shm Hshm) in H.
  exists shm. split; [reflexivity|].
  destruct (force_rotation shm); [discriminate|].
  destruct (names_differ w shm); [discriminate|].
  destruct (deadline_passed w shm).
  - destruct (next_rotation_time_at _ _ _); discriminate.
  - injection H as <-. repeat split.
Qed.

End Prepare.

(** ** The hook, path by path *)

Section Hook.

Lemma emit_log_cases (edata : ErrorData) (w : World) (msg : string) :
  message edata = Some msg ->
  pgauditlogtofile_emit_log edata w
  = if negb (is_audit_message (host w) msg) || negb (enabled w)
    then Some (edata, world_after_prev_hook w edata)
    else match pgauditlogtofile_record_audit edata w with
         | Some (true, w1) => Some (set_output_to_server edata false, w1)
         | Some (false, w1) => Some (edata, world_after_prev_hook w1 edata)
         | None => None
         end.
Proof.
  intros Hmsg.
  unfold pgauditlogtofile_emit_log, bind, gets. rewrite Hmsg.
  unfold is_audit_message.
  destruct (pg_strncasecmp _ _ _ _ =? 0); simpl.
  - rewrite is_enabled_run. destruct (enabled w); simpl.
    + destruct (pgauditlogtofile_record_audit edata w) as [[[] w1]|];
        [reflexivity| |reflexivity].
      now rewrite call_prev_hook_run.
    + now rewrite call_prev_hook_run.
  - now rewrite call_prev_hook_run.
Qed.

Lemma enabled_false_iff (w : World) :
  enabled w = false
  <-> (pgaudit_log_shm w = None
       \/ guc_pgaudit_log_directory (guc w) = None
       \/ guc_pgaudit_log_filename (guc w) = None
       \/ guc_pgaudit_log_directory (guc w) = Some ""
       \/ guc_pgaudit_log_filename (guc w) = Some "").
Proof.
  unfold enabled.
  destruct (pgaudit_log_shm w) as [s|]; [|intuition].
  destruct (guc_pgaudit_log_directory (guc w)) as [d|]; [|intuition].
  destruct (guc_pgaudit_log_filename (guc w)) as [f|]; [|intuition].
  destruct d as [|c d], f as [|c' f]; simpl; intuition; try discriminate.
Qed.

Lemma after_format_filename_in_use (w : World) :
  filename_in_use (backend (world_after_format w)) = filename_in_use (backend w).
Proof.
  unfold world_after_format, statics_after_format, pid_check. simpl.
  destruct (log_my_pid (backend w) =? MyProcPid (host w)); simpl;
    try match goal with
        | |- context [deref ?s =? 0] => destruct (deref s =? 0)
        end; reflexivity.
Qed.

(* the record goes through the preparation and, with a file, the write *)
Lemma record_audit_cases (edata : ErrorData) (w w2 : World) (ok : bool) :
  pgauditlogtofile_record_audit edata w = Some (ok, w2) ->
  exists okp w1,
    prepare_file w = Some (okp, w1)
    /\ (okp = false -> ok = false /\ w2 = w1)
    /\ (okp = true ->
        exists f shm,
          file_handler (backend w1) = Some f
          /\ pgaudit_log_shm w1 = Some shm
          /\ ok = (bytes_written w1 edata =? String.length (audit_line w1 edata))%nat
          /\ w2 = world_after_write w1 f shm edata).
Proof.
  intros H. rewrite record_audit_prepare in H.
  destruct (prepare_file w) as [[okp w1]|] eqn:Hp; [|discriminate].
  exists okp, w1. split; [reflexivity|].
  destruct okp.
  - split; [discriminate|]. intros _.
    destruct (prepare_file_frame _ _ _ Hp) as (_ & Hopen & shm & Hshm).
    destruct (Hopen eq_refl) as (f & Hf).
    rewrite (write_audit_run edata w1 f shm Hf Hshm) in H.
    injection H as <- <-. exists f, shm. repeat split; assumption.
  - split; [|discriminate]. intros _. injection H as <- <-. split; reflexivity.
Qed.




(* the open file stays the one the backend remembers the name of *)
Lemma prepare_file_handle (w w1 : World) (ok : bool) :
  handle_on_name_in_use w ->
  prepare_file w = Some (ok, w1) ->
  handle_on_name_in_use w1
  /\ (ok = true ->
      exists shm1, pgaudit_log_shm w1 = Some shm1
                   /\ names_differ w1 shm1 = false).
Proof.
  intros Hinv H.
  destruct (prepare_file_cases _ _ _ H) as (rotate & wa & sa & Hn & Hs & Hname).
  assert (Opened : forall wc sc,
             handle_on_name_in_use (world_after_open wc sc)
             /\ (fopen_at wc sc = true ->
                 names_differ (world_after_open wc sc) sc = false)).
  { intros wc sc. unfold handle_on_name_in_use, names_differ, world_after_open,
      backend_after_open. simpl.
    destruct (fopen_at wc sc); simpl.
    - split.
      + intros f Hf. injection Hf as <-. reflexivity.
      + intros _. now rewrite pg_strcasecmp_refl.
    - split; [discriminate | discriminate]. }
  destruct rotate.
  - destruct (Hname eq_refl) as (name & Hnm).
    rewrite (prepare_file_rotating w wa sa name Hn Hs Hnm) in H.
    injection H as <- <-.
    destruct (Opened (world_after_close (world_after_filename wa sa name))
                     (set_shm_filename sa name)) as (O1 & O2).
    split; [exact O1|]. intros Hok.
    exists (set_shm_filename sa name). split; [|exact (O2 Hok)].
    unfold world_after_open; simpl. rewrite world_after_close_shm. reflexivity.
  - rewrite (prepare_file_resting w wa sa Hn Hs) in H.
    destruct (needs_rotate_file_false _ _ Hn) as (shm & Hshm & _ & Hnd & _ & ->).
    simpl in H, Hs.
    destruct (file_handler (backend w)) as [f|] eqn:Hf.
    + injection H as <- <-. split.
      * intros f' Hf'. simpl in Hf'. apply Hinv. exact Hf'.
      * intros _. exists shm. split; [exact Hshm | exact Hnd].
    + injection H as <- <-.
      destruct (Opened (with_os_calls w (S (os_calls w))) sa) as (O1 & O2).
      split; [exact O1|]. intros Hok. exists sa. split; [|exact (O2 Hok)].
      exact Hs.
Qed.

(* the file the preparation ends with has been opened by it on the shared
   name, or is the one that was open, the check having found nothing to do *)
Lemma prepare_file_origin (w w1 : World) :
  prepare_file w = Some (true, w1) ->
  exists shm1,
    pgaudit_log_shm w1 = Some shm1
    /\ (file_handler (backend w1) = Some (mkFILE (shm_filename shm1))
        \/ (file_handler (backend w1) = file_handler (backend w)
            /\ pgaudit_log_shm w = Some shm1
            /\ pgauditlogtofile_needs_rotate_file w = Some (false, w1))).
Proof.
  intros H.
  destruct (prepare_file_cases _ _ _ H) as (rotate & wa & sa & Hn & Hs & Hname).
  assert (Opened : forall wc sc,
             fopen_at wc sc = true ->
             file_handler (backend (world_after_open wc sc))
             = Some (mkFILE (shm_filename sc))).
  { intros wc sc E. unfold world_after_open, backend_after_open. simpl.
    now rewrite E. }
  destruct rotate.
  - destruct (Hname eq_refl) as (name & Hnm).
    rewrite (prepare_file_rotating w wa sa name Hn Hs Hnm) in H.
    injection H as Hok <-.
    exists (set_shm_filename sa name). split.
    + unfold world_after_open; simpl. rewrite world_after_close_shm. reflexivity.
    + left. apply Opened. exact Hok.
  - rewrite (prepare_file_resting w wa sa Hn Hs) in H.
    destruct (needs_rotate_file_false _ _ Hn) as (shm & Hshm & _ & _ & _ & Ewa).
    destruct (file_handler (backend wa)) as [f|] eqn:Hf.
    + injection H as <-. exists sa. split; [exact Hs|]. right.
      split; [rewrite Ewa; reflexivity|].
      split; [|exact Hn].
      rewrite Ewa in Hs. simpl in Hs. exact Hs.
    + injection H as Hok <-. exists sa. split; [exact Hs|].
      left. apply Opened. exact Hok.
Qed.

End Hook.

(** X1.  A record whose message does not carry the audit prefix is none of
    the business of the extension: the hook hands it, as it is, to the
    previous hook when one is installed, and returns it unchanged; shared
    memory, the statics of the backend, the clock and the file are not
    touched. *)
Theorem emit_log_skips_other_records
    (edata : ErrorData) (w : World) (msg : string) :
  message edata = Some msg ->
  is_audit_message (host w) msg = false ->
  pgauditlogtofile_emit_log edata w
  = Some (edata,
          with_trace w
            (trace w ++ (if prev_emit_log_hook (backend w)
                         then [EvPrevHook edata] else []))%list).
Proof.
  intros Hmsg Hno.
  rewrite (emit_log_cases edata w msg Hmsg), Hno. reflexivity.
Qed.

Lemma emit_log_skips_other_records_witness :
  pgauditlogtofile_emit_log plain_edata steady_world
  = Some (plain_edata, with_trace steady_world [EvPrevHook plain_edata]).
Proof.
  apply (emit_log_skips_other_records plain_edata steady_world
           "connection received").
  - reflexivity.
  - vm_compute; reflexivity.
Defined.

(** X2.  While the extension is not completely started and configured
    (shared memory is not attached, or the directory or the filename
    pattern is NULL or empty), an audit record is treated like any other
    record: it goes unchanged to the previous hook, and nothing else
    happens; in particular no name is computed from a NULL setting. *)
Theorem emit_log_disabled (edata : ErrorData) (w : World) (msg : string) :
  message edata = Some msg ->
  pgaudit_log_shm w = None
  \/ guc_pgaudit_log_directory (guc w) = None
  \/ guc_pgaudit_log_filename (guc w) = None
  \/ guc_pgaudit_log_directory (guc w) = Some ""
  \/ guc_pgaudit_log_filename (guc w) = Some "" ->
  pgauditlogtofile_is_enabled w = Some (false, w)
  /\ pgauditlogtofile_emit_log edata w
     = Some (edata,
             with_trace w
               (trace w ++ (if prev_emit_log_hook (backend w)
                            then [EvPrevHook edata] else []))%list).
Proof.
  intros Hmsg Hoff. apply enabled_false_iff in Hoff.
  split; [rewrite is_enabled_run, Hoff; reflexivity|].
  rewrite (emit_log_cases edata w msg Hmsg), Hoff, orb_true_r. reflexivity.
Qed.

Lemma emit_log_disabled_witness :
  pgauditlogtofile_is_enabled startup_world = Some (false, startup_world)
  /\ pgauditlogtofile_emit_log example_edata startup_world
     = Some (example_edata, with_trace startup_world []).
Proof.
  apply (emit_log_disabled example_edata startup_world
           "AUDIT: SESSION,1,1,READ,SELECT,,,select 1").
  - reflexivity.
  - left. reflexivity.
Defined.

(** X3.  When the extension is enabled, a file is ready and fwrite takes the
    whole line, the hook returns the audit record with [output_to_server]
    cleared and every other field as it was; the previous hook is not
    called, and the last two things done are the seek to the end and the
    write of the line.  Conversely, whatever the path, the record the hook
    returns is the one it was given, except that [output_to_server] may have
    been cleared: either it is cleared and the call ended with a complete
    fwrite, or the record is unchanged and the call ended by handing it to
    the previous hook, if one is installed. *)
Theorem emit_log_recorded :
  (forall edata w w1 msg,
      message edata = Some msg ->
      is_audit_message (host w) msg = true ->
      pgauditlogtofile_is_enabled w = Some (true, w) ->
      prepare_file w = Some (true, w1) ->
      bytes_written w1 edata = String.length (audit_line w1 edata) ->
      exists f w2,
        file_handler (backend w1) = Some f
        /\ pgauditlogtofile_emit_log edata w
           = Some (set_output_to_server edata false, w2)
        /\ trace w2
           = (trace w1
              ++ [EvFseekEnd (f_path f);
                  EvFwrite (f_path f) (audit_line w1 edata)
                           (String.length (audit_line w1 edata))])%list)
  /\ (forall edata w e' w',
         pgauditlogtofile_emit_log edata w = Some (e', w') ->
         (e' = edata
          /\ exists before,
              trace w'
              = (before ++ (if prev_emit_log_hook (backend w)
                            then [EvPrevHook edata] else []))%list)
         \/ (e' = set_output_to_server edata false
             /\ exists before path line,
                 trace w'
                 = (before ++ [EvFwrite path line (String.length line)])%list)).
Proof.
  split.
  - intros edata w w1 msg Hmsg Haudit Hen Hprep Hfull.
    destruct (prepare_file_frame _ _ _ Hprep) as (_ & Hopen & shm & Hshm).
    destruct (Hopen eq_refl) as (f & Hf).
    exists f, (world_after_write w1 f shm edata).
    split; [exact Hf|].
    rewrite is_enabled_run in Hen. injection Hen as Hen.
    rewrite (emit_log_cases edata w msg Hmsg), Haudit, Hen. simpl.
    rewrite record_audit_prepare, Hprep.
    rewrite (write_audit_run edata w1 f shm Hf Hshm).
    rewrite Hfull, Nat.eqb_refl.
    split; [reflexivity|].
    unfold world_after_write, write_events. simpl.
    rewrite Hfull, Nat.eqb_refl. reflexivity.
  - intros edata w e' w' H.
    destruct (message edata) as [msg|] eqn:Hmsg.
    2:{ unfold pgauditlogtofile_emit_log, bind, gets in H.
        rewrite Hmsg in H. discriminate. }
    rewrite (emit_log_cases edata w msg Hmsg) in H.
    destruct (negb (is_audit_message (host w) msg) || negb (enabled w)).
    { injection H as <- <-. left. split; [reflexivity|].
      exists (trace w). reflexivity. }
    destruct (pgauditlogtofile_record_audit edata w) as [[ok w2]|] eqn:Hrec;
      [|discriminate].
    destruct (record_audit_cases _ _ _ _ Hrec) as (okp & w1 & Hp & Hfalse & Htrue).
    destruct (prepare_file_frame _ _ _ Hp) as ((_ & _ & _ & _ & _ & _ & Hprev) & _).
    destruct ok.
    + injection H as <- <-. right. split; [reflexivity|].
      destruct okp; [|destruct (Hfalse eq_refl); discriminate].
      destruct (Htrue eq_refl) as (f & shm & Hf & Hshm & Hok & ->).
      symmetry in Hok. apply Nat.eqb_eq in Hok.
      exists (trace w1 ++ [EvFseekEnd (f_path f)])%list, (f_path f),
        (audit_line w1 edata).
      unfold world_after_write, write_events. simpl.
      rewrite Hok, Nat.eqb_refl. simpl. now rewrite <- app_assoc.
    + injection H as <- <-. left. split; [reflexivity|].
      exists (trace w2). unfold world_after_prev_hook, prev_hook_events. simpl.
      assert (E : prev_emit_log_hook (backend w2) = prev_emit_log_hook (backend w)).
      { destruct okp.
        - destruct (Htrue eq_refl) as (f & shm & _ & _ & _ & ->).
          rewrite world_after_write_prev_hook. exact Hprev.
        - destruct (Hfalse eq_refl) as (_ & ->). exact Hprev. }
      now rewrite E.
Qed.

Lemma emit_log_recorded_witness :
  exists f w2,
    file_handler (backend (world_of (prepare_file steady_world) steady_world))
    = Some f
    /\ pgauditlogtofile_emit_log example_edata steady_world
       = Some (set_output_to_server example_edata false, w2)
    /\ trace w2
       = (trace (world_of (prepare_file steady_world) steady_world)
          ++ [EvFseekEnd (f_path f);
              EvFwrite (f_path f)
                (audit_line (world_of (prepare_file steady_world) steady_world)
                            example_edata)
                (String.length
                   (audit_line (world_of (prepare_file steady_world) steady_world)
                               example_edata))])%list.
Proof.
  apply (proj1 emit_log_recorded example_edata steady_world
           (world_of (prepare_file steady_world) steady_world)
           "AUDIT: SESSION,1,1,READ,SELECT,,,select 1").
  - reflexivity.
  - vm_compute; reflexivity.
  - vm_compute; reflexivity.
  - vm_compute; reflexivity.
  - vm_compute; reflexivity.
Defined.



(** X5.  If the open file of a backend is the one it remembers the name of,
    this is still so after a record has been handled, whatever happened.
    Whenever the preparation ends with a file to write to, that file bears
    the name the backend remembers, and this name compares equal to the
    shared filename of that moment under pg_strcasecmp, that is, up to the
    case of letters.  It is the shared filename itself when the file has
    been opened by this preparation; otherwise the file is the one that was
    open already and the rotation check has returned false.  Equality up to
    case is all there is in that second case: a backend with its file open on
    log/AUDIT.log, while the shared filename is log/audit.log, writes its
    record to log/AUDIT.log. *)
Theorem written_file_matches_shared_name :
  (forall w w1,
      handle_on_name_in_use w ->
      prepare_file w = Some (true, w1) ->
      exists f shm1,
        file_handler (backend w1) = Some f
        /\ pgaudit_log_shm w1 = Some shm1
        /\ f_path f = filename_in_use (backend w1)
        /\ pg_strcasecmp (locale (host w1)) (f_path f) (shm_filename shm1) = 0
        /\ (f_path f = shm_filename shm1
            \/ (file_handler (backend w) = Some f
                /\ pgaudit_log_shm w = Some shm1
                /\ pgauditlogtofile_needs_rotate_file w = Some (false, w1))))
  /\ (forall edata w ok w2,
         handle_on_name_in_use w ->
         pgauditlogtofile_record_audit edata w = Some (ok, w2) ->
         handle_on_name_in_use w2)
  /\ (exists w2 shm2 line n,
         handle_on_name_in_use case_only_world
         /\ pgauditlogtofile_record_audit example_edata case_only_world
            = Some (true, w2)
         /\ pgaudit_log_shm w2 = Some shm2
         /\ shm_filename shm2 = "log/audit.log"
         /\ trace w2 = [EvFseekEnd "log/AUDIT.log";
                        EvFwrite "log/AUDIT.log" line n]).
Proof.
  split; [|split].
  - intros w w1 Hinv Hp.
    destruct (prepare_file_handle w w1 true Hinv Hp) as (H1 & H2).
    destruct (H2 eq_refl) as (shm1 & Hs & Hnd).
    destruct (prepare_file_frame _ _ _ Hp) as (_ & Hopen & _).
    destruct (Hopen eq_refl) as (f & Hf).
    exists f, shm1. split; [exact Hf|]. split; [exact Hs|].
    pose proof (H1 f Hf) as Hpath. split; [exact Hpath|].
    split.
    { rewrite Hpath. unfold names_differ in Hnd.
      apply negb_false_iff, Z.eqb_eq in Hnd. exact Hnd. }
    destruct (prepare_file_origin w w1 Hp) as (shm1' & Hs' & Horigin).
    rewrite Hs in Hs'. injection Hs' as <-.
    destruct Horigin as [Hnew | (Hsame & Hshm & Hn)].
    + left. rewrite Hf in Hnew. injection Hnew as ->. reflexivity.
    + right. split; [rewrite <- Hsame; exact Hf|]. split; assumption.
  - intros edata w ok w2 Hinv H.
    destruct (record_audit_cases _ _ _ _ H) as (okp & w1 & Hp & Hfalse & Htrue).
    destruct (prepare_file_handle w w1 okp Hinv Hp) as (H1 & _).
    destruct okp.
    + destruct (Htrue eq_refl) as (f & shm & _ & _ & _ & ->).
      intros f' Hf'. rewrite world_after_write_file_handler in Hf'.
      assert (E : filename_in_use (backend (world_after_write w1 f shm edata))
                  = filename_in_use (backend w1))
        by (unfold world_after_write; simpl; apply after_format_filename_in_use).
      rewrite E. apply H1. exact Hf'.
    + destruct (Hfalse eq_refl) as (_ & ->). exact H1.
  - exists (world_of (pgauditlogtofile_record_audit example_edata case_only_world)
                     case_only_world),
      {| shm_filename := "log/audit.log"; force_rotation := false;
         next_rotation_time := 2000 |},
      (audit_line (with_os_calls case_only_world 1) example_edata),
      (bytes_written (with_os_calls case_only_world 1) example_edata).
    split.
    { intros f Hf. vm_compute in Hf. injection Hf as <-. reflexivity. }
    split; [vm_compute; reflexivity|].
    split; [vm_compute; reflexivity|].
    split; [reflexivity|].
    vm_compute; reflexivity.
Qed.

Lemma written_file_matches_shared_name_witness :
  exists f shm1,
    file_handler (backend (world_of (prepare_file force_and_deadline_world)
                                    force_and_deadline_world)) = Some f
    /\ pgaudit_log_shm (world_of (prepare_file force_and_deadline_world)
                                 force_and_deadline_world) = Some shm1
    /\ f_path f
       = filename_in_use (backend (world_of (prepare_file force_and_deadline_world)
                                            force_and_deadline_world))
    /\ pg_strcasecmp
         (locale (host (world_of (prepare_file force_and_deadline_world)
                                 force_and_deadline_world)))
         (f_path f) (shm_filename shm1) = 0
    /\ (f_path f = shm_filename shm1
        \/ (file_handler (backend force_and_deadline_world) = Some f
            /\ pgaudit_log_shm force_and_deadline_world = Some shm1
            /\ pgauditlogtofile_needs_rotate_file force_and_deadline_world
               = Some (false,
                       world_of (prepare_file force_and_deadline_world)
                                force_and_deadline_world))).
Proof.
  apply (proj1 written_file_matches_shared_name force_and_deadline_world).
  - intros f Hf. vm_compute in Hf. injection Hf as <-. reflexivity.
  - vm_compute; reflexivity.
Defined.

(** X6.  While nothing is due (no rotation is forced, the backend's file is
    open on the shared name, the deadline is ahead of the clock), a record
    costs one reading of the clock for the check, one for the timestamp, a
    seek and a write: the lock is not taken, shared memory is not written,
    no file is opened or closed, and the result tells whether fwrite took
    the whole line. *)
Theorem steady_state_record
    (edata : ErrorData) (w : World) (shm : pgAuditLogToFileShm) (f : FILE) :
  pgaudit_log_shm w = Some shm ->
  force_rotation shm = false ->
  names_differ w shm = false ->
  deadline_passed w shm = false ->
  file_handler (backend w) = Some f ->
  let w0 := with_os_calls w (S (os_calls w)) in
  let ok := (bytes_written w0 edata =? String.length (audit_line w0 edata))%nat in
  exists w2,
    pgauditlogtofile_record_audit edata w = Some (ok, w2)
    /\ pgaudit_log_shm w2 = Some shm
    /\ file_handler (backend w2) = Some f
    /\ os_calls w2 = (3 + os_calls w)%nat
    /\ trace w2
       = (trace w
          ++ [EvFseekEnd (f_path f);
              EvFwrite (f_path f) (audit_line w0 edata) (bytes_written w0 edata)]
          ++ (if ok then [] else [write_diagnostic shm]))%list.
Proof.
  intros Hshm Hforce Hnames Hdead Hf w0 ok.
  assert (Hn : pgauditlogtofile_needs_rotate_file w = Some (false, w0)).
  { rewrite (needs_rotate_file_run w shm Hshm), Hforce, Hnames, Hdead.
    reflexivity. }
  assert (Hp : prepare_file w = Some (true, w0)).
  { rewrite (prepare_file_resting w w0 shm Hn Hshm). simpl. now rewrite Hf. }
  exists (world_after_write w0 f shm edata).
  split.
  { rewrite record_audit_prepare, Hp.
    apply (write_audit_run edata w0 f shm); assumption. }
  split.
  { unfold world_after_write; simpl. exact Hshm. }
  split; [rewrite world_after_write_file_handler; exact Hf|].
  split; [reflexivity|].
  reflexivity.
Qed.

Lemma steady_state_record_witness :
  let w0 := with_os_calls steady_world (S (os_calls steady_world)) in
  let ok := (bytes_written w0 example_edata
             =? String.length (audit_line w0 example_edata))%nat in
  exists w2,
    pgauditlogtofile_record_audit example_edata steady_world = Some (ok, w2)
    /\ pgaudit_log_shm w2 = Some example_shm
    /\ file_handler (backend w2) = Some (mkFILE "log/audit.log")
    /\ os_calls w2 = (3 + os_calls steady_world)%nat
    /\ trace w2
       = (trace steady_world
          ++ [EvFseekEnd (f_path (mkFILE "log/audit.log"));
              EvFwrite (f_path (mkFILE "log/audit.log"))
                (audit_line w0 example_edata) (bytes_written w0 example_edata)]
          ++ (if ok then [] else [write_diagnostic example_shm]))%list.
Proof.
  apply (steady_state_record example_edata steady_world example_shm
           (mkFILE "log/audit.log")).
  - reflexivity.
  - reflexivity.
  - vm_compute; reflexivity.
  - vm_compute; reflexivity.
  - reflexivity.
Defined.

(** X7.  When the check asks for a rotation, the new name is stored in
    shared memory under the lock, then the backend's file is closed if one
    is open, then the file of the new name is opened: on success the
    backend has its file on the new name and remembers it, on failure it is
    left without a file and with the name it remembered, and the record is
    not written.  A backend that has no file tries to open one at every
    record: the result of the preparation is then the answer of that fopen. *)
Theorem rotation_closes_then_opens :
  (forall w wa sa name,
      pgauditlogtofile_needs_rotate_file w = Some (true, wa) ->
      pgaudit_log_shm wa = Some sa ->
      filename_at wa sa = Some name ->
      let ok := os_fopen (os w) (os_calls wa) name in
      exists w1,
        prepare_file w = Some (ok, w1)
        /\ pgaudit_log_shm w1 = Some (set_shm_filename sa name)
        /\ trace w1
           = (trace wa ++ lock_unlock ++ close_events w
              ++ [EvMakePGDirectory (guc_pgaudit_log_directory (guc w));
                  EvLWLockAcquire LW_SHARED;
                  EvUmask (open_mask (host w));
                  EvFopen name ok;
                  EvUmaskRestore;
                  if ok then EvSetvbuf 8192
                  else open_diagnostic (set_shm_filename sa name);
                  EvLWLockRelease])%list
        /\ (if ok
            then file_handler (backend w1) = Some (mkFILE name)
                 /\ filename_in_use (backend w1) = name
            else file_handler (backend w1) = None
                 /\ filename_in_use (backend w1) = filename_in_use (backend w)))
  /\ (forall w ok w1,
         file_handler (backend w) = None ->
         prepare_file w = Some (ok, w1) ->
         exists before path after,
           trace w1 = (before ++ EvFopen path ok :: after)%list
           /\ (length (trace w) <= length before)%nat).
Proof.
  split.
  - intros w wa sa name Hn Hs Hname ok.
    destruct (needs_rotate_file_frame _ _ _ Hn)
      as ((Hh & Hg & Ho & _) & Hfh & _).
    destruct (needs_rotate_file_backend _ _ _ Hn) as (Hbe & _).
    eexists. split.
    { rewrite (prepare_file_rotating w wa sa name Hn Hs Hname).
      unfold fopen_at. simpl.
      destruct (world_after_close_rest (world_after_filename wa sa name))
        as (_ & _ & E3 & E4 & _).
      rewrite E3, E4. simpl. rewrite Ho. reflexivity. }
    destruct (world_after_close_rest (world_after_filename wa sa name))
      as (E1 & E2 & E3 & E4 & E5).
    assert (Eok : fopen_at (world_after_close (world_after_filename wa sa name))
                           (set_shm_filename sa name) = ok).
    { unfold fopen_at. rewrite E3, E4. simpl. rewrite Ho. reflexivity. }
    split.
    { unfold world_after_open. simpl. rewrite world_after_close_shm.
      reflexivity. }
    split.
    { unfold world_after_open. simpl.
      rewrite world_after_close_trace. unfold open_events.
      rewrite Eok, E1, E2. simpl. rewrite Hh, Hg.
      unfold close_events. simpl. rewrite Hbe.
      rewrite <- !app_assoc. reflexivity. }
    unfold world_after_open, backend_after_open. simpl. rewrite Eok.
    destruct ok; simpl.
    + split; reflexivity.
    + split; [reflexivity|].
      rewrite E5. simpl. now rewrite Hbe.
  - intros w ok w1 Hnone H.
    destruct (prepare_file_cases _ _ _ H) as (rotate & wa & sa & Hn & Hs & Hname).
    destruct (needs_rotate_file_disciplined _ _ _ Hn) as (ea & Ha & _).
    destruct (needs_rotate_file_backend _ _ _ Hn) as (Hbe & _).
    assert (Opened : forall wc sc pre,
               trace wc = (trace w ++ pre)%list ->
               exists before path after,
                 trace (world_after_open wc sc)
                 = (before ++ EvFopen path (fopen_at wc sc) :: after)%list
                 /\ (length (trace w) <= length before)%nat).
    { intros wc sc pre Hpre.
      exists (trace wc ++ [EvMakePGDirectory (guc_pgaudit_log_directory (guc wc));
                           EvLWLockAcquire LW_SHARED;
                           EvUmask (open_mask (host wc))])%list,
        (shm_filename sc),
        [EvUmaskRestore;
         if fopen_at wc sc then EvSetvbuf 8192 else open_diagnostic sc;
         EvLWLockRelease].
      split.
      - unfold world_after_open, open_events. simpl.
        rewrite <- app_assoc. reflexivity.
      - rewrite Hpre, !length_app. lia. }
    destruct rotate.
    + destruct (Hname eq_refl) as (name & Hnm).
      rewrite (prepare_file_rotating w wa sa name Hn Hs Hnm) in H.
      injection H as <- <-.
      apply (Opened _ _ (ea ++ lock_unlock ++ close_events
                               (world_after_filename wa sa name))%list).
      rewrite world_after_close_trace. simpl. rewrite Ha.
      rewrite <- !app_assoc. reflexivity.
    + rewrite (prepare_file_resting w wa sa Hn Hs) in H.
      rewrite Hbe, Hnone in H. injection H as <- <-.
      apply (Opened _ _ ea). exact Ha.
Qed.

Lemma rotation_closes_then_opens_witness :
  (exists w1, prepare_file force_and_deadline_world = Some (true, w1))
  /\ exists before path after,
      trace (world_of (prepare_file open_failure_world) open_failure_world)
      = (before ++ EvFopen path false :: after)%list
      /\ (length (trace open_failure_world) <= length before)%nat.
Proof.
  split.
  - destruct (proj1 rotation_closes_then_opens force_and_deadline_world
                (world_of (pgauditlogtofile_needs_rotate_file
                             force_and_deadline_world) force_and_deadline_world)
                {| shm_filename := "log/audit.log"; force_rotation := false;
                   next_rotation_time := 1000 |}
                "log/audit.log.-2600")
      as (w1 & Hp & _).
    + vm_compute; reflexivity.
    + vm_compute; reflexivity.
    + vm_compute; reflexivity.
    + exists w1. exact Hp.
  - apply (proj2 rotation_closes_then_opens open_failure_world false).
    + reflexivity.
    + vm_compute; reflexivity.
Defined.

(** ** Opening, closing and naming the file *)

Section OpenClose.

Lemma testbit_511 (i : Z) : 0 <= i -> Z.testbit 511 i = (i <? 9).
Proof.
  intros Hi. change 511 with (Z.ones 9).
  apply Z.testbit_ones_nonneg; lia.
Qed.

Lemma testbit_128 (i : Z) : 0 <= i -> Z.testbit 128 i = (i =? 7).
Proof.
  intros Hi. change 128 with (2 ^ 7).
  rewrite Z.pow2_bits_eqb by lia. apply Z.eqb_sym.
Qed.

Lemma open_mask_bits (h : Host) (i : Z) :
  0 <= i ->
  Z.testbit (open_mask h) i
  = negb (Z.testbit (Log_file_mode h) i) && negb (i =? 7) && (i <? 9).
Proof.
  intros Hi. unfold open_mask.
  change (Z.lor (Z.lor S_IRWXU S_IRWXG) S_IRWXO) with 511.
  rewrite Z.land_spec, Z.lnot_spec, Z.lor_spec by exact Hi.
  unfold S_IWUSR. rewrite testbit_511, testbit_128 by exact Hi.
  now rewrite negb_orb.
Qed.

Lemma substring_whole (s : string) :
  forall n, (String.length s <= n)%nat -> substring 0 n s = s.
Proof.
  induction s as [|c s IH]; intros n Hn.
  - destruct n; reflexivity.
  - destruct n as [|n]; simpl in Hn; [lia|].
    simpl. rewrite IH by lia. reflexivity.
Qed.

Lemma length_substring_le (s : string) :
  forall n, (String.length (substring 0 n s) <= n)%nat.
Proof.
  induction s as [|c s IH]; intros n.
  - destruct n; simpl; lia.
  - destruct n as [|n]; simpl; [lia|]. specialize (IH n). lia.
Qed.

Lemma length_sapp (a b : string) :
  String.length (a ++ b) = (String.length a + String.length b)%nat.
Proof. induction a as [|c a IH]; simpl; [reflexivity | now rewrite IH]. Qed.

Lemma set_force_rotation_same (s : pgAuditLogToFileShm) :
  set_force_rotation s (force_rotation s) = s.
Proof. destruct s; reflexivity. Qed.

Lemma guc_assign_force_run (w : World) :
  guc_assign_force w
  = match pgaudit_log_shm w with
    | None => Some (tt, w)
    | Some s =>
      if force_rotation s then Some (tt, w)
      else Some (tt, with_trace (with_shm w (Some (set_force_rotation s true)))
                                (trace w ++ lock_unlock))
    end.
Proof.
  unfold guc_assign_force.
  destruct (pgaudit_log_shm w) as [s|] eqn:Hshm; [|reflexivity].
  destruct (force_rotation s); simpl; [reflexivity|].
  unfold bind, LWLockAcquire, LWLockRelease, emit, modify, shm_set. simpl.
  rewrite Hshm. simpl. apply f_equal, f_equal.
  apply World_ext; simpl; try reflexivity.
  now rewrite <- app_assoc.
Qed.

End OpenClose.

(** X8.  Opening the file: the directory is created if need be, then, with
    the lock held in shared mode, the creation mask is set, the shared
    filename is opened for appending and the mask is restored.  On success
    the stream is given an 8192-byte buffer and the backend remembers the
    name; on failure the backend is left without a file, the name it
    remembered stays, and one WARNING naming the file is reported, still
    under the lock.  The lock is released in both cases.  Whatever
    [Log_file_mode] says, the mask does not take the write permission from
    the owner: it has the permission bits that [Log_file_mode] lacks,
    except the owner-write bit, and nothing above the nine permission
    bits. *)
Theorem open_file_outcome (w : World) (shm : pgAuditLogToFileShm) :
  pgaudit_log_shm w = Some shm ->
  let name := shm_filename shm in
  let ok := os_fopen (os w) (os_calls w) name in
  exists w1,
    pgauditlogtofile_open_file w = Some (ok, w1)
    /\ pgaudit_log_shm w1 = Some shm
    /\ trace w1
       = (trace w
          ++ [EvMakePGDirectory (guc_pgaudit_log_directory (guc w));
              EvLWLockAcquire LW_SHARED;
              EvUmask (open_mask (host w));
              EvFopen name ok;
              EvUmaskRestore;
              if ok then EvSetvbuf 8192
              else EvEreport WARNING
                     ("could not open log file " ++ quoted name ++ ": %m");
              EvLWLockRelease])%list
    /\ (if ok
        then file_handler (backend w1) = Some (mkFILE name)
             /\ filename_in_use (backend w1) = name
        else file_handler (backend w1) = None
             /\ filename_in_use (backend w1) = filename_in_use (backend w))
    /\ (forall i, 0 <= i ->
          Z.testbit (open_mask (host w)) i
          = negb (Z.testbit (Log_file_mode (host w)) i)
            && negb (i =? 7) && (i <? 9))
    /\ Z.land (open_mask (host w)) S_IWUSR = 0.
Proof.
  intros Hshm name ok.
  exists (world_after_open w shm).
  split; [apply open_file_run; exact Hshm|].
  split; [exact Hshm|].
  split; [reflexivity|].
  split.
  { unfold world_after_open, backend_after_open, fopen_at. simpl.
    fold name. fold ok. destruct ok; split; reflexivity. }
  split; [intros i Hi; apply open_mask_bits; exact Hi|].
  apply Z.bits_inj'. intros i Hi.
  rewrite Z.land_spec, Z.bits_0, open_mask_bits by exact Hi.
  unfold S_IWUSR. rewrite testbit_128 by exact Hi.
  destruct (i =? 7); simpl; [now rewrite andb_false_r | apply andb_false_r].
Qed.

Lemma open_file_outcome_witness :
  let name := shm_filename example_shm in
  let ok := os_fopen (os open_failure_world) (os_calls open_failure_world) name in
  exists w1,
    pgauditlogtofile_open_file open_failure_world = Some (ok, w1)
    /\ pgaudit_log_shm w1 = Some example_shm
    /\ trace w1
       = (trace open_failure_world
          ++ [EvMakePGDirectory (guc_pgaudit_log_directory (guc open_failure_world));
              EvLWLockAcquire LW_SHARED;
              EvUmask (open_mask (host open_failure_world));
              EvFopen name ok;
              EvUmaskRestore;
              if ok then EvSetvbuf 8192
              else EvEreport WARNING
                     ("could not open log file " ++ quoted name ++ ": %m");
              EvLWLockRelease])%list
    /\ (if ok
        then file_handler (backend w1) = Some (mkFILE name)
             /\ filename_in_use (backend w1) = name
        else file_handler (backend w1) = None
             /\ filename_in_use (backend w1)
                = filename_in_use (backend open_failure_world))
    /\ (forall i, 0 <= i ->
          Z.testbit (open_mask (host open_failure_world)) i
          = negb (Z.testbit (Log_file_mode (host open_failure_world)) i)
            && negb (i =? 7) && (i <? 9))
    /\ Z.land (open_mask (host open_failure_world)) S_IWUSR = 0.
Proof.
  apply (open_file_outcome open_failure_world example_shm).
  reflexivity.
Defined.

(** X9.  Closing the file never fails and leaves the backend without a
    file: fclose is called once if a file was open and not at all
    otherwise, so a second close does nothing; afterwards the file counts as
    not open.  The name the backend remembers is not reset by the close, and
    shared memory is not touched. *)
Theorem close_file_idempotent (w : World) :
  exists w1,
    pgauditlogtofile_close_file w = Some (tt, w1)
    /\ file_handler (backend w1) = None
    /\ trace w1
       = (trace w ++ match file_handler (backend w) with
                     | Some f => [EvFclose (f_path f)]
                     | None => []
                     end)%list
    /\ filename_in_use (backend w1) = filename_in_use (backend w)
    /\ pgaudit_log_shm w1 = pgaudit_log_shm w
    /\ pgauditlogtofile_close_file w1 = Some (tt, w1)
    /\ pgauditlogtofile_is_open_file w1 = Some (false, w1).
Proof.
  exists (world_after_close w).
  split; [apply close_file_run|].
  split; [apply world_after_close_file_handler|].
  split; [apply world_after_close_trace|].
  split; [apply world_after_close_rest|].
  split; [apply world_after_close_shm|].
  split.
  - rewrite close_file_run. apply f_equal, f_equal.
    unfold world_after_close at 1.
    now rewrite world_after_close_file_handler.
  - rewrite is_open_file_run. now rewrite world_after_close_file_handler.
Qed.

(** X10.  The name of the audit file is the directory, a slash, and the
    filename pattern expanded by pg_strftime for the stored deadline minus
    the rotation interval; it is stored in shared memory between an
    exclusive acquire and the release.  The clock is not read, and the force
    flag, the deadline and the backend are left as they are, so every
    backend computes the same name from the same shared state.  The space
    handed to pg_strftime is never less than one byte, and a directory
    shorter than 1023 bytes is kept whole.  With a NULL pattern the
    function faults, pg_strftime reading its format; with a NULL directory
    it does not: snprintf writes (null) for it, and the name stored starts
    with (null) and a slash.  The test the hook makes before recording rules
    both out.  Computing the name again, as the next backend to rotate does,
    stores the same name. *)
Theorem calculate_filename_effect :
  (forall w shm dir pattern,
      pgaudit_log_shm w = Some shm ->
      guc_pgaudit_log_directory (guc w) = Some dir ->
      guc_pgaudit_log_filename (guc w) = Some pattern ->
      let t := wrap_time (next_rotation_time shm
                          - wrap_int (guc_pgaudit_log_rotation_age (guc w)
                                      * SECS_PER_MINUTE)) in
      let prefix := substring 0 (MAXPGPATH - 1) (dir ++ "/") in
      let name :=
        (prefix ++ pg_strftime (host w) (MAXPGPATH - String.length prefix)
                               pattern t)%string in
      pgauditlogtofile_calculate_filename w
      = Some (tt, with_trace (with_shm w (Some (set_shm_filename shm name)))
                             (trace w ++ lock_unlock))
      /\ (1 <= MAXPGPATH - String.length prefix)%nat
      /\ ((String.length dir < MAXPGPATH - 1)%nat -> prefix = (dir ++ "/")%string))
  /\ (forall w shm,
         pgaudit_log_shm w = Some shm ->
         guc_pgaudit_log_filename (guc w) = None ->
         pgauditlogtofile_calculate_filename w = None)
  /\ (forall w shm pattern,
         pgaudit_log_shm w = Some shm ->
         guc_pgaudit_log_directory (guc w) = None ->
         guc_pgaudit_log_filename (guc w) = Some pattern ->
         let t := wrap_time (next_rotation_time shm
                             - wrap_int (guc_pgaudit_log_rotation_age (guc w)
                                         * SECS_PER_MINUTE)) in
         let name :=
           ("(null)/" ++ pg_strftime (host w) (MAXPGPATH - 7) pattern t)%string in
         pgauditlogtofile_calculate_filename w
         = Some (tt, with_trace (with_shm w (Some (set_shm_filename shm name)))
                                (trace w ++ lock_unlock)))
  /\ (forall w,
         pgauditlogtofile_is_enabled w = Some (true, w) ->
         exists w1, pgauditlogtofile_calculate_filename w = Some (tt, w1))
  /\ (forall w u w1,
         pgauditlogtofile_calculate_filename w = Some (u, w1) ->
         exists w2,
           pgauditlogtofile_calculate_filename w1 = Some (tt, w2)
           /\ pgaudit_log_shm w2 = pgaudit_log_shm w1).
Proof.
  split; [|split; [|split; [|split]]].
  - intros w shm dir pattern Hshm Hdir Hpat t prefix name.
    split.
    { rewrite (calculate_filename_run w shm Hshm).
      unfold filename_at, audit_filename. rewrite Hdir, Hpat. reflexivity. }
    split.
    { pose proof (length_substring_le (dir ++ "/") (MAXPGPATH - 1)) as L.
      fold prefix in L. clearbody name prefix. unfold MAXPGPATH in *. lia. }
    intros Hlen. apply substring_whole.
    rewrite length_sapp. clearbody name prefix.
    change (String.length "/") with 1%nat. unfold MAXPGPATH in *. lia.
  - intros w shm Hshm Hnull.
    rewrite (calculate_filename_run w shm Hshm).
    unfold filename_at, audit_filename. now rewrite Hnull.
  - intros w shm pattern Hshm Hdir Hpat t name.
    rewrite (calculate_filename_run w shm Hshm).
    unfold filename_at, audit_filename. rewrite Hdir, Hpat. reflexivity.
  - intros w Hen. rewrite is_enabled_run in Hen. injection Hen as Hen.
    unfold enabled in Hen.
    destruct (pgaudit_log_shm w) as [shm|] eqn:Hshm; [|discriminate].
    destruct (guc_pgaudit_log_directory (guc w)) as [d|] eqn:Hd; [|discriminate].
    destruct (guc_pgaudit_log_filename (guc w)) as [f|] eqn:Hf; [|discriminate].
    rewrite (calculate_filename_run w shm Hshm).
    unfold filename_at, audit_filename. rewrite Hd, Hf. eauto.
  - intros w u w1 H.
    destruct (pgaudit_log_shm w) as [shm|] eqn:Hshm.
    2:{ unfold pgauditlogtofile_calculate_filename, bind, shm_get in H.
        rewrite Hshm in H. discriminate. }
    rewrite (calculate_filename_run w shm Hshm) in H.
    destruct (filename_at w shm) as [name|] eqn:Hname; [|discriminate].
    injection H as _ <-.
    eexists. split.
    + rewrite (calculate_filename_run _ (set_shm_filename shm name));
        [|reflexivity].
      unfold filename_at in *. simpl. rewrite Hname. reflexivity.
    + reflexivity.
Qed.

Lemma calculate_filename_effect_witness :
  exists w1, pgauditlogtofile_calculate_filename steady_world = Some (tt, w1).
Proof.
  apply (proj1 (proj2 (proj2 (proj2 calculate_filename_effect))) steady_world).
  reflexivity.
Defined.

(** X11.  The file is named after the start of the period in which the
    clock was read: when the deadline [D] has been computed from the reading
    [now], the instant the name is expanded for is [D] minus the interval,
    and for readings at or after the epoch of the local clock it is at or
    before [now], which is before [D].  Before the epoch, where the
    remainder of C is negative, the instant lies after [now] unless [now] is
    on a boundary. *)
Theorem filename_names_period_of_reading (g : Guc) (now tz D : Z) :
  0 < guc_pgaudit_log_rotation_age g ->
  guc_admits pgaudit_log_rotation_age_def (guc_pgaudit_log_rotation_age g) ->
  - 2 ^ 62 <= now <= 2 ^ 62 ->
  - 2 ^ 31 <= tz <= 2 ^ 31 ->
  next_rotation_time_at (guc_pgaudit_log_rotation_age g) now tz = Some D ->
  let r := guc_pgaudit_log_rotation_age g * 60 in
  current_rotation_time g D = D - r
  /\ (0 <= now + tz -> current_rotation_time g D <= now < D)
  /\ (now + tz < 0 -> Z.rem (now + tz) r <> 0 -> now < current_rotation_time g D).
Proof.
  intros Hm Hadm Hnow Htz HD r.
  destruct (rotinterval_admitted _ Hm Hadm) as [Er Hr]. fold r in Er, Hr.
  rewrite next_rotation_time_at_exact in HD by (try assumption; lia).
  injection HD as HD. fold r in HD. clearbody r.
  pose proof (rem_abs_le (now + tz) r ltac:(lia)) as Hle.
  pose proof (Z.rem_bound_abs (now + tz) r ltac:(lia)) as Hlt.
  assert (Ec : current_rotation_time g D = D - r).
  { unfold current_rotation_time. rewrite Er. apply wrap_time_id. lia. }
  rewrite Ec. split; [reflexivity|]. split.
  - intros Hpos.
    pose proof (Z.rem_bound_pos (now + tz) r Hpos ltac:(lia)). lia.
  - intros Hneg Hrem.
    assert (Hn : 0 <= - (now + tz)) by lia.
    pose proof (Z.rem_bound_pos (- (now + tz)) r Hn ltac:(lia)) as Hb.
    rewrite Z.rem_opp_l in Hb by lia. lia.
Qed.

Lemma filename_names_period_of_reading_witness :
  let r := guc_pgaudit_log_rotation_age example_guc * 60 in
  current_rotation_time example_guc 7200 = 7200 - r
  /\ (0 <= 5000 + 0 -> current_rotation_time example_guc 7200 <= 5000 < 7200)
  /\ (5000 + 0 < 0 -> Z.rem (5000 + 0) r <> 0 ->
      5000 < current_rotation_time example_guc 7200).
Proof.
  apply (filename_names_period_of_reading example_guc 5000 0 7200).
  - reflexivity.
  - unfold guc_admits; cbn; lia.
  - lia.
  - lia.
  - reflexivity.
Defined.

(** X12.  The three assign callbacks of the settings do the same thing and
    do not look at the new value.  Without shared memory they do nothing.
    With it, they leave the force flag set: if it was clear it is set
    between an exclusive acquire and the release, if it was set nothing is
    done, so a second call changes nothing.  The clock, the backend and the
    rest of shared memory are not touched.  The next rotation check then
    returns true without reading the clock, and clears the flag. *)
Theorem guc_assign_forces_rotation :
  (forall dir file age w,
      guc_assign_filename file w = guc_assign_directory dir w
      /\ guc_assign_rotation_age age w = guc_assign_directory dir w)
  /\ (forall dir w,
         pgaudit_log_shm w = None -> guc_assign_directory dir w = Some (tt, w))
  /\ (forall dir w s,
         pgaudit_log_shm w = Some s ->
         exists w1,
           guc_assign_directory dir w = Some (tt, w1)
           /\ pgaudit_log_shm w1 = Some (set_force_rotation s true)
           /\ backend w1 = backend w
           /\ os_calls w1 = os_calls w
           /\ trace w1
              = (trace w ++ if force_rotation s then [] else lock_unlock)%list
           /\ guc_assign_directory dir w1 = Some (tt, w1)
           /\ exists w2,
               pgauditlogtofile_needs_rotate_file w1 = Some (true, w2)
               /\ pgaudit_log_shm w2 = Some (set_force_rotation s false)
               /\ os_calls w2 = os_calls w).
Proof.
  split; [intros; split; reflexivity|].
  split.
  { intros dir w Hshm. unfold guc_assign_directory.
    rewrite guc_assign_force_run, Hshm. reflexivity. }
  intros dir w s Hshm.
  unfold guc_assign_directory. rewrite guc_assign_force_run, Hshm.
  destruct (force_rotation s) eqn:Hf.
  - exists w.
    assert (Es : set_force_rotation s true = s)
      by (rewrite <- Hf; apply set_force_rotation_same).
    split; [reflexivity|]. split; [rewrite Es; exact Hshm|].
    split; [reflexivity|]. split; [reflexivity|].
    split; [now rewrite app_nil_r|].
    split; [rewrite guc_assign_force_run, Hshm, Hf; reflexivity|].
    eexists. split.
    { rewrite (needs_rotate_file_run w s Hshm), Hf. reflexivity. }
    split; reflexivity.
  - eexists. split; [reflexivity|].
    split; [reflexivity|]. split; [reflexivity|]. split; [reflexivity|].
    split; [reflexivity|].
    split; [rewrite guc_assign_force_run; reflexivity|].
    eexists. split.
    { rewrite (needs_rotate_file_run _ (set_force_rotation s true));
        [|reflexivity]. reflexivity. }
    split; reflexivity.
Qed.

Lemma guc_assign_forces_rotation_witness :
  exists w1,
    guc_assign_directory "audit" steady_world = Some (tt, w1)
    /\ pgaudit_log_shm w1 = Some (set_force_rotation example_shm true)
    /\ backend w1 = backend steady_world
    /\ os_calls w1 = os_calls steady_world
    /\ trace w1
       = (trace steady_world
          ++ if force_rotation example_shm then [] else lock_unlock)%list
    /\ guc_assign_directory "audit" w1 = Some (tt, w1)
    /\ exists w2,
        pgauditlogtofile_needs_rotate_file w1 = Some (true, w2)
        /\ pgaudit_log_shm w2 = Some (set_force_rotation example_shm false)
        /\ os_calls w2 = os_calls steady_world.
Proof.
  apply (proj2 (proj2 guc_assign_forces_rotation) "audit" steady_world example_shm).
  reflexivity.
Defined.

(** X13.  The startup hook.  When the shared structure exists already it is
    adopted as it is: nothing is reinitialised, the clock is not read and
    nothing is reported.  On a first attach, with a positive rotation age
    the GUC admits, the structure starts with the force flag set and the
    deadline computed from the clock, one LOG message is reported, and the
    first rotation check of any backend returns true.
    With a rotation age of 0, which the GUC admits, the first attach divides
    by zero. *)
Theorem shmem_startup_attach :
  (forall w s,
      pgauditlogtofile_shmem_startup (Some s) w = Some (tt, with_shm w (Some s)))
  /\ (forall w,
         0 < guc_pgaudit_log_rotation_age (guc w) ->
         guc_admits pgaudit_log_rotation_age_def
                    (guc_pgaudit_log_rotation_age (guc w)) ->
         exists t w1 s1,
           next_rotation_time_at (guc_pgaudit_log_rotation_age (guc w))
             (clock_now w) (tm_gmtoff (host w) (clock_now w)) = Some t
           /\ pgauditlogtofile_shmem_startup None w = Some (tt, w1)
           /\ pgaudit_log_shm w1 = Some s1
           /\ force_rotation s1 = true
           /\ next_rotation_time s1 = t
           /\ backend w1 = backend w
           /\ trace w1
              = (trace w
                 ++ [EvEreport LOG "pgauditlogtofile extension initialized"])%list
           /\ exists w2,
               pgauditlogtofile_needs_rotate_file w1 = Some (true, w2))
  /\ (forall w,
         guc_pgaudit_log_rotation_age (guc w) = 0 ->
         pgauditlogtofile_shmem_startup None w = None).
Proof.
  split; [intros w s; unfold pgauditlogtofile_shmem_startup, bind, modify;
          simpl; apply f_equal, f_equal, World_ext; reflexivity|].
  split.
  - intros w Hm Hadm.
    destruct (next_rotation_time_at_some _ (clock_now w)
                (tm_gmtoff (host w) (clock_now w)) Hm Hadm) as (_ & t & Ht & _).
    exists t. eexists. eexists. split; [exact Ht|].
    unfold pgauditlogtofile_shmem_startup, bind, modify. simpl.
    rewrite calculate_next_rotation_time_run. simpl.
    unfold clock_now in Ht. rewrite Ht.
    unfold shm_set, ereport, emit, modify. simpl.
    split; [reflexivity|]. split; [reflexivity|]. split; [reflexivity|].
    split; [reflexivity|]. split; [reflexivity|]. split; [reflexivity|].
    eexists.
    erewrite needs_rotate_file_run; [|reflexivity].
    reflexivity.
  - intros w H0.
    unfold pgauditlogtofile_shmem_startup, bind, modify. simpl.
    rewrite calculate_next_rotation_time_run. simpl. rewrite H0. reflexivity.
Qed.

Lemma shmem_startup_attach_witness :
  exists t w1 s1,
    next_rotation_time_at (guc_pgaudit_log_rotation_age (guc startup_world))
      (clock_now startup_world)
      (tm_gmtoff (host startup_world) (clock_now startup_world)) = Some t
    /\ pgauditlogtofile_shmem_startup None startup_world = Some (tt, w1)
    /\ pgaudit_log_shm w1 = Some s1
    /\ force_rotation s1 = true
    /\ next_rotation_time s1 = t
    /\ backend w1 = backend startup_world
    /\ trace w1
       = (trace startup_world
          ++ [EvEreport LOG "pgauditlogtofile extension initialized"])%list
    /\ exists w2,
        pgauditlogtofile_needs_rotate_file w1 = Some (true, w2).
Proof.
  apply (proj1 (proj2 shmem_startup_attach) startup_world).
  - reflexivity.
  - unfold guc_admits; cbn; lia.
Defined.

(** X14.  The bounds given to the GUC machinery for the rotation age: the
    default of one day is within them, every value they admit converts to
    seconds without leaving the range of [int], and the maximum is the
    largest value for which this is so. *)
Theorem rotation_age_bounds :
  ci_boot pgaudit_log_rotation_age_def = 1440
  /\ guc_admits pgaudit_log_rotation_age_def
                (ci_boot pgaudit_log_rotation_age_def)
  /\ (forall v,
         guc_admits pgaudit_log_rotation_age_def v ->
         wrap_int (v * SECS_PER_MINUTE) = v * 60
         /\ 0 <= v * 60 <= INT_MAX)
  /\ wrap_int ((ci_max pgaudit_log_rotation_age_def + 1) * SECS_PER_MINUTE)
     <> (ci_max pgaudit_log_rotation_age_def + 1) * 60.
Proof.
  split; [reflexivity|].
  split; [unfold guc_admits; cbn; lia|].
  split.
  - intros v Hadm. unfold guc_admits in Hadm. cbn in Hadm.
    assert (B : 0 <= v <= 35791394) by exact Hadm.
    unfold SECS_PER_MINUTE, INT_MAX.
    split; [apply wrap_int_id|]; lia.
  - vm_compute. discriminate.
Qed.

Lemma rotation_age_bounds_witness :
  wrap_int (1440 * SECS_PER_MINUTE) = 1440 * 60 /\ 0 <= 1440 * 60 <= INT_MAX.
Proof.
  apply (proj1 (proj2 (proj2 rotation_age_bounds)) 1440).
  unfold guc_admits; cbn; lia.
Defined.

(** ** Reading a line back *)

Section Reading.

Lemma csv_read_body_doubled (s rest : string) :
  starts_with_dquote rest = false ->
  csv_read_body (double_quotes s ++ String dquote rest) = Some (s, rest).
Proof.
  intros Hrest. induction s as [|c s IH].
  - cbn [double_quotes append csv_read_body]. rewrite Ascii.eqb_refl.
    destruct rest as [|c' r']; [reflexivity|].
    cbn [starts_with_dquote] in Hrest. now rewrite Hrest.
  - cbn [double_quotes].
    destruct (Ascii.eqb c dquote) eqn:E; cbn [append csv_read_body].
    + rewrite !Ascii.eqb_refl, IH.
      apply Ascii.eqb_eq in E; subst c. reflexivity.
    + rewrite E, IH. reflexivity.
Qed.

Lemma length_double_quotes (s : string) :
  (String.length s <= String.length (double_quotes s))%nat.
Proof.
  induction s as [|c s IH]; simpl; [lia|].
  destruct (Ascii.eqb c dquote); simpl; lia.
Qed.

(* writing a text between quotes as it is gives the CSV literal exactly
   when there is nothing to double *)
Lemma quoted_is_literal (a : string) :
  quoted a = csv_literal (Some a) <-> no_dquote a = true.
Proof.
  unfold quoted, csv_literal. rewrite append_csv_literal_present. simpl.
  split.
  - intros H. injection H as H. revert H.
    induction a as [|c a IH]; simpl; [reflexivity|].
    destruct (Ascii.eqb c dquote) eqn:E; simpl.
    + intros H. injection H as _ H. exfalso.
      apply (f_equal String.length) in H.
      rewrite length_sapp in H. simpl in H. rewrite length_sapp in H.
      pose proof (length_double_quotes a). simpl in H. lia.
    + intros H. injection H as H. exact (IH H).
  - intros H. apply f_equal.
    induction a as [|c a IH]; simpl in *; [reflexivity|].
    destruct (Ascii.eqb c dquote); simpl in H; [discriminate|].
    simpl. now rewrite IH.
Qed.

Lemma length_substring (s : string) :
  forall n m, String.length (substring n m s) = Nat.min m (String.length s - n).
Proof.
  induction s as [|c s IH]; intros n m.
  - destruct n, m; reflexivity.
  - destruct n as [|n]; simpl.
    + destruct m as [|m]; simpl; [reflexivity|]. rewrite IH. simpl.
      now rewrite Nat.sub_0_r.
    + apply IH.
Qed.

Lemma fmt_03d_length (z : Z) : 0 <= z < 1000 -> String.length (fmt_03d z) = 3%nat.
Proof.
  intros Hz.
  assert (All : forallb (fun k => (String.length (fmt_03d (Z.of_nat k)) =? 3)%nat)
                        (seq 0 1000) = true) by (vm_compute; reflexivity).
  rewrite forallb_forall in All.
  specialize (All (Z.to_nat z)).
  rewrite Z2Nat.id in All by lia.
  apply Nat.eqb_eq, All, in_seq. lia.
Qed.

(* the folding of a byte without the high bit does not depend on the locale *)
Lemma fold_uchar_low (lc : Locale) (ch : Z) :
  IS_HIGHBIT_SET ch = false -> fold_uchar lc ch = fold_uchar C_locale ch.
Proof.
  intros H. unfold fold_uchar. rewrite H. simpl.
  destruct ((uchar "A" <=? ch) && (ch <=? uchar "Z")); reflexivity.
Qed.

Lemma same_letter_fold (lc : Locale) (c d : ascii) :
  same_letter c d = true ->
  (if uchar c =? uchar d then uchar c else fold_uchar lc (uchar c))
  = (if uchar c =? uchar d then uchar d else fold_uchar lc (uchar d)).
Proof.
  unfold same_letter. intros H.
  destruct (Z.eqb_spec (uchar c) (uchar d)) as [E|E]; [exact E|].
  apply orb_true_iff in H. destruct H as [H|H].
  - apply Ascii.eqb_eq in H. subst d. contradiction.
  - apply andb_true_iff in H. destruct H as [H Hd].
    apply andb_true_iff in H. destruct H as [H Hc].
    apply negb_true_iff in Hc, Hd. apply Z.eqb_eq in H.
    now rewrite (fold_uchar_low lc _ Hc), (fold_uchar_low lc _ Hd).
Qed.

Lemma pg_strncasecmp_same_letters (lc : Locale) (p q : string) :
  forall rest1 rest2,
    same_letters p q = true ->
    pg_strncasecmp lc (p ++ rest1) (q ++ rest2) (String.length q) = 0.
Proof.
  revert q. induction p as [|c p IH]; intros q rest1 rest2 H.
  - destruct q; [reflexivity | discriminate].
  - destruct q as [|d q]; [discriminate|].
    simpl in H. apply andb_true_iff in H. destruct H as [Hcd Hpq].
    cbn [String.length append pg_strncasecmp deref].
    cbv zeta.
    rewrite (same_letter_fold lc c d Hcd), Z.eqb_refl. simpl.
    match goal with
    | |- (if ?t then _ else _) = _ => destruct t
    end; [reflexivity|].
    apply IH. exact Hpq.
Qed.

(* a text that ends before the other one does is not equal to it *)
Lemma pg_strncasecmp_short (lc : Locale) (q : string) :
  forall msg,
    (String.length msg < String.length q)%nat ->
    folds_nonzero lc q ->
    pg_strncasecmp lc msg q (String.length q) <> 0.
Proof.
  induction q as [|d q IH]; intros msg Hlen Hnz.
  - simpl in Hlen. lia.
  - destruct Hnz as (Hd & Hfd & Hq).
    cbn [String.length pg_strncasecmp]. cbv zeta.
    destruct msg as [|c msg].
    + cbn [deref].
      destruct (Z.eqb_spec 0 (uchar d)) as [E|E]; [congruence|].
      assert (F0 : fold_uchar lc 0 = 0) by reflexivity.
      rewrite F0.
      destruct (Z.eqb_spec 0 (fold_uchar lc (uchar d))) as [E'|E'];
        [congruence|].
      simpl. lia.
    + cbn [deref].
      set (f1 := if uchar c =? uchar d then uchar c else fold_uchar lc (uchar c)).
      set (f2 := if uchar c =? uchar d then uchar d else fold_uchar lc (uchar d)).
      assert (Hf2 : f2 <> 0).
      { unfold f2. destruct (uchar c =? uchar d); assumption. }
      destruct (Z.eqb_spec f1 f2) as [E|E]; simpl; [|lia].
      destruct (Z.eqb_spec f1 0) as [E0|E0]; [congruence|].
      apply IH; [simpl in Hlen; lia | exact Hq].
Qed.

End Reading.

(** X15.  What the formatter writes for a text field can be read back from
    the place in the line where it starts: a reader that stands at the
    opening quote gets the text as it was, commas, newlines and quotes
    included, and stops right behind the closing quote, whatever follows,
    as long as it is not another quote (in a line it is a comma or the
    newline).  An absent text gives no quote to start from, so it cannot be
    taken for an empty one; and two texts that are rendered alike are the
    same. *)
Theorem csv_field_read_back :
  (forall buf s rest,
      starts_with_dquote rest = false ->
      exists field,
        (pgauditlogtofile_append_csv_literal buf (Some s) ++ rest
         = buf ++ field ++ rest)%string
        /\ csv_read_quoted (field ++ rest) = Some (s, rest))
  /\ (forall rest,
         csv_read_quoted (csv_literal None ++ String comma rest) = None
         /\ csv_read_quoted (csv_literal (Some "") ++ String comma rest)
            = Some ("", String comma rest))
  /\ (forall d1 d2, csv_literal d1 = csv_literal d2 -> d1 = d2).
Proof.
  split; [|split].
  - intros buf s rest Hrest.
    exists (String dquote (double_quotes s ++ String dquote "")).
    split.
    + rewrite append_csv_literal_present. now rewrite sapp_assoc.
    + cbn [append csv_read_quoted]. rewrite Ascii.eqb_refl, sapp_assoc.
      cbn [append]. apply csv_read_body_doubled. exact Hrest.
  - intros rest. split; reflexivity.
  - intros d1 d2 H.
    assert (R : forall s, csv_unquote (csv_literal (Some s)) = Some s).
    { intros s. unfold csv_literal. rewrite append_csv_literal_present.
      simpl. apply csv_unquote_body_doubled. }
    destruct d1 as [s1|], d2 as [s2|].
    + apply (f_equal csv_unquote) in H. rewrite !R in H. exact H.
    + unfold csv_literal in H. rewrite append_csv_literal_present in H.
      discriminate.
    + unfold csv_literal in H. rewrite append_csv_literal_present in H.
      discriminate.
    + reflexivity.
Qed.

Lemma csv_field_read_back_witness :
  exists field,
    (pgauditlogtofile_append_csv_literal "x," (Some he_said) ++ ",y"
     = "x," ++ field ++ ",y")%string
    /\ csv_read_quoted (field ++ ",y") = Some (he_said, ",y").
Proof.
  apply (proj1 csv_field_read_back "x," he_said ",y").
  reflexivity.
Defined.

(** X16.  The remote-host field is the only quoted field that is not
    written by the literal routine: the host, a colon and the port when the
    port is set and not empty, are put between two quotes as they are.  The
    field is therefore the CSV literal of that text exactly when the text
    has no double quote in it; without a connection, or without a host, the
    field is empty. *)
Theorem remote_host_field :
  (forall h buf port,
      MyProcPort h = Some port ->
      put_remote_host h buf
      = (buf ++ match remote_address port with
                | Some a => quoted a
                | None => ""
                end)%string)
  /\ (forall h buf, MyProcPort h = None -> put_remote_host h buf = buf)
  /\ (forall a, quoted a = csv_literal (Some a) <-> no_dquote a = true).
Proof.
  split; [|split].
  - intros h buf port Hp. unfold put_remote_host, remote_address. rewrite Hp.
    destruct (remote_host port) as [rh|]; [|now rewrite sapp_nil_r].
    unfold appendStringInfoChar, appendStringInfoString, quoted.
    destruct (remote_port port) as [rp|].
    + destruct (negb (deref rp =? 0)); simpl;
        repeat (progress (rewrite ?sapp_assoc, ?sapp_cons, ?sapp_nil_r));
        reflexivity.
    + simpl. repeat (progress (rewrite ?sapp_assoc, ?sapp_cons, ?sapp_nil_r)).
      reflexivity.
  - intros h buf Hp. unfold put_remote_host. now rewrite Hp.
  - exact quoted_is_literal.
Qed.

Lemma remote_host_field_witness :
  put_remote_host example_host "x,"
  = ("x," ++ match remote_address example_port with
             | Some a => quoted a
             | None => ""
             end)%string.
Proof.
  apply (proj1 remote_host_field example_host "x," example_port).
  reflexivity.
Defined.

(** X17.  The timestamp of a record is the text pg_strftime gives for the
    second of the reading, with the four characters at offsets 19 to 22
    replaced by a dot and the milliseconds on three digits; what comes
    before and after (the zone) is kept, and so is the length.  The
    microseconds are cut to milliseconds, not rounded. *)
Theorem format_log_time_shape (w : World) :
  let s := pg_strftime (host w) FORMATTED_TS_LEN "%Y-%m-%d %H:%M:%S     %Z"
                       (clock_now w) in
  let usec := os_usec (os w) (os_calls w) in
  (23 <= String.length s)%nat ->
  0 <= usec < 1000000 ->
  exists w1 ms,
    pgauditlogtofile_format_log_time w = Some (tt, w1)
    /\ ms = fmt_03d (usec / 1000)
    /\ String.length ms = 3%nat
    /\ formatted_log_time (backend w1)
       = (substring 0 19 s ++ "." ++ ms
          ++ substring 23 (String.length s - 23) s)%string
    /\ String.length (formatted_log_time (backend w1)) = String.length s
    /\ os_calls w1 = S (os_calls w)
    /\ trace w1 = trace w.
Proof.
  intros s usec Hlen Hus.
  assert (Hq : Z.quot usec 1000 = usec / 1000)
    by (apply Z.quot_div_nonneg; lia).
  assert (Hms : 0 <= usec / 1000 < 1000).
  { split; [apply Z.div_pos; lia|]. apply Z.div_lt_upper_bound; lia. }
  assert (Hw : wrap_int (Z.quot usec 1000) = usec / 1000).
  { rewrite Hq. apply wrap_int_id. lia. }
  pose proof (fmt_03d_length _ Hms) as L3.
  eexists. exists (fmt_03d (usec / 1000)).
  split.
  { unfold pgauditlogtofile_format_log_time, bind, gettimeofday, gets,
      backend_set, modify. simpl. reflexivity. }
  split; [reflexivity|]. split; [exact L3|].
  assert (E : strncpy_at s 19 ("." ++ fmt_03d (wrap_int (Z.quot usec 1000))) 4
              = (substring 0 19 s ++ "." ++ fmt_03d (usec / 1000)
                 ++ substring 23 (String.length s - 23) s)%string).
  { unfold strncpy_at. rewrite Hw.
    rewrite (substring_whole ("." ++ fmt_03d (usec / 1000)) 4)
      by (simpl; rewrite L3; lia).
    rewrite sapp_assoc. reflexivity. }
  split; [exact E|].
  split; [|split; reflexivity].
  change (String.length
            (strncpy_at s 19 ("." ++ fmt_03d (wrap_int (Z.quot usec 1000))) 4)
          = String.length s).
  rewrite E.
  rewrite !length_sapp, !length_substring, L3.
  change (String.length ".") with 1%nat. lia.
Qed.

Lemma format_log_time_shape_witness :
  let s := pg_strftime (host steady_world) FORMATTED_TS_LEN
                       "%Y-%m-%d %H:%M:%S     %Z" (clock_now steady_world) in
  let usec := os_usec (os steady_world) (os_calls steady_world) in
  exists w1 ms,
    pgauditlogtofile_format_log_time steady_world = Some (tt, w1)
    /\ ms = fmt_03d (usec / 1000)
    /\ String.length ms = 3%nat
    /\ formatted_log_time (backend w1)
       = (substring 0 19 s ++ "." ++ ms
          ++ substring 23 (String.length s - 23) s)%string
    /\ String.length (formatted_log_time (backend w1)) = String.length s
    /\ os_calls w1 = S (os_calls steady_world)
    /\ trace w1 = trace steady_world.
Proof.
  apply (format_log_time_shape steady_world).
  - apply Nat.leb_le. vm_compute; reflexivity.
  - split; [apply Z.leb_le | apply Z.ltb_lt]; vm_compute; reflexivity.
Defined.

(** X18.  Formatting a line never fails and does nothing outside: no event
    is added, shared memory, the file and the remembered filename are as
    before, and the clock is read once.  The text is appended to what the
    buffer holds; it is made of the 22 fields, computed from the host, the
    record and the statics as the call leaves them, separated by commas, and
    it ends with a newline. *)
Theorem format_audit_line_frame (buf : StringInfo) (edata : ErrorData) (w : World) :
  exists w1,
    pgauditlogtofile_format_audit_line buf edata w
    = Some ((buf ++ csv_join (audit_fields (host w) (backend w1) edata)
                 ++ String newline "")%string, w1)
    /\ length (audit_fields (host w) (backend w1) edata) = 22%nat
    /\ host w1 = host w
    /\ trace w1 = trace w
    /\ pgaudit_log_shm w1 = pgaudit_log_shm w
    /\ file_handler (backend w1) = file_handler (backend w)
    /\ filename_in_use (backend w1) = filename_in_use (backend w)
    /\ prev_emit_log_hook (backend w1) = prev_emit_log_hook (backend w)
    /\ os_calls w1 = S (os_calls w).
Proof.
  exists (world_after_format w).
  split; [apply format_audit_line_run|].
  split; [reflexivity|]. split; [reflexivity|]. split; [reflexivity|].
  split; [apply after_format_shm|].
  split; [apply after_format_file_handler|].
  split; [apply after_format_filename_in_use|].
  split; [apply after_format_prev_hook | reflexivity].
Qed.

(** X19.  The test of the hook for the audit prefix ignores the case of
    letters: a message that starts with the seven characters of the prefix
    in any mix of upper and lower case is taken for an audit line and, while
    the extension is enabled, recorded; a message shorter than the prefix is
    never taken. *)
Theorem audit_prefix_any_case :
  (forall h p rest,
      same_letters p PGAUDIT_PREFIX_LINE = true ->
      is_audit_message h (p ++ rest) = true)
  /\ (forall edata w p rest,
         same_letters p PGAUDIT_PREFIX_LINE = true ->
         message edata = Some (p ++ rest)%string ->
         pgauditlogtofile_is_enabled w = Some (true, w) ->
         pgauditlogtofile_emit_log edata w
         = match pgauditlogtofile_record_audit edata w with
           | Some (true, w1) => Some (set_output_to_server edata false, w1)
           | Some (false, w1) =>
             Some (edata, with_trace w1 (trace w1 ++ prev_hook_events w1 edata))
           | None => None
           end)
  /\ (forall h msg,
         (String.length msg < String.length PGAUDIT_PREFIX_LINE)%nat ->
         is_audit_message h msg = false).
Proof.
  assert (A : forall h p rest,
             same_letters p PGAUDIT_PREFIX_LINE = true ->
             is_audit_message h (p ++ rest) = true).
  { intros h p rest H. unfold is_audit_message, strlen.
    pose proof (pg_strncasecmp_same_letters (locale h) p PGAUDIT_PREFIX_LINE
                  rest "" H) as E.
    rewrite sapp_nil_r in E. rewrite E. reflexivity. }
  split; [exact A|]. split.
  - intros edata w p rest H Hmsg Hen.
    rewrite is_enabled_run in Hen. injection Hen as Hen.
    rewrite (emit_log_cases edata w _ Hmsg), (A (host w) p rest H), Hen.
    reflexivity.
  - intros h msg Hlen. unfold is_audit_message, strlen.
    apply Z.eqb_neq.
    apply pg_strncasecmp_short; [exact Hlen|].
    unfold PGAUDIT_PREFIX_LINE, folds_nonzero.
    repeat split; try (vm_compute; discriminate).
Qed.

(* the prefix as pgaudit does not write it *)
Lemma audit_prefix_any_case_witness :
  is_audit_message example_host ("Audit: " ++ "select 1") = true.
Proof.
  apply (proj1 audit_prefix_any_case example_host "Audit: " "select 1").
  vm_compute; reflexivity.
Defined.

(** ** The lock protocol from any start *)

Section RaceGeneral.

Import Race.

Variable c : Config.

#[local] Arguments acquire : simpl never.
#[local] Arguments release : simpl never.

(* nobody holds a free lock *)
Lemma lock_free_inv (G : Global) :
  (forall p, holds (proc G p) = None) -> lock_free (g_lock G) -> lock_inv G.
Proof.
  intros Hn (Hx & Hs).
  unfold lock_inv. rewrite Hx, Hs.
  split; [|split].
  - intros p. unfold holds_exclusive. rewrite Hn. split; discriminate.
  - intros p. unfold holds_shared. rewrite Hn. split; [intros [] | discriminate].
  - intros p q _ _. apply Hn.
Qed.

(* a backend waits only at an acquire, and only for a lock that is taken *)
Lemma step_blocked (p : Pid) (G : Global) :
  step c p G = Blocked ->
  holds (proc G p) = None
  /\ (exclusive (g_lock G) <> None \/ shared (g_lock G) <> []).
Proof.
  unfold step, locked, unlocked, holds.
  destruct (pc (proc G p)); intros H;
    repeat match type of H with
           | context [match ?x with _ => _ end] =>
             let E := fresh "E" in destruct x eqn:E
           end;
    try discriminate H;
    (split; [reflexivity|]);
    unfold acquire in *;
    (destruct (exclusive (g_lock G)); [left; discriminate|]);
    (destruct (shared (g_lock G)); [discriminate | right; discriminate]).
Qed.

(* a backend that holds the lock is not waiting and is not done *)
Lemma holder_moves (p : Pid) (G : Global) :
  holds (proc G p) <> None ->
  step c p G <> Blocked /\ step c p G <> Finished.
Proof.
  unfold step, locked, unlocked, holds.
  destruct (pc (proc G p)); intros H; try contradiction;
    split;
    repeat match goal with
           | |- context [match ?x with _ => _ end] => destruct x
           end;
    discriminate.
Qed.

Lemma step_finished (p : Pid) (G : Global) :
  step c p G = Finished -> is_done (proc G p) = true.
Proof.
  unfold step, locked, unlocked, is_done.
  destruct (pc (proc G p)); intros H;
    repeat match type of H with
           | context [match ?x with _ => _ end] => destruct x
           end;
    try discriminate H; reflexivity.
Qed.

(* with a consistent lock, a backend that is not done can move, or the
   one it waits for can *)
Lemma lock_inv_progress (G : Global) (p : Pid) :
  lock_inv G -> is_done (proc G p) = false ->
  exists q, step c q G <> Blocked /\ step c q G <> Finished.
Proof.
  intros HL Hnd.
  destruct (step c p G) as [G'| | |] eqn:Hstep.
  - exists p. rewrite Hstep. split; discriminate.
  - destruct (step_blocked p G Hstep) as (_ & Hlock).
    destruct (lock_inv_holder G HL Hlock) as (q & Hq).
    exists q. apply holder_moves. exact Hq.
  - exists p. rewrite Hstep. split; discriminate.
  - apply step_finished in Hstep. congruence.
Qed.

End RaceGeneral.

(** X20.  The lock protocol of the rotation, for two backends that start
    anywhere outside the locked sections on a free lock, whatever the shared
    state: however they are interleaved, they are never in an exclusive
    section together, a backend in an exclusive section is the only one
    that holds the lock in any mode, the exclusive holder recorded by the
    lock is the backend in its exclusive section, and as long as one of them
    has not finished, one of them is neither waiting for the lock nor
    finished, so the two never wait for each other. *)
Theorem lock_protocol_sound (c : Race.Config) (G0 : Race.Global) :
  (forall p, Race.holds (Race.proc G0 p) = None) ->
  Race.lock_free (Race.g_lock G0) ->
  forall sched,
    let G := Race.run c sched G0 in
    Race.holds_exclusive (Race.g_A G) && Race.holds_exclusive (Race.g_B G) = false
    /\ (forall p q, Race.holds_exclusive (Race.proc G p) = true -> p <> q ->
                    Race.holds (Race.proc G q) = None)
    /\ (forall p, Race.exclusive (Race.g_lock G) = Some p
                  <-> Race.holds_exclusive (Race.proc G p) = true)
    /\ (Race.all_done G = false ->
        exists q, Race.step c q G <> Race.Blocked
                  /\ Race.step c q G <> Race.Finished).
Proof.
  intros Hn Hfree sched G.
  assert (HL : Race.lock_inv G)
    by (apply run_lock_inv; apply lock_free_inv; assumption).
  split; [apply lock_inv_exclusion; exact HL|].
  split; [exact (proj2 (proj2 HL))|].
  split; [exact (proj1 HL)|].
  intros Hnd. unfold Race.all_done in Hnd.
  destruct (Race.is_done (Race.g_A G)) eqn:EA.
  - apply (lock_inv_progress c G Race.PB HL). exact Hnd.
  - apply (lock_inv_progress c G Race.PA HL). exact EA.
Qed.

Lemma lock_protocol_sound_witness :
  Race.holds_exclusive (Race.g_A (Race.run example_config observe_both example_global))
  && Race.holds_exclusive (Race.g_B (Race.run example_config observe_both example_global))
  = false.
Proof.
  destruct (lock_protocol_sound example_config example_global) with
    (sched := observe_both) as (H & _).
  - intros []; reflexivity.
  - split; reflexivity.
  - exact H.
Defined.

(** ** No fault on the way *)

Section Totality.





End Totality.





(** X23.  A backend that finds the shared filename different from the one
    it remembers follows the others: it does not read the clock and does
    not touch the flag or the deadline, it computes the name again, closes
    its file and opens the shared one.  When the name it computes is the one
    already stored, shared memory is left exactly as it was, and after a
    successful open the backend has its file on the shared name, so that its
    next check finds the names equal. *)
Theorem follower_adopts_shared_name (w : World) (shm : pgAuditLogToFileShm) :
  pgaudit_log_shm w = Some shm ->
  force_rotation shm = false ->
  names_differ w shm = true ->
  audit_filename (host w) (guc w)
    (wrap_time (next_rotation_time shm
                - wrap_int (guc_pgaudit_log_rotation_age (guc w)
                            * SECS_PER_MINUTE))) = Some (shm_filename shm) ->
  os_fopen (os w) (os_calls w) (shm_filename shm) = true ->
  exists w1,
    prepare_file w = Some (true, w1)
    /\ pgaudit_log_shm w1 = Some shm
    /\ file_handler (backend w1) = Some (mkFILE (shm_filename shm))
    /\ filename_in_use (backend w1) = shm_filename shm
    /\ names_differ w1 shm = false
    /\ os_calls w1 = S (os_calls w)
    /\ trace w1
       = (trace w ++ lock_unlock ++ close_events w
          ++ [EvMakePGDirectory (guc_pgaudit_log_directory (guc w));
              EvLWLockAcquire LW_SHARED;
              EvUmask (open_mask (host w));
              EvFopen (shm_filename shm) true;
              EvUmaskRestore;
              EvSetvbuf 8192;
              EvLWLockRelease])%list.
Proof.
  intros Hshm Hforce Hnames Hname Hopen.
  assert (Hn : pgauditlogtofile_needs_rotate_file w = Some (true, w))
    by (rewrite (needs_rotate_file_run w shm Hshm), Hforce, Hnames; reflexivity).
  assert (Es : set_shm_filename shm (shm_filename shm) = shm)
    by (destruct shm; reflexivity).
  destruct (world_after_close_rest (world_after_filename w shm (shm_filename shm)))
    as (E1 & E2 & E3 & E4 & E5).
  assert (Eok : fopen_at (world_after_close
                            (world_after_filename w shm (shm_filename shm)))
                         (set_shm_filename shm (shm_filename shm)) = true).
  { unfold fopen_at. rewrite E3, E4. simpl. exact Hopen. }
  eexists. split.
  { rewrite (prepare_file_rotating w w shm (shm_filename shm) Hn Hshm Hname).
    rewrite Eok. reflexivity. }
  split.
  { unfold world_after_open. simpl. rewrite world_after_close_shm. simpl.
    now rewrite Es. }
  unfold world_after_open, backend_after_open. simpl. rewrite Eok. simpl.
  split; [reflexivity|]. split; [reflexivity|].
  split.
  { unfold names_differ. simpl. now rewrite pg_strcasecmp_refl. }
  split; [rewrite E4; reflexivity|].
  rewrite world_after_close_trace. unfold open_events.
  rewrite Eok, E1, E2. simpl. unfold close_events. simpl.
  rewrite <- !app_assoc. reflexivity.
Qed.

Lemma follower_adopts_shared_name_witness :
  exists w1,
    prepare_file follower_world = Some (true, w1)
    /\ pgaudit_log_shm w1 = Some follower_shm
    /\ file_handler (backend w1) = Some (mkFILE (shm_filename follower_shm))
    /\ filename_in_use (backend w1) = shm_filename follower_shm
    /\ names_differ w1 follower_shm = false
    /\ os_calls w1 = S (os_calls follower_world)
    /\ trace w1
       = (trace follower_world ++ lock_unlock ++ close_events follower_world
          ++ [EvMakePGDirectory (guc_pgaudit_log_directory (guc follower_world));
              EvLWLockAcquire LW_SHARED;
              EvUmask (open_mask (host follower_world));
              EvFopen (shm_filename follower_shm) true;
              EvUmaskRestore;
              EvSetvbuf 8192;
              EvLWLockRelease])%list.
Proof.
  apply (follower_adopts_shared_name follower_world follower_shm).
  - reflexivity.
  - reflexivity.
  - vm_compute; reflexivity.
  - vm_compute; reflexivity.
  - reflexivity.
Defined.


